(** * cer-manager daemon: namespace service, checkpoint service, connection server

    A shallow embedding of the Go sources

      - services/namespace  (package namespace: New, Init, Handle,
        handleRequest, handleGetNamespace, handlePutNamespace, Stop,
        mergeConfig, defaultConfig),
      - services/checkpoint (package checkpoint: New, initProvider, Init, Get,
        handleGetCheckpoint, Handle, Stop),
      - cermanager/server.go (NewServer, the accept loop of Server.Start,
        Server.serve, Server.Shutdown),
      - namespace/uts (NewManager), client (New, Default) and the [start]
        command of cmd/cermanager,

    the properties of the daemon's specification that concern them, and
    further properties of the code.

    Go maps are finite maps ([gmap]) and sets ([gset]). The external
    collaborators (file system, JSON decoder, checkpoint provider, namespace
    managers, the peer of a connection) are explicit arguments whose answers
    may depend on everything that happened before; every call made to them is
    recorded, with its outcome, in a chronological trace of events. A function
    that changes the service, the trace or the connection returns the new
    ones. The started server is the accept loop and one goroutine for each
    connection, which take their steps in any order on the one server that
    they share. *)

From Stdlib Require Import ZArith String Ascii List.
From stdpp Require Import base gmap sets list strings pretty.

Local Open Scope Z_scope.
Local Open Scope string_scope.
Local Open Scope list_scope.

(** ** Go's [error] values

    Only two observations are ever made on an error in this code: its message
    ([err.Error()]) and whether [os.IsNotExist] holds of it. *)

Record error := mkError { Error : string; isNotExist : bool }.

(** [errors.New] *)
Definition errors_New (msg : string) : error :=
  {| Error := msg; isNotExist := false |}.

(** [errors.Wrap] of github.com/pkg/errors: the message is prefixed, and the
    wrapped value is no longer recognised by [os.IsNotExist]. *)
Definition errors_Wrap (err : error) (msg : string) : error :=
  {| Error := msg +:+ ": " +:+ Error err; isNotExist := false |}.

Definition os_IsNotExist (err : error) : bool := isNotExist err.

(** ** Go's [path.Join]

    The lexical path cleaning of the standard library, on the list of the
    components between slashes. *)

Module GoPath.

(** The pieces of [s] between the slashes: [components "a//b" = ["a"; ""; "b"]]. *)
Fixpoint components (s : string) : list string :=
  match s with
  | EmptyString => [EmptyString]
  | String c rest =>
      if Ascii.eqb c "/" then EmptyString :: components rest
      else match components rest with
           | [] => [String c EmptyString]
           | h :: t => String c h :: t
           end
  end.

(** One component processed by [path.Clean]; [out] is the output so far, last
    component first. [".."] removes the last component, unless there is none
    to remove: then it is kept on a relative path and dropped on a rooted
    one. *)
Definition clean_step (rooted : bool) (out : list string) (c : string) : list string :=
  if String.eqb c "" then out
  else if String.eqb c "." then out
  else if String.eqb c ".." then
    match out with
    | top :: below => if String.eqb top ".." then c :: out else below
    | [] => if rooted then out else [c]
    end
  else c :: out.

Fixpoint join_slash (l : list string) : string :=
  match l with
  | [] => ""
  | [c] => c
  | c :: l' => c +:+ "/" +:+ join_slash l'
  end.

Definition is_rooted (p : string) : bool :=
  match p with
  | String c _ => Ascii.eqb c "/"
  | EmptyString => false
  end.

Definition Clean (p : string) : string :=
  if String.eqb p "" then "."
  else
    let rooted := is_rooted p in
    let body := join_slash (rev (fold_left (clean_step rooted) (components p) [])) in
    if rooted then "/" +:+ body
    else if String.eqb body "" then "." else body.

(** [path.Join(elem...)]: leading empty elements are ignored, the others are
    joined by slashes and the result is cleaned; all empty gives [""]. *)
Fixpoint Join (elem : list string) : string :=
  match elem with
  | [] => ""
  | e :: rest => if String.eqb e "" then Join rest else Clean (join_slash elem)
  end.

Arguments Join : simpl never.

End GoPath.

(** ** Types of the wire protocol and of the services' API *)

(** [cerm.ServiceType]: the discriminator a client writes first on a
    connection. [OtherService] stands for every value that is neither of the
    two services registered by [NewServer]. *)
Inductive ServiceType :=
| NamespaceService
| CheckpointService
| OtherService (raw : Z).

(** [ns.NamespaceType]; [OtherNamespace] is a value received from the wire that
    names none of the three kinds. *)
Inductive NamespaceType :=
| UTS
| IPC
| MNT
| OtherNamespace (raw : string).

#[global] Instance ServiceType_eq_dec : EqDecision ServiceType.
Proof. solve_decision. Defined.

#[global] Instance NamespaceType_eq_dec : EqDecision NamespaceType.
Proof. solve_decision. Defined.

#[global] Instance ServiceType_countable : Countable ServiceType.
Proof.
  refine (inj_countable'
    (fun t => match t with
              | NamespaceService => inl true
              | CheckpointService => inl false
              | OtherService raw => inr raw
              end)
    (fun x => match x with
              | inl true => NamespaceService
              | inl false => CheckpointService
              | inr raw => OtherService raw
              end) _).
  by intros [ | | raw].
Defined.

#[global] Instance NamespaceType_countable : Countable NamespaceType.
Proof.
  refine (inj_countable'
    (fun t => match t with
              | UTS => inl 0%nat
              | IPC => inl 1%nat
              | MNT => inl 2%nat
              | OtherNamespace raw => inr raw
              end)
    (fun x => match x with
              | inl 0%nat => UTS
              | inl 1%nat => IPC
              | inl _ => MNT
              | inr raw => OtherNamespace raw
              end) _).
  by intros [ | | | raw].
Defined.

(** A Go [interface{}] value as far as this code looks at it: nil, a string, or
    something else that is only passed along. *)
Inductive any :=
| Nil
| Str (s : string)
| Obj (encoding : string).

Record GetNamespaceRequest := { gnT : NamespaceType; Arg : any }.

Record PutNamespaceRequest := { pnT : NamespaceType; ID : Z }.

Record PutNamespaceResponse := { perror : string }.

Record GetNamespaceResponse := { NSId : Z; Pid : Z; Fd : Z; Info : any }.

Record GetCheckpointRequest := { Ref : string }.

Record GetCheckpointResponse := { Path : string }.

Definition MethodGetNamespace : string := "Get".
Definition MethodPutNamespace : string := "Put".

(** ** The connection and its codec *)

Module Wire.

(** What the peer has written on the connection, one frame per object. *)
Inductive Frame :=
| FrameServiceType (t : ServiceType)
| FrameString (s : string)
| FrameGetNamespaceRequest (r : GetNamespaceRequest)
| FramePutNamespaceRequest (r : PutNamespaceRequest)
| FrameGetCheckpointRequest (r : GetCheckpointRequest)
| FrameGarbage.

(** What the daemon writes back. *)
Inductive Message :=
| MsgGetNamespaceResponse (r : GetNamespaceResponse)
| MsgPutNamespaceResponse (r : PutNamespaceResponse)
| MsgGetCheckpointResponse (r : GetCheckpointResponse).

(** A [net.Conn]: the frames still to be read, the messages written so far,
    whether the daemon has closed it, and whether the peer has gone away (a
    write then fails). *)
Record Conn := mkConn {
  inbox : list Frame;
  outbox : list Message;
  closed : bool;
  peer_gone : bool }.

Definition Close (c : Conn) : Conn :=
  {| inbox := inbox c; outbox := outbox c; closed := true; peer_gone := peer_gone c |}.

Definition io_EOF : error := errors_New "EOF".
Definition errClosed : error := errors_New "use of closed network connection".
Definition errCodec : error := errors_New "invalid frame".
Definition errBrokenPipe : error := errors_New "broken pipe".

(** Modelled from the spec: the package [utils] ([ReceiveData],
    [ReceiveObject], [ReceiveServiceType]) is not among the sources. Frames are
    length-prefixed, self-describing objects; reading one fails on a closed
    connection, at the end of the stream, and when the frame does not decode
    to the expected type (a codec violation; the frame is consumed). *)
Definition receive {A : Type} (decode : Frame -> option A) (c : Conn) : (error + A) * Conn :=
  if closed c then (inl errClosed, c)
  else match inbox c with
       | [] => (inl io_EOF, c)
       | f :: rest =>
           let c' := {| inbox := rest; outbox := outbox c;
                        closed := closed c; peer_gone := peer_gone c |} in
           match decode f with
           | Some a => (inr a, c')
           | None => (inl errCodec, c')
           end
       end.

(** Modelled from the spec: [utils.SendWithSizePrefix] and [utils.SendObject]
    are not among the sources. Writing fails on a closed connection and when
    the peer is gone; otherwise the message is appended to what was written. *)
Definition send (m : Message) (c : Conn) : option error * Conn :=
  if closed c then (Some errClosed, c)
  else if peer_gone c then (Some errBrokenPipe, c)
  else (None, {| inbox := inbox c; outbox := outbox c ++ [m];
                 closed := closed c; peer_gone := peer_gone c |}).

Definition asServiceType (f : Frame) : option ServiceType :=
  match f with FrameServiceType t => Some t | _ => None end.

Definition asString (f : Frame) : option string :=
  match f with FrameString s => Some s | _ => None end.

Definition asGetNamespaceRequest (f : Frame) : option GetNamespaceRequest :=
  match f with FrameGetNamespaceRequest r => Some r | _ => None end.

Definition asPutNamespaceRequest (f : Frame) : option PutNamespaceRequest :=
  match f with FramePutNamespaceRequest r => Some r | _ => None end.

Definition asGetCheckpointRequest (f : Frame) : option GetCheckpointRequest :=
  match f with FrameGetCheckpointRequest r => Some r | _ => None end.

Definition ReceiveServiceType : Conn -> (error + ServiceType) * Conn := receive asServiceType.

End Wire.

(** ** Calls to the external collaborators

    Every call that leaves the daemon is recorded, oldest first, with its
    outcome. Error-level log lines are recorded too; info-level ones are not. *)
Inductive Event :=
| EvMkdirAll (dir : string) (err : option error)
| EvPrepare (ref target : string) (err : option error)
| EvRemove (target : string) (err : option error)
| EvAdd (ref : string)
| EvCleanUp (t : NamespaceType) (err : option error)
| EvHttpShutdown (err : option error)
| EvLogError (msg : string)
| EvNewManager (t : NamespaceType) (err : option error)
| EvNewRootfsProvider (err : option error).

(** A checkpoint provider ([cp.Provider]). Its answers may depend on the
    whole history. *)
Record Provider := {
  Prepare : list Event -> string -> string -> option error;
  Remove : list Event -> string -> option error }.

(** ** The file system at start-up *)

(** What lies at a path: a readable file, a file that cannot be read, or an
    entry that cannot even be examined (a parent directory denies access). A
    path that is not in the map does not exist. *)
Inductive Node :=
| File (content : string)
| ReadFails (why : string)
| StatFails (why : string).

Definition errNotExist (p : string) : error :=
  {| Error := "open " +:+ p +:+ ": no such file or directory"; isNotExist := true |}.

(** [os.Stat], keeping only the error. *)
Definition os_Stat (fs : gmap string Node) (p : string) : option error :=
  match fs !! p with
  | None => Some (errNotExist p)
  | Some (StatFails why) => Some (errors_New why)
  | Some _ => None
  end.

(** [ioutil.ReadFile] *)
Definition ioutil_ReadFile (fs : gmap string Node) (p : string) : error + string :=
  match fs !! p with
  | None => inl (errNotExist p)
  | Some (File content) => inr content
  | Some (ReadFails why) => inl (errors_New why)
  | Some (StatFails why) => inl (errors_New why)
  end.

(** [strings.Join] *)
Fixpoint strings_Join (l : list string) (sep : string) : string :=
  match l with
  | [] => ""
  | [x] => x
  | x :: l' => x +:+ sep +:+ strings_Join l' sep
  end.

(** ** The checkpoint service (package [checkpoint]) *)

Module Checkpoint.

(** [json.RawMessage]: the undecoded bytes of the provider's own
    configuration; nil until the decoder stores something. (A JSON [null] for
    the field, which would unset the pointer, is left out.) *)
Definition RawMessage := option string.

(** The struct [config]. [Config] is the raw message that [New] makes the
    field point to. *)
Record config := { Type_ : string; Config : RawMessage }.

(** The struct [service]. The fields [provider] and [referenceMgr] are
    written once, by [initProvider], before the service is handed out; the
    record is built with them ([initProvider] returns the two values it
    stores). A nil [referenceMgr] is [None]. The router is the set of methods
    that have a handler; the mutex is the atomicity of [Get]. *)
Record service := {
  root : string;
  router : gset string;
  provider : Provider;
  referenceMgr : option Provider;
  targets : gset string }.

(** Modelled from the spec: the package [api/services/checkpoint] is not among
    the sources; the method is named [GetCheckpoint]. *)
Definition MethodGetCheckpoint : string := "GetCheckpoint".

Definition set_targets (s : service) (ts : gset string) : service :=
  {| root := root s; router := router s; provider := provider s;
     referenceMgr := referenceMgr s; targets := ts |}.

Definition set_router (s : service) (r : gset string) : service :=
  {| root := root s; router := r; provider := provider s;
     referenceMgr := referenceMgr s; targets := targets s |}.

Section Service.

(** The packages outside the repository that the service calls. *)
Variables CcfsConfig ContainerdConfig : Type.

(** [json.Unmarshal(content, &c)] for the struct [config]: the value of [c]
    afterwards and the error. The decoder may fill some fields and still
    report an error. *)
Variable json_Unmarshal_config : string -> config -> config * option error.

(** [json.Unmarshal] of the raw message into the provider's configuration. *)
Variable json_Unmarshal_ccfs : RawMessage -> error + CcfsConfig.
Variable json_Unmarshal_containerd : RawMessage -> error + ContainerdConfig.

(** [ccfs.NewProvider] and [containerd.NewProvider]. *)
Variable ccfs_NewProvider : CcfsConfig -> error + Provider.
Variable containerd_NewProvider : ContainerdConfig -> error + Provider.

(** [os.MkdirAll(dir, 0755)]. *)
Variable os_MkdirAll : list Event -> string -> option error.

(** [initProvider]: the values stored in [s.provider] and [s.referenceMgr],
    or the error. *)
Definition initProvider (c : config) : error + (Provider * option Provider) :=
  if String.eqb (Type_ c) "ccfs" then
    match json_Unmarshal_ccfs (Config c) with
    | inl err => inl err
    | inr cacheConfig =>
        match ccfs_NewProvider cacheConfig with
        | inl err => inl (errors_Wrap err "failed to create ccfs provider")
        | inr p => inr (p, Some p)
        end
    end
  else if String.eqb (Type_ c) "containerd" then
    match json_Unmarshal_containerd (Config c) with
    | inl err => inl err
    | inr cacheConfig =>
        match containerd_NewProvider cacheConfig with
        | inl err => inl (errors_Wrap err "failed to create containerd provider")
        | inr p => inr (p, None)
        end
    end
  else inl (errors_New "invalid provider type").

(** [New]. After [ReadFile] succeeded [err] is nil, and the statement
    [if json.Unmarshal(content, &c); err != nil] tests that same [err]: the
    result of [Unmarshal] is discarded. *)
Definition New (fs : gmap string Node) (root0 : string) : error + service :=
  let configName := "checkpoint_service.json" in
  match ioutil_ReadFile fs (GoPath.Join [root0; configName]) with
  | inl err => inl (errors_Wrap err "failed to read config file")
  | inr content =>
      let err : option error := None in
      let c := {| Type_ := ""; Config := None |} in
      let '(c, _) := json_Unmarshal_config content c in
      match err with
      | Some e => inl (errors_Wrap e "failed to unmarshal config file")
      | None =>
          match initProvider c with
          | inl err => inl (errors_Wrap err "failed to create provider")
          | inr (p, rm) =>
              inr {| root := GoPath.Join [root0; "checkpoint"];
                     router := ∅;
                     provider := p;
                     referenceMgr := rm;
                     targets := ∅ |}
          end
      end
  end.

(** [Init]: the directory of the targets is made, then the handler is
    registered. *)
Definition Init (s : service) (tr : list Event) : option error * service * list Event :=
  match os_MkdirAll tr (root s) with
  | Some err => (Some err, s, tr ++ [EvMkdirAll (root s) (Some err)])
  | None => (None, set_router s ({[MethodGetCheckpoint]} ∪ router s),
             tr ++ [EvMkdirAll (root s) None])
  end.

(** [Get]. The body after the test of [ref] runs under the service's mutex,
    so calls from different connections happen one after another. *)
Definition Get (ref : string) (s : service) (tr : list Event)
  : (string * option error) * service * list Event :=
  if String.eqb ref "" then (("", Some (errors_New "empty ref")), s, tr)
  else
    let target := GoPath.Join [root s; ref] in
    if decide (target ∈ targets s) then ((target, None), s, tr)
    else
      match os_MkdirAll tr target with
      | Some err =>
          (("", Some (errors_Wrap err ("failed to create dir " +:+ target))), s,
           tr ++ [EvMkdirAll target (Some err)])
      | None =>
          let tr := tr ++ [EvMkdirAll target None] in
          match Prepare (provider s) tr ref target with
          | Some err => (("", Some err), s, tr ++ [EvPrepare ref target (Some err)])
          | None =>
              ((target, None), set_targets s ({[target]} ∪ targets s),
               tr ++ [EvPrepare ref target None])
          end
      end.

(** [handleGetCheckpoint] *)
Definition handleGetCheckpoint (s : service) (tr : list Event) (c : Wire.Conn)
  : option error * service * list Event * Wire.Conn :=
  match Wire.receive Wire.asGetCheckpointRequest c with
  | (inl err, c) => (Some err, s, tr, c)
  | (inr r, c) =>
      let '((path, err), s, tr) := Get (Ref r) s tr in
      let tr := match err with
                | Some e => tr ++ [EvLogError (Error e)]
                | None => tr
                end in
      let tr := match referenceMgr s with
                | Some _ => tr ++ [EvAdd (Ref r)]
                | None => tr
                end in
      match Wire.send (Wire.MsgGetCheckpointResponse {| Path := path |}) c with
      | (Some err, c) => (Some err, s, tr, c)
      | (None, c) => (None, s, tr, c)
      end
  end.

(** Modelled from the spec: [services.Router] is not among the sources. Its
    [Handle] reads the method name and delegates to the handler registered for
    it; an unknown method is an error. The only handler ever registered is
    [handleGetCheckpoint]. *)
Definition router_Handle (s : service) (tr : list Event) (c : Wire.Conn)
  : option error * service * list Event * Wire.Conn :=
  match Wire.receive Wire.asString c with
  | (inl err, c) => (Some err, s, tr, c)
  | (inr method, c) =>
      if decide (method ∈ router s) then handleGetCheckpoint s tr c
      else (Some (errors_New "no handler for the method"), s, tr, c)
  end.

(** [Handle] *)
Definition Handle (s : service) (tr : list Event) (c : Wire.Conn)
  : service * list Event * Wire.Conn :=
  match router_Handle s tr c with
  | (Some err, s, tr, c) => (s, tr ++ [EvLogError (Error err)], Wire.Close c)
  | (None, s, tr, c) => (s, tr, c)
  end.

(** The loop of [Stop] over the targets, in the order [ts] in which the
    [range] statement yields them. *)
Fixpoint Stop_loop (p : Provider) (ts : list string) (failed : list string)
    (tr : list Event) : list string * list Event :=
  match ts with
  | [] => (failed, tr)
  | t :: ts =>
      match Remove p tr t with
      | Some err =>
          Stop_loop p ts
            (failed ++ ["remove " +:+ t +:+ " with error " +:+ Error err])
            (tr ++ [EvRemove t (Some err)])
      | None => Stop_loop p ts failed (tr ++ [EvRemove t None])
      end
  end.

(** [Stop]. Go leaves the order of a [range] over a map unspecified: [order]
    is the order chosen, some enumeration of [targets s]. *)
Definition Stop (order : list string) (s : service) (tr : list Event)
  : option error * list Event :=
  let '(failed, tr) := Stop_loop (provider s) order [] tr in
  if negb (Nat.eqb (length failed) 0)
  then (Some (errors_New (strings_Join failed ";")), tr)
  else (None, tr).

(** A sequence of [Get] calls, as the mutex orders them; the results are
    listed with their refs. *)
Fixpoint Gets (refs : list string) (s : service) (tr : list Event)
  : list (string * (string * option error)) * service * list Event :=
  match refs with
  | [] => ([], s, tr)
  | ref :: refs =>
      let '(res, s, tr) := Get ref s tr in
      let '(out, s, tr) := Gets refs s tr in
      ((ref, res) :: out, s, tr)
  end.

End Service.

End Checkpoint.

(** ** The namespace service (package [namespace]) *)

Module Namespace.

(** The interface [ns.Manager], over the type [M] of the managers' states. A
    manager is used through a pointer: a call changes its state in place. [Get]
    returns [(id, fd, info, err)]. *)
Class Manager (M : Type) := {
  mgr_Get : any -> M -> (Z * Z * any * option error) * M;
  mgr_Put : Z -> M -> option error * M;
  mgr_CleanUp : M -> option error * M }.

(** The struct [serviceConfig] *)
Record serviceConfig := {
  Capacity : gmap NamespaceType Z;
  ExtraArgs : gmap NamespaceType (list string) }.

(** The struct [namespaceService] *)
Record namespaceService (M : Type) := {
  config : serviceConfig;
  managers : gmap NamespaceType M;
  root : string }.

Arguments config {M} _.
Arguments managers {M} _.
Arguments root {M} _.

Definition set_managers {M : Type} (svr : namespaceService M)
    (ms : gmap NamespaceType M) : namespaceService M :=
  {| config := config svr; managers := ms; root := root svr |}.

(** [defaultConfig] *)
Definition defaultConfig : serviceConfig :=
  {| Capacity := <[MNT := 5]> (<[UTS := 5]> (<[IPC := 5]> ∅));
     ExtraArgs := ∅ |}.

(** The loop of [mergeConfig] over the namespace types still to visit. The
    destination is changed in place: it is returned also with the error. *)
Fixpoint mergeConfig_loop (ts : list NamespaceType) (to from : serviceConfig)
  : option error * serviceConfig :=
  match ts with
  | [] => (None, to)
  | t :: ts =>
      let capacity :=
        match Capacity from !! t with
        | Some v =>
            if (v <? 0)%Z then inl (errors_New "negative namespace capacity")
            else inr {| Capacity := <[t := v]> (Capacity to); ExtraArgs := ExtraArgs to |}
        | None => inr to
        end in
      match capacity with
      | inl err => (Some err, to)
      | inr to =>
          let to :=
            match ExtraArgs from !! t with
            | Some v => {| Capacity := Capacity to; ExtraArgs := <[t := v]> (ExtraArgs to) |}
            | None => to
            end in
          mergeConfig_loop ts to from
      end
  end.

(** [mergeConfig] *)
Definition mergeConfig (to from : serviceConfig) : option error * serviceConfig :=
  mergeConfig_loop [IPC; MNT; UTS] to from.

(** The zero value of [GetNamespaceResponse] and the assignments to its
    fields. *)
Definition zeroGetNamespaceResponse : GetNamespaceResponse :=
  {| NSId := 0; Pid := 0; Fd := 0; Info := Nil |}.

Definition set_Fd (rsp : GetNamespaceResponse) (v : Z) : GetNamespaceResponse :=
  {| NSId := NSId rsp; Pid := Pid rsp; Fd := v; Info := Info rsp |}.

Definition set_NSId (rsp : GetNamespaceResponse) (v : Z) : GetNamespaceResponse :=
  {| NSId := v; Pid := Pid rsp; Fd := Fd rsp; Info := Info rsp |}.

Definition set_Pid (rsp : GetNamespaceResponse) (v : Z) : GetNamespaceResponse :=
  {| NSId := NSId rsp; Pid := v; Fd := Fd rsp; Info := Info rsp |}.

Definition set_Info (rsp : GetNamespaceResponse) (v : any) : GetNamespaceResponse :=
  {| NSId := NSId rsp; Pid := Pid rsp; Fd := Fd rsp; Info := v |}.

(** Modelled from the spec: [NewServer] hands the checkpoint service to the
    namespace service as the supplier of the mount manager (the namespace
    package of the sources is of a version that does not take it yet), and
    the mount manager asks the supplier for a checkpoint, [Supplier.Get(ref)],
    when it fills a slot of its pool. What the constructor of a manager does
    is a tree: it returns the manager or an error, or it asks the supplier and
    goes on from the answer and from what has happened by then. *)
Inductive Filling (M : Type) :=
| Built (res : error + M)
| AskSupplier (ref : string) (next : list Event -> string * option error -> Filling M).

Arguments Built {M} _.
Arguments AskSupplier {M} _ _.

(** The error of a result, for the trace. *)
Definition errOf {A : Type} (res : error + A) : option error :=
  match res with
  | inl err => Some err
  | inr _ => None
  end.

Section Service.

Context {M : Type} `{Manager M}.

(** [json.Unmarshal(content, &c)] for the struct [serviceConfig]. *)
Variable json_Unmarshal_serviceConfig : string -> serviceConfig -> serviceConfig * option error.

(** [os.Getpid()] *)
Variable os_Getpid : Z.

(** [New] *)
Definition New (fs : gmap string Node) (root0 : string) : error + namespaceService M :=
  let configName := "namespace_service.json" in
  let configPath := GoPath.Join [root0; configName] in
  let config := defaultConfig in
  match os_Stat fs configPath with
  | None =>
      match ioutil_ReadFile fs configPath with
      | inl err => inl err
      | inr content =>
          let c := {| Capacity := ∅; ExtraArgs := ∅ |} in
          match json_Unmarshal_serviceConfig content c with
          | (_, Some err) => inl err
          | (c, None) =>
              match mergeConfig config c with
              | (Some err, _) => inl err
              | (None, config) =>
                  inr {| config := config; managers := ∅; root := root0 |}
              end
          end
      end
  | Some err =>
      if negb (os_IsNotExist err) then inl err
      else inr {| config := config; managers := ∅; root := root0 |}
  end.

(** The response that [handleGetNamespace] builds, and the service after the
    manager was called. *)
Definition getNamespaceResponse (svr : namespaceService M) (r : GetNamespaceRequest)
  : GetNamespaceResponse * namespaceService M :=
  let rsp := zeroGetNamespaceResponse in
  match managers svr !! gnT r with
  | None =>
      let rsp := set_Fd rsp (-1) in
      let rsp := set_Info rsp (Str "No such namespace") in
      (rsp, svr)
  | Some mgr =>
      let '((id, fd, info, err), mgr) := mgr_Get (Arg r) mgr in
      let svr := set_managers svr (<[gnT r := mgr]> (managers svr)) in
      match err with
      | Some err =>
          let rsp := set_Fd rsp (-1) in
          let rsp := set_Info rsp (Str (Error err)) in
          (rsp, svr)
      | None =>
          let rsp := set_Fd rsp fd in
          let rsp := set_NSId rsp id in
          let rsp := set_Info rsp info in
          let rsp := set_Pid rsp os_Getpid in
          (rsp, svr)
      end
  end.

(** [handleGetNamespace] *)
Definition handleGetNamespace (svr : namespaceService M) (conn : Wire.Conn)
    (r : GetNamespaceRequest) : option error * namespaceService M * Wire.Conn :=
  let '(rsp, svr) := getNamespaceResponse svr r in
  match Wire.send (Wire.MsgGetNamespaceResponse rsp) conn with
  | (Some err, conn) => (Some err, svr, conn)
  | (None, conn) => (None, svr, conn)
  end.

(** The response that [handlePutNamespace] builds. *)
Definition putNamespaceResponse (svr : namespaceService M) (r : PutNamespaceRequest)
  : PutNamespaceResponse * namespaceService M :=
  match managers svr !! pnT r with
  | None => ({| perror := "No such namespace" |}, svr)
  | Some mgr =>
      let '(err, mgr) := mgr_Put (ID r) mgr in
      let svr := set_managers svr (<[pnT r := mgr]> (managers svr)) in
      match err with
      | Some err => ({| perror := Error err |}, svr)
      | None => ({| perror := "" |}, svr)
      end
  end.

(** [handlePutNamespace] *)
Definition handlePutNamespace (svr : namespaceService M) (conn : Wire.Conn)
    (r : PutNamespaceRequest) : option error * namespaceService M * Wire.Conn :=
  let '(rsp, svr) := putNamespaceResponse svr r in
  match Wire.send (Wire.MsgPutNamespaceResponse rsp) conn with
  | (Some err, conn) => (Some err, svr, conn)
  | (None, conn) => (None, svr, conn)
  end.

(** [handleRequest] *)
Definition handleRequest (svr : namespaceService M) (method : string) (conn : Wire.Conn)
  : option error * namespaceService M * Wire.Conn :=
  if String.eqb method MethodGetNamespace then
    match Wire.receive Wire.asGetNamespaceRequest conn with
    | (inl err, conn) => (Some err, svr, conn)
    | (inr r, conn) => handleGetNamespace svr conn r
    end
  else if String.eqb method MethodPutNamespace then
    match Wire.receive Wire.asPutNamespaceRequest conn with
    | (inl err, conn) => (Some err, svr, conn)
    | (inr r, conn) => handlePutNamespace svr conn r
    end
  else (Some (errors_New "Unknown method type"), svr, conn).

(** [Handle] *)
Definition Handle (svr : namespaceService M) (tr : list Event) (conn : Wire.Conn)
  : namespaceService M * list Event * Wire.Conn :=
  match Wire.receive Wire.asString conn with
  | (inl err, conn) => (svr, tr ++ [EvLogError (Error err)], Wire.Close conn)
  | (inr methodType, conn) =>
      match handleRequest svr methodType conn with
      | (Some err, svr, conn) => (svr, tr ++ [EvLogError (Error err)], Wire.Close conn)
      | (None, svr, conn) => (svr, tr, conn)
      end
  end.

(** The loop of [Stop] over the managers, in the order in which the [range]
    statement yields their keys. *)
Fixpoint Stop_loop (order : list NamespaceType) (ms : gmap NamespaceType M)
    (tr : list Event) : gmap NamespaceType M * list Event :=
  match order with
  | [] => (ms, tr)
  | t :: order =>
      match ms !! t with
      | None => Stop_loop order ms tr
      | Some mgr =>
          let '(err, mgr) := mgr_CleanUp mgr in
          let tr := tr ++ [EvCleanUp t err] in
          let tr := match err with
                    | Some e => tr ++ [EvLogError (Error e)]
                    | None => tr
                    end in
          Stop_loop order (<[t := mgr]> ms) tr
      end
  end.

(** [Stop]: always returns nil. *)
Definition Stop (order : list NamespaceType) (svr : namespaceService M) (tr : list Event)
  : option error * namespaceService M * list Event :=
  let '(ms, tr) := Stop_loop order (managers svr) tr in
  (None, set_managers svr ms, tr).

(** The constructors of the managers ([ns.NewUTSManager], [ns.NewIPCManager],
    [ns.NewMountManager]) and of the rootfs provider that the mount manager
    takes ([containerd.NewProvider] of the package rootfs). They are calls that
    leave the daemon: their answers may depend on everything that happened
    before, and each call is recorded with its outcome. What a constructor
    does on its own (the namespaces that it unshares, the directories and the
    mounts of the mount manager) is outside the sources and is not recorded
    apart from that. *)
Variable RootfsProvider : Type.
Variable ns_NewUTSManager : list Event -> string -> Z -> error + M.
Variable ns_NewIPCManager : list Event -> string -> Z -> error + M.
Variable rootfs_NewProvider : list Event -> error + RootfsProvider.
Variable ns_NewMountManager :
  list Event -> string -> Z -> list string -> RootfsProvider -> Filling M.

(** The supplier: an object that is shared with the server, and its [Get]. *)
Variable Supplier : Type.
Variable supplier_Get :
  string -> Supplier -> list Event -> (string * option error) * Supplier * list Event.

(** The constructor of a manager at work: every question is put to the
    supplier as it is at that moment. *)
Fixpoint fill (f : Filling M) (sup : Supplier) (tr : list Event)
  : (error + M) * Supplier * list Event :=
  match f with
  | Built res => (res, sup, tr)
  | AskSupplier ref next =>
      let '(res, sup, tr) := supplier_Get ref sup tr in
      fill (next tr res) sup tr
  end.

(** [Init]. A key that the configuration lacks reads as the zero value: the
    capacity 0, no extra arguments. When a constructor fails, [Init] returns
    its error at once; the service, in which the nil manager was stored, is
    then dropped by [NewServer], and only the error is returned here. *)
Definition Init (svr : namespaceService M) (sup : Supplier) (tr : list Event)
  : (error + namespaceService M) * Supplier * list Event :=
  let res := ns_NewUTSManager tr (root svr) (default 0 (Capacity (config svr) !! UTS)) in
  let tr := tr ++ [EvNewManager UTS (errOf res)] in
  match res with
  | inl err => (inl err, sup, tr)
  | inr mgr =>
      let svr := set_managers svr (<[UTS := mgr]> (managers svr)) in
      let res := ns_NewIPCManager tr (root svr) (default 0 (Capacity (config svr) !! IPC)) in
      let tr := tr ++ [EvNewManager IPC (errOf res)] in
      match res with
      | inl err => (inl err, sup, tr)
      | inr mgr =>
          let svr := set_managers svr (<[IPC := mgr]> (managers svr)) in
          let res := rootfs_NewProvider tr in
          let tr := tr ++ [EvNewRootfsProvider (errOf res)] in
          match res with
          | inl err => (inl err, sup, tr)
          | inr p =>
              let '(res, sup, tr) :=
                fill (ns_NewMountManager tr (root svr)
                        (default 0 (Capacity (config svr) !! MNT))
                        (default [] (ExtraArgs (config svr) !! MNT)) p) sup tr in
              let tr := tr ++ [EvNewManager MNT (errOf res)] in
              match res with
              | inl err => (inl err, sup, tr)
              | inr mgr => (inr (set_managers svr (<[MNT := mgr]> (managers svr))), sup, tr)
              end
          end
      end
  end.

End Service.

End Namespace.

(** ** The connection server (package [cermanager]) *)

Module Cermanager.

(** A value of the interface [services.Service]: one of the two services. *)
Inductive Service (M : Type) :=
| NamespaceSvc (svr : Namespace.namespaceService M)
| CheckpointSvc (s : Checkpoint.service).

Arguments NamespaceSvc {M} _.
Arguments CheckpointSvc {M} _.

(** The struct [Server]. Of the HTTP side channel only the outcome of its
    [Shutdown] is kept; the listener is the list of what [Accept] returns, and
    the wait group is the completion of the [serve] calls. *)
Record Server (M : Type) := {
  services : gmap ServiceType (Service M);
  httpServer : option (list Event -> option error) }.

Arguments services {M} _.
Arguments httpServer {M} _.

Definition set_services {M : Type} (s : Server M)
    (svcs : gmap ServiceType (Service M)) : Server M :=
  {| services := svcs; httpServer := httpServer s |}.

(** The server that [NewServer] builds from the two services. *)
Definition newServer {M : Type} (namespaceSvr : Namespace.namespaceService M)
    (checkpointSvr : Checkpoint.service) (http : option (list Event -> option error))
  : Server M :=
  {| services := <[NamespaceService := NamespaceSvc namespaceSvr]>
                   (<[CheckpointService := CheckpointSvc checkpointSvr]> ∅);
     httpServer := http |}.

(** *** The goroutines of a started server

    [Start] runs the accept loop in a goroutine of its own, and the accept
    loop starts one more goroutine, running [serve], for every connection it
    accepts. They all work on the same services, write to the same log and
    look at the same context. *)

(** Where a goroutine that runs [serve] stands: before [ReceiveServiceType],
    at the [select] that ends a turn of the loop, or returned. *)
Inductive ServeStage := Receiving | Selecting | Returned.

Record Goroutine := { g_conn : Wire.Conn; g_stage : ServeStage }.

(** Where the accept loop stands: before [Accept], at its [select], or
    returned. *)
Inductive AcceptStage := Accepting | AcceptSelecting | AcceptReturned.

(** A started server: the services and the trace, which the goroutines share;
    whether the context is done; what was sent on [errorC]; what the calls of
    [Accept] still to come return; where the accept loop stands; and the
    goroutines that the wait group counts, in the order in which they were
    started. *)
Record Started (M : Type) := {
  st_server : Server M;
  st_trace : list Event;
  st_done : bool;
  st_errorC : list error;
  st_listener : list (error + Wire.Conn);
  st_accept : AcceptStage;
  st_group : list Goroutine }.

Arguments st_server {M} _.
Arguments st_trace {M} _.
Arguments st_done {M} _.
Arguments st_errorC {M} _.
Arguments st_listener {M} _.
Arguments st_accept {M} _.
Arguments st_group {M} _.

(** The steps: the accept loop calls [Accept] and starts a goroutine, or
    reaches its [select]; the [i]-th goroutine makes one turn of the loop of
    [serve], or reaches its [select]. *)
Inductive Step :=
| DoAccept
| AcceptSelect
| ServeTurn (i : nat)
| ServeSelect (i : nat).

Section Server.

Context {M : Type} `{Namespace.Manager M}.

Variable os_Getpid : Z.
Variable os_MkdirAll : list Event -> string -> option error.

(** [cerm.Type2Services], the names used in log lines. *)
Variable Type2Services : ServiceType -> string.

(** [fmt.Sprintf("%v", t)] for a service type: what it prints depends on the
    declaration of [cerm.ServiceType], which is outside the sources. *)
Variable Sprint_ServiceType : ServiceType -> string.

(** [svr.Handle(ctx, conn)] on a value of the interface. The services are
    pointers: what the call changes stays changed in the map. *)
Definition Service_Handle (svc : Service M) (tr : list Event) (conn : Wire.Conn)
  : Service M * list Event * Wire.Conn :=
  match svc with
  | NamespaceSvc svr =>
      let '(svr, tr, conn) := Namespace.Handle os_Getpid svr tr conn in
      (NamespaceSvc svr, tr, conn)
  | CheckpointSvc s =>
      let '(s, tr, conn) := Checkpoint.Handle os_MkdirAll s tr conn in
      (CheckpointSvc s, tr, conn)
  end.

Definition is_EOF (err : error) : bool := String.eqb (Error err) (Error Wire.io_EOF).

(** One turn of the loop of [serve], up to its [select]: the first component
    tells whether [serve] returned in this turn. *)
Definition serve_turn (s : Server M) (tr : list Event) (conn : Wire.Conn)
  : bool * Server M * list Event * Wire.Conn :=
  match Wire.ReceiveServiceType conn with
  | (inl err, conn) =>
      let tr := if negb (is_EOF err) then tr ++ [EvLogError "invalid request"] else tr in
      (true, s, tr, Wire.Close conn)
  | (inr svrType, conn) =>
      match services s !! svrType with
      | None =>
          (false, s,
           tr ++ [EvLogError ("invalid service type " +:+ Sprint_ServiceType svrType)],
           Wire.Close conn)
      | Some svr =>
          let '(svr, tr, conn) := Service_Handle svr tr conn in
          (false, set_services s (<[svrType := svr]> (services s)), tr, conn)
      end
  end.

(** [serve]: the loop runs until the connection fails or the context is
    done. [ctx n] tells whether [ctx.Done()] is closed at the [n]-th poll of
    this call; [fuel] bounds the number of iterations. *)
Fixpoint serve (fuel : nat) (ctx : nat -> bool) (n : nat) (s : Server M)
    (tr : list Event) (conn : Wire.Conn) : option (Server M * list Event * Wire.Conn) :=
  match fuel with
  | O => None
  | S fuel =>
      match serve_turn s tr conn with
      | (true, s, tr, conn) => Some (s, tr, conn)
      | (false, s, tr, conn) =>
          if ctx n then Some (s, tr, conn)
          else serve fuel ctx (S n) s tr conn
      end
  end.

(** The accept loop of [Start] in the schedule in which every [serve] runs
    to its end before the next [Accept]: connections are served one after
    another. It is one of the runs of the started server, whose goroutines
    and their interleavings are given by [step] and [run] below. [accepts] is
    what the successive calls of [Accept] return; when it is used up,
    [Accept] blocks. [k] counts the connections accepted so far,
    [ctx_accept k] is the poll of the context after the [k]-th one, and
    [ctx_conn k] the polls made while serving it. The result lists what was
    sent on [errorC] and the connections as [serve] left them. *)
Fixpoint Start_loop (fuel : nat) (ctx_accept : nat -> bool) (ctx_conn : nat -> nat -> bool)
    (k : nat) (accepts : list (error + Wire.Conn)) (s : Server M) (tr : list Event)
    (errorC : list error) (served : list Wire.Conn)
  : option (Server M * list Event * list error * list Wire.Conn) :=
  match accepts with
  | [] => Some (s, tr, errorC, served)
  | inl err :: _ => Some (s, tr, errorC ++ [err], served)
  | inr conn :: accepts =>
      match serve fuel (ctx_conn k) 0 s tr conn with
      | None => None
      | Some (s, tr, conn) =>
          if ctx_accept k then Some (s, tr, errorC, served ++ [conn])
          else Start_loop fuel ctx_accept ctx_conn (S k) accepts s tr errorC (served ++ [conn])
      end
  end.

(** [ss.Stop()] on a value of the interface, with the orders in which the two
    services range over their maps. *)
Definition Service_Stop (nsOrder : list NamespaceType) (targetOrder : list string)
    (svc : Service M) (tr : list Event) : option error * Service M * list Event :=
  match svc with
  | NamespaceSvc svr =>
      let '(err, svr, tr) := Namespace.Stop nsOrder svr tr in
      (err, NamespaceSvc svr, tr)
  | CheckpointSvc s =>
      let '(err, tr) := Checkpoint.Stop targetOrder s tr in
      (err, CheckpointSvc s, tr)
  end.

(** The loop of [Shutdown] over the services, in the order in which the
    [range] statement yields their keys. *)
Fixpoint Shutdown_loop (order : list ServiceType) (nsOrder : list NamespaceType)
    (targetOrder : list string) (svcs : gmap ServiceType (Service M)) (tr : list Event)
  : gmap ServiceType (Service M) * list Event :=
  match order with
  | [] => (svcs, tr)
  | t :: order =>
      match svcs !! t with
      | None => Shutdown_loop order nsOrder targetOrder svcs tr
      | Some ss =>
          let '(err, ss, tr) := Service_Stop nsOrder targetOrder ss tr in
          let tr := match err with
                    | Some e =>
                        tr ++ [EvLogError (Type2Services t +:+ " service shutdown with error "
                                           +:+ Error e)]
                    | None => tr
                    end in
          Shutdown_loop order nsOrder targetOrder (<[t := ss]> svcs) tr
      end
  end.

(** [Shutdown], once every [serve] has returned. *)
Definition Shutdown (order : list ServiceType) (nsOrder : list NamespaceType)
    (targetOrder : list string) (s : Server M) (tr : list Event) : Server M * list Event :=
  let '(svcs, tr) := Shutdown_loop order nsOrder targetOrder (services s) tr in
  let tr :=
    match httpServer s with
    | Some shutdown =>
        match shutdown tr with
        | Some err =>
            tr ++ [EvHttpShutdown (Some err)]
               ++ [EvLogError "http server shutdown with error"]
        | None => tr ++ [EvHttpShutdown None]
        end
    | None => tr
    end in
  (set_services s svcs, tr).

(** The server right after [s.Start(ctx)]: the accept loop is about to call
    [Accept], and [accepts] is what the calls of [Accept] will return, in
    order. (The goroutine that [Start] runs for the HTTP server, which is
    outside the sources, is left out: it only sends on [errorC].) *)
Definition Start (s : Server M) (tr : list Event) (accepts : list (error + Wire.Conn))
  : Started M :=
  {| st_server := s; st_trace := tr; st_done := false; st_errorC := [];
     st_listener := accepts; st_accept := Accepting; st_group := [] |}.

Definition set_accept (d : Started M) (errorC : list error)
    (listener : list (error + Wire.Conn)) (a : AcceptStage) (group : list Goroutine)
  : Started M :=
  {| st_server := st_server d; st_trace := st_trace d; st_done := st_done d;
     st_errorC := errorC; st_listener := listener; st_accept := a; st_group := group |}.

Definition set_goroutine (d : Started M) (s : Server M) (tr : list Event) (i : nat)
    (g : Goroutine) : Started M :=
  {| st_server := s; st_trace := tr; st_done := st_done d; st_errorC := st_errorC d;
     st_listener := st_listener d; st_accept := st_accept d;
     st_group := <[i := g]> (st_group d) |}.

(** One step of one goroutine; [None] when the goroutine cannot take it.

    - [Accept] blocks while the listener has nothing; on an error the accept
      loop sends it on [errorC] and returns; on a connection it starts the
      goroutine that serves it ([s.group.Add(1); go s.serve(...)]).
    - At its [select] the accept loop returns if the context is done.
    - A turn of [serve] is one step. Of what a turn does, everything that
      reads the connection comes first and concerns no other goroutine; the
      call into the service ([Get] under the mutex of the checkpoint service,
      or one call of a namespace manager) comes after that. A peer that is
      idle, or that has written a part of a request only, is a goroutine whose
      turn is not taken yet: the inbox of its connection lists what the peer
      will have written when the turn is taken. The log lines and the [Add]
      of a turn are recorded right after the call of that turn.
    - At its [select] a [serve] returns if the context is done, leaving the
      connection open. *)
Definition step (l : Step) (d : Started M) : option (Started M) :=
  match l with
  | DoAccept =>
      match st_accept d, st_listener d with
      | Accepting, inl err :: listener =>
          Some (set_accept d (st_errorC d ++ [err]) listener AcceptReturned (st_group d))
      | Accepting, inr conn :: listener =>
          Some (set_accept d (st_errorC d) listener AcceptSelecting
                  (st_group d ++ [{| g_conn := conn; g_stage := Receiving |}]))
      | _, _ => None
      end
  | AcceptSelect =>
      match st_accept d with
      | AcceptSelecting =>
          Some (set_accept d (st_errorC d) (st_listener d)
                  (if st_done d then AcceptReturned else Accepting) (st_group d))
      | _ => None
      end
  | ServeTurn i =>
      match st_group d !! i with
      | Some {| g_conn := conn; g_stage := Receiving |} =>
          let '(returned, s, tr, conn) := serve_turn (st_server d) (st_trace d) conn in
          Some (set_goroutine d s tr i
                  {| g_conn := conn; g_stage := if returned then Returned else Selecting |})
      | _ => None
      end
  | ServeSelect i =>
      match st_group d !! i with
      | Some {| g_conn := conn; g_stage := Selecting |} =>
          Some (set_goroutine d (st_server d) (st_trace d) i
                  {| g_conn := conn; g_stage := if st_done d then Returned else Receiving |})
      | _ => None
      end
  end.

(** A run: the steps are taken one after another, in any order that the
    scheduler and the peers bring about. *)
Fixpoint run (ls : list Step) (d : Started M) : option (Started M) :=
  match ls with
  | [] => Some d
  | l :: ls =>
      match step l d with
      | None => None
      | Some d => run ls d
      end
  end.

(** [cancel()]: the context is done from now on. *)
Definition cancel (d : Started M) : Started M :=
  {| st_server := st_server d; st_trace := st_trace d; st_done := true;
     st_errorC := st_errorC d; st_listener := st_listener d; st_accept := st_accept d;
     st_group := st_group d |}.

(** [s.group.Wait()] returns when every goroutine that was started has
    returned. *)
Definition group_Wait (d : Started M) : bool :=
  forallb (fun g => match g_stage g with Returned => true | _ => false end) (st_group d).

End Server.

Definition DefaultRootPath : string := "/var/lib/cermanager".
Definition DefaultSocketName : string := "daemon.socket".

Section NewServer.

Context {M : Type} `{Namespace.Manager M}.

(** What [NewServer] calls outside the repository: the file system calls,
    the two calls that bind the socket, the decoders and constructors that the
    two services need, and the constructor of the HTTP server, of which only
    the [Shutdown] is kept. *)
Variable os_MkdirAll : list Event -> string -> option error.
Variable net_ResolveUnixAddr : string -> option error.
Variable net_ListenUnix : string -> option error.
Variables CcfsConfig ContainerdConfig RootfsProvider : Type.
Variable json_Unmarshal_config : string -> Checkpoint.config -> Checkpoint.config * option error.
Variable json_Unmarshal_ccfs : Checkpoint.RawMessage -> error + CcfsConfig.
Variable json_Unmarshal_containerd : Checkpoint.RawMessage -> error + ContainerdConfig.
Variable ccfs_NewProvider : CcfsConfig -> error + Provider.
Variable containerd_NewProvider : ContainerdConfig -> error + Provider.
Variable json_Unmarshal_serviceConfig :
  string -> Namespace.serviceConfig -> Namespace.serviceConfig * option error.
Variable ns_NewUTSManager : list Event -> string -> Z -> error + M.
Variable ns_NewIPCManager : list Event -> string -> Z -> error + M.
Variable rootfs_NewProvider : list Event -> error + RootfsProvider.
Variable ns_NewMountManager :
  list Event -> string -> Z -> list string -> RootfsProvider -> Namespace.Filling M.
Variable http_NewServer : string -> Z -> error + (list Event -> option error).

(** The supplier that [NewServer] gives to [namespace.New],
    [checkpointSvr.(types.Supplier)]: it is the checkpoint service of the
    server's map, the same object, so that [Get] is called on it as it is in
    the map at that moment and changes it there. *)
Definition supplier_Get (ref : string) (svcs : gmap ServiceType (Service M))
    (tr : list Event) : (string * option error) * gmap ServiceType (Service M) * list Event :=
  match svcs !! CheckpointService with
  | Some (CheckpointSvc cs) =>
      let '(res, cs, tr) := Checkpoint.Get os_MkdirAll ref cs tr in
      (res, <[CheckpointService := CheckpointSvc cs]> svcs, tr)
  | _ => (("", Some (errors_New "no supplier")), svcs, tr)
  end.

(** [service.Init()] on the value of the interface that the map has at the
    key [t]; the map is returned as the call leaves it. *)
Definition Service_Init (t : ServiceType) (svc : Service M)
    (svcs : gmap ServiceType (Service M)) (tr : list Event)
  : option error * gmap ServiceType (Service M) * list Event :=
  match svc with
  | NamespaceSvc svr =>
      let '(res, svcs, tr) :=
        Namespace.Init RootfsProvider ns_NewUTSManager ns_NewIPCManager
          rootfs_NewProvider ns_NewMountManager
          (gmap ServiceType (Service M)) supplier_Get svr svcs tr in
      match res with
      | inl err => (Some err, svcs, tr)
      | inr svr => (None, <[t := NamespaceSvc svr]> svcs, tr)
      end
  | CheckpointSvc s =>
      let '(err, s, tr) := Checkpoint.Init os_MkdirAll s tr in
      (err, <[t := CheckpointSvc s]> svcs, tr)
  end.

(** The loop of [NewServer] that initialises the services, in the order in
    which the [range] statement yields their keys; it stops at the first
    error. *)
Fixpoint Init_loop (order : list ServiceType) (svcs : gmap ServiceType (Service M))
    (tr : list Event) : option error * gmap ServiceType (Service M) * list Event :=
  match order with
  | [] => (None, svcs, tr)
  | t :: order =>
      match svcs !! t with
      | None => Init_loop order svcs tr
      | Some service =>
          match Service_Init t service svcs tr with
          | (Some err, svcs, tr) => (Some err, svcs, tr)
          | (None, svcs, tr) => Init_loop order svcs tr
          end
      end
  end.

(** [NewServer]. [os.Remove] takes a stale socket file away, and its result is
    ignored. The second argument that this function gives to [namespace.New],
    the checkpoint service as a supplier, is not kept by the [namespace.New]
    of the sources: it is the [supplier_Get] above that the managers built by
    [Init] reach. *)
Definition NewServer (order : list ServiceType) (fs : gmap string Node) (httpPort : Z)
    (tr : list Event) : (error + Server M) * list Event :=
  match os_MkdirAll tr DefaultRootPath with
  | Some err => (inl err, tr ++ [EvMkdirAll DefaultRootPath (Some err)])
  | None =>
      let tr := tr ++ [EvMkdirAll DefaultRootPath None] in
      let socketPath := GoPath.Join [DefaultRootPath; DefaultSocketName] in
      let fs := delete socketPath fs in
      match net_ResolveUnixAddr socketPath with
      | Some err => (inl err, tr)
      | None =>
          match net_ListenUnix socketPath with
          | Some err => (inl err, tr)
          | None =>
              match Checkpoint.New CcfsConfig ContainerdConfig json_Unmarshal_config
                      json_Unmarshal_ccfs json_Unmarshal_containerd ccfs_NewProvider
                      containerd_NewProvider fs DefaultRootPath with
              | inl err => (inl (errors_Wrap err "failed to create checkpoint service"), tr)
              | inr checkpointSvr =>
                  match Namespace.New json_Unmarshal_serviceConfig fs DefaultRootPath with
                  | inl err =>
                      (inl (errors_Wrap err "failed to create namespace service"), tr)
                  | inr namespaceSvr =>
                      let http :=
                        if (httpPort =? 0)%Z then inr None
                        else match http_NewServer DefaultRootPath httpPort with
                             | inl err =>
                                 inl (errors_Wrap err "failed to create http server")
                             | inr server => inr (Some server)
                             end in
                      match http with
                      | inl err => (inl err, tr)
                      | inr httpServer =>
                          let svr := newServer namespaceSvr checkpointSvr httpServer in
                          match Init_loop order (services svr) tr with
                          | (Some err, _, tr) => (inl err, tr)
                          | (None, svcs, tr) => (inr (set_services svr svcs), tr)
                          end
                      end
                  end
              end
          end
      end
  end.

End NewServer.

End Cermanager.

(** ** The generic pool behind the namespace managers *)

Module GenericPool.

Record Resource := { id : Z; handle : Z; info : any }.

(** Modelled from the spec: the package [namespace/generic] (the pool that
    [generic.NewManager] builds) is not among the sources. A pool has a fixed
    capacity, the resources ever created ([all]) and the stack of the idle
    ones ([available]); those in use are the others. [destroy] is the hook
    called on every resource at clean-up. *)
Record Pool := {
  capacity : Z;
  all : list Resource;
  available : list Resource;
  destroy : Resource -> option error }.

Definition set_available (p : Pool) (av : list Resource) : Pool :=
  {| capacity := capacity p; all := all p; available := av; destroy := destroy p |}.

Definition has_id (i : Z) (r : Resource) : bool := Z.eqb (id r) i.

(** Modelled from the spec: [Get] pops an idle resource, and fails with
    [Exhausted] when there is none. *)
Definition Get (arg : any) (p : Pool) : (Z * Z * any * option error) * Pool :=
  match available p with
  | [] => ((0, 0, Nil, Some (errors_New "Exhausted")), p)
  | r :: rest => ((id r, handle r, info r, None), set_available p rest)
  end.

(** Modelled from the spec: [Put] pushes the resource back; it fails with
    [UnknownId] for an id that was never created and with [NotInUse] for one
    that is already idle. *)
Definition Put (i : Z) (p : Pool) : option error * Pool :=
  match List.find (has_id i) (all p) with
  | None => (Some (errors_New "UnknownId"), p)
  | Some r =>
      if existsb (has_id i) (available p) then (Some (errors_New "NotInUse"), p)
      else (None, set_available p (r :: available p))
  end.

(** Modelled from the spec: [CleanUp] destroys every resource and aggregates
    the errors. *)
Definition CleanUp (p : Pool) : option error * Pool :=
  let failed := omap (fun r => Error <$> destroy p r) (all p) in
  let p := {| capacity := capacity p; all := []; available := []; destroy := destroy p |} in
  match failed with
  | [] => (None, p)
  | _ => (Some (errors_New (strings_Join failed ";")), p)
  end.

#[global] Instance Pool_Manager : Namespace.Manager Pool :=
  {| Namespace.mgr_Get := Get; Namespace.mgr_Put := Put; Namespace.mgr_CleanUp := CleanUp |}.

(** A pool as it is after initialisation: [n] resources with the ids
    [0 .. n-1], all idle; the handles are file descriptors from [fd0] on. *)
Definition filled (n : nat) (fd0 : Z) : Pool :=
  let rs := map (fun i : nat => {| id := Z.of_nat i; handle := fd0 + Z.of_nat i; info := Nil |})
                (seq 0 n) in
  {| capacity := Z.of_nat n; all := rs; available := rs; destroy := fun _ => None |}.

End GenericPool.

(** ** Observations on a trace *)

(** The [Prepare] calls made for [ref], and those among them that succeeded. *)
Definition isPrepare (ref : string) (e : Event) : bool :=
  match e with
  | EvPrepare r _ _ => String.eqb r ref
  | _ => false
  end.

Definition isPrepareOk (ref : string) (e : Event) : bool :=
  match e with
  | EvPrepare r _ None => String.eqb r ref
  | _ => false
  end.

Definition count (f : Event -> bool) (tr : list Event) : nat :=
  length (List.filter f tr).

(** The targets prepared with success, the targets removed and the refs added
    to the reference manager, in the order of the calls. *)
Definition preparedTargets (tr : list Event) : list string :=
  omap (fun e => match e with EvPrepare _ t None => Some t | _ => None end) tr.

Definition removedTargets (tr : list Event) : list string :=
  omap (fun e => match e with EvRemove t _ => Some t | _ => None end) tr.

Definition addedRefs (tr : list Event) : list string :=
  omap (fun e => match e with EvAdd r => Some r | _ => None end) tr.

Definition cleanedUp (tr : list Event) : list NamespaceType :=
  omap (fun e => match e with EvCleanUp t _ => Some t | _ => None end) tr.

(** The descriptions of the failed [Remove] calls, as [Stop] words them. *)
Definition removeFailures (tr : list Event) : list string :=
  omap (fun e => match e with
                 | EvRemove t (Some err) =>
                     Some ("remove " +:+ t +:+ " with error " +:+ Error err)
                 | _ => None
                 end) tr.

(** The [Remove] calls that [new] records, made after [tr] had happened, are
    answered by the provider [p]: each outcome is what [Remove] returns at the
    moment of the call. *)
Definition removesBy (p : Provider) (tr new : list Event) : Prop :=
  forall n1 t o n2, new = n1 ++ EvRemove t o :: n2 -> o = Remove p (tr ++ n1) t.

(** ** Sample collaborators, for the concrete runs *)

Module Sample.

Definition boom : error := errors_New "boom".

(** A provider that always succeeds, one that never does, and one whose
    [Prepare] fails until it has been tried once. *)
Definition okProvider : Provider :=
  {| Prepare := fun _ _ _ => None; Remove := fun _ _ => None |}.

Definition failingProvider : Provider :=
  {| Prepare := fun _ _ _ => Some boom; Remove := fun _ _ => Some boom |}.

Definition flakyProvider : Provider :=
  {| Prepare := fun tr ref _ => if Nat.eqb (count (isPrepare ref) tr) 0 then Some boom else None;
     Remove := fun _ t => if String.eqb t "/var/lib/cermanager/checkpoint/img-A"
                          then Some boom else None |}.

Definition mkdirOk : list Event -> string -> option error := fun _ _ => None.

Definition rootPath : string := "/var/lib/cermanager".

(** A checkpoint service as [New] returns it, and as it is after [Init]. *)
Definition newService (p : Provider) (rm : option Provider) : Checkpoint.service :=
  {| Checkpoint.root := GoPath.Join [rootPath; "checkpoint"];
     Checkpoint.router := ∅;
     Checkpoint.provider := p;
     Checkpoint.referenceMgr := rm;
     Checkpoint.targets := ∅ |}.

Definition checkpointOn (p : Provider) (rm : option Provider) : Checkpoint.service :=
  Checkpoint.set_router (newService p rm) {[Checkpoint.MethodGetCheckpoint]}.

(** An open connection on which the peer has written [frames]. *)
Definition connWith (frames : list Wire.Frame) : Wire.Conn :=
  {| Wire.inbox := frames; Wire.outbox := []; Wire.closed := false; Wire.peer_gone := false |}.

(** A namespace service after [Init] with the capacities [{UTS:2, IPC:1, MNT:0}]. *)
Definition namespaceSvc : Namespace.namespaceService GenericPool.Pool :=
  {| Namespace.config := Namespace.defaultConfig;
     Namespace.managers :=
       <[MNT := GenericPool.filled 0 30]>
         (<[IPC := GenericPool.filled 1 20]> (<[UTS := GenericPool.filled 2 10]> ∅));
     Namespace.root := rootPath |}.

Definition daemonPid : Z := 4242.

(** The decoder's outcome on three files: a well-formed configuration; a
    file that is not JSON (a syntax error, nothing is stored); and an object in
    which a second ["type"] key has a number for value (the fields decoded
    before are stored, and the type error is reported at the end). *)
Definition quoted (s : string) : string :=
  String (Ascii.ascii_of_nat 34) s +:+ String (Ascii.ascii_of_nat 34) EmptyString.

Definition goodConfig : string :=
  "{" +:+ quoted "type" +:+ ":" +:+ quoted "containerd" +:+ ","
      +:+ quoted "config" +:+ ":{}}".

Definition goodCcfsConfig : string :=
  "{" +:+ quoted "type" +:+ ":" +:+ quoted "ccfs" +:+ ","
      +:+ quoted "config" +:+ ":{}}".

Definition notJson : string := "{".

Definition halfGoodConfig : string :=
  "{" +:+ quoted "type" +:+ ":" +:+ quoted "containerd" +:+ ","
      +:+ quoted "config" +:+ ":{}," +:+ quoted "type" +:+ ":1}".

Definition unmarshalConfig (content : string) (c : Checkpoint.config)
  : Checkpoint.config * option error :=
  if String.eqb content goodConfig then
    ({| Checkpoint.Type_ := "containerd"; Checkpoint.Config := Some "{}" |}, None)
  else if String.eqb content goodCcfsConfig then
    ({| Checkpoint.Type_ := "ccfs"; Checkpoint.Config := Some "{}" |}, None)
  else if String.eqb content halfGoodConfig then
    ({| Checkpoint.Type_ := "containerd"; Checkpoint.Config := Some "{}" |},
     Some (errors_New "json: cannot unmarshal number into Go struct field config.type of type string"))
  else (c, Some (errors_New "unexpected end of JSON input")).

Definition unmarshalProviderConfig (raw : Checkpoint.RawMessage) : error + unit :=
  match raw with
  | Some _ => inr tt
  | None => inl (errors_New "unexpected end of JSON input")
  end.

(** [checkpoint.New] with these decoders, when the provider built is [p]. *)
Definition New (p : Provider) : gmap string Node -> string -> error + Checkpoint.service :=
  Checkpoint.New unit unit unmarshalConfig unmarshalProviderConfig unmarshalProviderConfig
    (fun _ => inr p) (fun _ => inr p).

Definition initProvider (p : Provider) : Checkpoint.config -> error + (Provider * option Provider) :=
  Checkpoint.initProvider unit unit unmarshalProviderConfig unmarshalProviderConfig
    (fun _ => inr p) (fun _ => inr p).

(** The file system with [content] in the checkpoint service's file. *)
Definition fsWith (content : string) : gmap string Node :=
  {[ "/var/lib/cermanager/checkpoint_service.json" := File content ]}.

End Sample.

(** ** What the trace says about the checkpoint service's targets *)

(** The targets of [s] are the targets prepared with success in [tr], each
    prepared once, and every [Prepare] was called on the path joined from the
    root and its ref. *)
Definition tracked (s : Checkpoint.service) (tr : list Event) : Prop :=
  (forall t, t ∈ Checkpoint.targets s <-> t ∈ preparedTargets tr)
  /\ NoDup (preparedTargets tr)
  /\ (forall r t o, EvPrepare r t o ∈ tr -> t = GoPath.Join [Checkpoint.root s; r]).

(** No [Prepare] call on a target follows a successful one. *)
Definition settled (tr : list Event) : Prop :=
  forall tr1 tr2 r t, tr = tr1 ++ EvPrepare r t None :: tr2 ->
    forall r' o, EvPrepare r' t o ∉ tr2.

(** ** The ways through [Get] *)

(** The five ways through [Get]. *)
Inductive GetCase (ref : string) (s : Checkpoint.service) (tr : list Event)
  : (string * option error) * Checkpoint.service * list Event -> Prop :=
| GetEmptyRef :
    ref = "" ->
    GetCase ref s tr (("", Some (errors_New "empty ref")), s, tr)
| GetKnown :
    ref <> "" ->
    GoPath.Join [Checkpoint.root s; ref] ∈ Checkpoint.targets s ->
    GetCase ref s tr ((GoPath.Join [Checkpoint.root s; ref], None), s, tr)
| GetMkdirFails err :
    ref <> "" ->
    GoPath.Join [Checkpoint.root s; ref] ∉ Checkpoint.targets s ->
    GetCase ref s tr
      (("", Some (errors_Wrap err
                    ("failed to create dir " +:+ GoPath.Join [Checkpoint.root s; ref]))), s,
       tr ++ [EvMkdirAll (GoPath.Join [Checkpoint.root s; ref]) (Some err)])
| GetPrepareFails err :
    ref <> "" ->
    GoPath.Join [Checkpoint.root s; ref] ∉ Checkpoint.targets s ->
    GetCase ref s tr
      (("", Some err), s,
       (tr ++ [EvMkdirAll (GoPath.Join [Checkpoint.root s; ref]) None])
          ++ [EvPrepare ref (GoPath.Join [Checkpoint.root s; ref]) (Some err)])
| GetPrepared :
    ref <> "" ->
    GoPath.Join [Checkpoint.root s; ref] ∉ Checkpoint.targets s ->
    GetCase ref s tr
      ((GoPath.Join [Checkpoint.root s; ref], None),
       Checkpoint.set_targets s ({[GoPath.Join [Checkpoint.root s; ref]]} ∪ Checkpoint.targets s),
       (tr ++ [EvMkdirAll (GoPath.Join [Checkpoint.root s; ref]) None])
          ++ [EvPrepare ref (GoPath.Join [Checkpoint.root s; ref]) None]).

(** ** Requests to the namespace service *)

(** A request as a client writes it after the service type: the method name
    and, for the two methods of the service, the body. *)
Inductive Request :=
| GetRequest (r : GetNamespaceRequest)
| PutRequest (r : PutNamespaceRequest)
| OtherRequest (method : string).

Definition frames (q : Request) : list Wire.Frame :=
  match q with
  | GetRequest r => [Wire.FrameString MethodGetNamespace; Wire.FrameGetNamespaceRequest r]
  | PutRequest r => [Wire.FrameString MethodPutNamespace; Wire.FramePutNamespaceRequest r]
  | OtherRequest method => [Wire.FrameString method]
  end.

Definition wellFormed (q : Request) : Prop :=
  match q with
  | OtherRequest method => method <> MethodGetNamespace /\ method <> MethodPutNamespace
  | _ => True
  end.

(** A [Get] succeeds when there is a manager for the type and its [Get]
    returns no error. *)
Definition getSucceeds {M : Type} `{Namespace.Manager M}
    (svr : Namespace.namespaceService M) (r : GetNamespaceRequest) : bool :=
  match Namespace.managers svr !! gnT r with
  | None => false
  | Some mgr =>
      match (Namespace.mgr_Get (Arg r) mgr).1 with
      | (_, _, _, None) => true
      | (_, _, _, Some _) => false
      end
  end.

(** C4, as the specification words it: a request that the codec accepts is
    answered, and the connection is left open. *)
Definition every_request_answered_on_open_connection : Prop :=
  forall (M : Type) (Mgr : Namespace.Manager M) (pid : Z)
         (svr : Namespace.namespaceService M) (tr : list Event) (conn : Wire.Conn)
         (q : Request) (rest : list Wire.Frame),
    Wire.closed conn = false -> Wire.peer_gone conn = false ->
    Wire.inbox conn = frames q ++ rest -> wellFormed q ->
    Wire.closed (Namespace.Handle pid svr tr conn).2 = false
    /\ exists m, Wire.outbox (Namespace.Handle pid svr tr conn).2 = Wire.outbox conn ++ [m].

(** ** Three sentences of the specification, as they are worded *)

(** C1, as the specification words it: over any sequence of [Get] calls on a
    new service, [Prepare] is called at most once for a ref, and every [Get] of
    the ref that succeeds returns the path joined from the root and the ref. *)
Definition Prepare_called_at_most_once : Prop :=
  forall (mkdirAll : list Event -> string -> option error) (s : Checkpoint.service)
         (refs : list string) (ref : string),
    Checkpoint.targets s = ∅ -> ref <> "" ->
    (count (isPrepare ref) (Checkpoint.Gets mkdirAll refs s []).2 <= 1)%nat
    /\ (forall path, (ref, (path, None)) ∈ (Checkpoint.Gets mkdirAll refs s []).1.1 ->
          path = GoPath.Join [Checkpoint.root s; ref]).

(** C3, as the specification words it: with a reference manager, [Add(ref)] is
    called by a [GetCheckpoint] request when [Get(ref)] succeeded, and is not
    called when it failed. *)
Definition Add_exactly_after_successful_Get : Prop :=
  forall (mkdirAll : list Event -> string -> option error) (s : Checkpoint.service)
         (tr : list Event) (c c1 : Wire.Conn) (r : GetCheckpointRequest) (p : Provider),
    Checkpoint.referenceMgr s = Some p ->
    Wire.receive Wire.asGetCheckpointRequest c = (inr r, c1) ->
    let after := (Checkpoint.handleGetCheckpoint mkdirAll s tr c).1.2 in
    match (Checkpoint.Get mkdirAll (Ref r) s tr).1.1.2 with
    | None => addedRefs after = addedRefs tr ++ [Ref r]
    | Some _ => addedRefs after = addedRefs tr
    end.

(** ** Further observations on the namespace configuration *)

(** The three namespace types that [mergeConfig] visits. *)
Definition mergedTypes : list NamespaceType := [IPC; MNT; UTS].

(** Whether [from] gives the type [t] a negative capacity. *)
Definition negativeCapacity (from : Namespace.serviceConfig) (t : NamespaceType) : bool :=
  match Namespace.Capacity from !! t with
  | Some v => (v <? 0)%Z
  | None => false
  end.

(** The value that a merge leaves at [t]: the one of [from] for the types in
    [ts] that [from] has, the one of [to] otherwise. *)
Definition mergedAt {V : Type} (ts : list NamespaceType) (to from : gmap NamespaceType V)
    (t : NamespaceType) : option V :=
  if bool_decide (t ∈ ts) then
    match from !! t with
    | Some v => Some v
    | None => to !! t
    end
  else to !! t.

(** ** Sessions of the namespace service *)

(** A request for one of the two methods of the namespace service. *)
Definition asRequest (q : GetNamespaceRequest + PutNamespaceRequest) : Request :=
  match q with
  | inl r => GetRequest r
  | inr r => PutRequest r
  end.

(** What a client writes to make the requests [qs] one after another on one
    connection: before each request, the service type. *)
Definition session (qs : list (GetNamespaceRequest + PutNamespaceRequest)) : list Wire.Frame :=
  flat_map (fun q => Wire.FrameServiceType NamespaceService :: frames (asRequest q)) qs.

(** The response to one request and the service after it; the responses to a
    sequence of requests, each made on the service as the one before left
    it. *)
Definition answer {M : Type} `{Namespace.Manager M} (pid : Z)
    (svr : Namespace.namespaceService M) (q : GetNamespaceRequest + PutNamespaceRequest)
  : Wire.Message * Namespace.namespaceService M :=
  match q with
  | inl r =>
      (Wire.MsgGetNamespaceResponse (Namespace.getNamespaceResponse pid svr r).1,
       (Namespace.getNamespaceResponse pid svr r).2)
  | inr r =>
      (Wire.MsgPutNamespaceResponse (Namespace.putNamespaceResponse svr r).1,
       (Namespace.putNamespaceResponse svr r).2)
  end.

Fixpoint answers {M : Type} `{Namespace.Manager M} (pid : Z)
    (svr : Namespace.namespaceService M) (qs : list (GetNamespaceRequest + PutNamespaceRequest))
  : list Wire.Message * Namespace.namespaceService M :=
  match qs with
  | [] => ([], svr)
  | q :: qs =>
      let '(m, svr) := answer pid svr q in
      let '(ms, svr) := answers pid svr qs in
      (m :: ms, svr)
  end.

(** The responses [ms] answer the requests [qs], one each and in their order:
    each is the response of the namespace service, in some state, to the
    request at its place. *)
Definition answeredInOrder {M : Type} `{Namespace.Manager M} (pid : Z)
    (qs : list (GetNamespaceRequest + PutNamespaceRequest)) (ms : list Wire.Message) : Prop :=
  Forall2 (fun q m => exists svr : Namespace.namespaceService M, m = (answer pid svr q).1) qs ms.

(** How far the [i]-th goroutine of a started server is with a client that
    makes the requests [qs]: [written] is what the connection held before the
    first of them was read. The requests read so far are answered in their
    order, the others wait in the inbox; the connection is closed only when
    all were answered and the goroutine has returned. *)
Definition servedSoFar {M : Type} `{Namespace.Manager M} (pid : Z)
    (qs : list (GetNamespaceRequest + PutNamespaceRequest)) (written : list Wire.Message)
    (i : nat) (d : Cermanager.Started M) : Prop :=
  exists answered todo ms c stage,
    qs = answered ++ todo
    /\ Cermanager.st_group d !! i
       = Some {| Cermanager.g_conn := c; Cermanager.g_stage := stage |}
    /\ Wire.outbox c = written ++ ms
    /\ answeredInOrder pid answered ms
    /\ Wire.peer_gone c = false
    /\ (Wire.closed c = false /\ Wire.inbox c = session todo
        \/ Wire.closed c = true /\ todo = [] /\ stage = Cermanager.Returned).

(** The outcomes of the calls to the HTTP server's [Shutdown]. *)
Definition httpShutdowns (tr : list Event) : list (option error) :=
  omap (fun e => match e with EvHttpShutdown o => Some o | _ => None end) tr.

(** ** The UTS manager (package [uts]) *)

Module Uts.

Section NewManager.

Context {M : Type}.

(** [generic.NewManager(capacity, type, hook)], outside the sources; the hook
    is nil here. Its answer may depend on what happened before. *)
Variable generic_NewManager : list Event -> Z -> NamespaceType -> option unit -> error + M.

(** [NewManager], called when [tr] has happened: the root is not used. *)
Definition NewManager (tr : list Event) (root : string) (capacity : Z) : error + M :=
  match generic_NewManager tr capacity UTS None with
  | inl err => inl err
  | inr mgr => inr mgr
  end.

End NewManager.

End Uts.

(** ** The client (package [client]) *)

Module Client.

Definition defaultSocketPath : string := "/var/lib/cermanager/daemon.socket".

Record Config := { SocketPath : string }.

Record Client := { c : Wire.Conn }.

Section Dial.

(** [net.Dial(network, address)] *)
Variable net_Dial : string -> string -> error + Wire.Conn.

(** [New] *)
Definition New (config : Config) : error + Client :=
  match net_Dial "unix" (SocketPath config) with
  | inl err => inl err
  | inr conn => inr {| c := conn |}
  end.

(** [Default] *)
Definition Default : error + Client :=
  New {| SocketPath := defaultSocketPath |}.

End Dial.

End Client.

(** ** The [start] command (package [main]) *)

Module Cmd.

Section Start.

Context {M : Type} `{Namespace.Manager M}.

Variable os_Getpid : Z.
Variable os_MkdirAll : list Event -> string -> option error.
Variable Type2Services : ServiceType -> string.
Variable net_ResolveUnixAddr : string -> option error.
Variable net_ListenUnix : string -> option error.
Variables CcfsConfig ContainerdConfig RootfsProvider : Type.
Variable json_Unmarshal_config : string -> Checkpoint.config -> Checkpoint.config * option error.
Variable json_Unmarshal_ccfs : Checkpoint.RawMessage -> error + CcfsConfig.
Variable json_Unmarshal_containerd : Checkpoint.RawMessage -> error + ContainerdConfig.
Variable ccfs_NewProvider : CcfsConfig -> error + Provider.
Variable containerd_NewProvider : ContainerdConfig -> error + Provider.
Variable json_Unmarshal_serviceConfig :
  string -> Namespace.serviceConfig -> Namespace.serviceConfig * option error.
Variable ns_NewUTSManager : list Event -> string -> Z -> error + M.
Variable ns_NewIPCManager : list Event -> string -> Z -> error + M.
Variable rootfs_NewProvider : list Event -> error + RootfsProvider.
Variable ns_NewMountManager :
  list Event -> string -> Z -> list string -> RootfsProvider -> Namespace.Filling M.
Variable http_NewServer : string -> Z -> error + (list Event -> option error).
Variable Sprint_ServiceType : ServiceType -> string.

(** The orders in which the [range] statements of [Shutdown] and of the two
    [Stop] yield the keys of a map, as functions of its keys. *)
Variable rangeServices : gset ServiceType -> list ServiceType.
Variable rangeNamespaces : gset NamespaceType -> list NamespaceType.
Variable rangeTargets : gset string -> list string.

(** The keys over which the two [Stop] of a server will range. *)
Definition namespacesOf (s : Cermanager.Server M) : gset NamespaceType :=
  match Cermanager.services s !! NamespaceService with
  | Some (Cermanager.NamespaceSvc svr) => dom (Namespace.managers svr)
  | _ => ∅
  end.

Definition targetsOf (s : Cermanager.Server M) : gset string :=
  match Cermanager.services s !! CheckpointService with
  | Some (Cermanager.CheckpointSvc cs) => Checkpoint.targets cs
  | _ => ∅
  end.

(** The [Action] of the [start] command: [NewServer], [s.Start(ctx)], the wait
    on [done], [cancel()], [s.Shutdown()], and nil is returned.

    The channel [done] is closed by the signal handler, which is outside the
    sources, at a moment of its choice: [before] lists the steps that the
    goroutines of the server have taken by then, and [after] those that they
    take from [cancel()] until [s.group.Wait()], the first statement of
    [Shutdown], returns. The result is [None] when the goroutines cannot take
    these steps, and when [Wait] does not return because a [serve] has not
    returned. [accepts] is what the calls of [Accept] return.

    [Shutdown] does not close the listener, and nothing stops the accept loop
    while it is blocked in [Accept]: a connection that is accepted only after
    [Wait] has returned is served while the services are stopped, or after.
    Such a run is not among those described here, where nothing else happens
    once [Wait] has returned.

    The call of the sources gives [NewServer] no port, although it takes one:
    [httpPort] is left open, 0 being the server without HTTP server. *)
Definition Action (initOrder : list ServiceType) (fs : gmap string Node) (httpPort : Z)
    (accepts : list (error + Wire.Conn)) (before after : list Cermanager.Step)
  : option (option error * list Event) :=
  match Cermanager.NewServer os_MkdirAll net_ResolveUnixAddr net_ListenUnix
          CcfsConfig ContainerdConfig RootfsProvider json_Unmarshal_config
          json_Unmarshal_ccfs json_Unmarshal_containerd ccfs_NewProvider
          containerd_NewProvider json_Unmarshal_serviceConfig ns_NewUTSManager
          ns_NewIPCManager rootfs_NewProvider ns_NewMountManager http_NewServer
          initOrder fs httpPort [] with
  | (inl err, tr) => Some (Some err, tr)
  | (inr s, tr) =>
      let d := Cermanager.Start s tr accepts in
      match Cermanager.run os_Getpid os_MkdirAll Sprint_ServiceType before d with
      | None => None
      | Some d =>
          let d := Cermanager.cancel d in
          match Cermanager.run os_Getpid os_MkdirAll Sprint_ServiceType after d with
          | None => None
          | Some d =>
              if Cermanager.group_Wait d then
                let s := Cermanager.st_server d in
                let '(_, tr) :=
                  Cermanager.Shutdown Type2Services
                    (rangeServices (dom (Cermanager.services s)))
                    (rangeNamespaces (namespacesOf s)) (rangeTargets (targetsOf s))
                    s (Cermanager.st_trace d) in
                Some (None, tr)
              else None
          end
      end
  end.

End Start.

End Cmd.

(** ** The state of a running daemon *)

(** The events that serving a connection records: everything but the calls of
    the shutdown. *)
Definition servingEvent (e : Event) : Prop :=
  match e with
  | EvRemove _ _ | EvCleanUp _ _ | EvHttpShutdown _ => False
  | _ => True
  end.


(** ** A sample daemon, for the concrete runs *)

Module SampleDaemon.

(** The decoder's outcome on three files of the namespace service: one with
    the capacities [{UTS:2, IPC:1, MNT:0}]; one that gives IPC the capacity
    [-1]; and one with a mount namespace, for the checkpoint [img-base]. Any
    other file is taken for a syntax error. *)
Definition smallPools : string :=
  "{" +:+ Sample.quoted "capacity" +:+ ":{" +:+ Sample.quoted "UTS" +:+ ":2,"
      +:+ Sample.quoted "IPC" +:+ ":1," +:+ Sample.quoted "MNT" +:+ ":0}}".

Definition negativePool : string :=
  "{" +:+ Sample.quoted "capacity" +:+ ":{" +:+ Sample.quoted "IPC" +:+ ":-1}}".

Definition mountPool : string :=
  "{" +:+ Sample.quoted "capacity" +:+ ":{" +:+ Sample.quoted "UTS" +:+ ":2,"
      +:+ Sample.quoted "IPC" +:+ ":1," +:+ Sample.quoted "MNT" +:+ ":1},"
      +:+ Sample.quoted "extra_args" +:+ ":{" +:+ Sample.quoted "MNT" +:+ ":["
      +:+ Sample.quoted "img-base" +:+ "]}}".

Definition unmarshalServiceConfig (content : string) (c : Namespace.serviceConfig)
  : Namespace.serviceConfig * option error :=
  if String.eqb content smallPools then
    ({| Namespace.Capacity := <[UTS := 2]> (<[IPC := 1]> (<[MNT := 0]> ∅));
        Namespace.ExtraArgs := ∅ |}, None)
  else if String.eqb content negativePool then
    ({| Namespace.Capacity := <[IPC := -1]> ∅; Namespace.ExtraArgs := ∅ |}, None)
  else if String.eqb content mountPool then
    ({| Namespace.Capacity := <[UTS := 2]> (<[IPC := 1]> (<[MNT := 1]> ∅));
        Namespace.ExtraArgs := <[MNT := ["img-base"]]> ∅ |}, None)
  else (c, Some (errors_New "unexpected end of JSON input")).

(** The file system with [content] in the namespace service's file. *)
Definition namespaceFsWith (node : Node) : gmap string Node :=
  {[ "/var/lib/cermanager/namespace_service.json" := node ]}.

(** The file system of a daemon with both files, without and with a mount
    namespace. *)
Definition fs : gmap string Node :=
  <[ "/var/lib/cermanager/namespace_service.json" := File smallPools ]>
    (Sample.fsWith Sample.goodConfig).

Definition fsWithMount : gmap string Node :=
  <[ "/var/lib/cermanager/namespace_service.json" := File mountPool ]>
    (Sample.fsWith Sample.goodConfig).

(** The constructors of the managers: pools that are filled at once. The UTS
    manager is the one of the package [uts]. The mount manager takes one ref
    for each slot and asks the supplier for the checkpoint of each, in order;
    it gives up at the first that fails. *)
Definition newPool (fd0 : Z) (capacity : Z) : error + GenericPool.Pool :=
  inr (GenericPool.filled (Z.to_nat capacity) fd0).

Definition newUTSManager : list Event -> string -> Z -> error + GenericPool.Pool :=
  Uts.NewManager (fun _ capacity _ _ => newPool 10 capacity).

Definition newIPCManager (tr : list Event) (root : string) (capacity : Z)
  : error + GenericPool.Pool :=
  newPool 20 capacity.

Fixpoint askAll (refs : list string) (built : error + GenericPool.Pool)
  : Namespace.Filling GenericPool.Pool :=
  match refs with
  | [] => Namespace.Built built
  | ref :: refs =>
      Namespace.AskSupplier ref
        (fun _ res => match res.2 with
                      | Some err => Namespace.Built (inl err)
                      | None => askAll refs built
                      end)
  end.

Definition newMountManager (tr : list Event) (root : string) (capacity : Z)
    (args : list string) (p : unit) : Namespace.Filling GenericPool.Pool :=
  if negb (Z.of_nat (length args) =? capacity)%Z
  then Namespace.Built (inl (errors_New "one ref for each mount namespace is needed"))
  else askAll args (newPool 30 capacity).

Definition newRootfsProvider (tr : list Event) : error + unit := inr tt.

(** The socket can always be bound. *)
Definition bindOk : string -> option error := fun _ => None.

(** An HTTP server whose [Shutdown] succeeds. *)
Definition newHttpServer (root : string) (port : Z) : error + (list Event -> option error) :=
  inr (fun _ => None).

Definition Type2Services (t : ServiceType) : string :=
  match t with
  | NamespaceService => "namespace"
  | CheckpointService => "checkpoint"
  | OtherService _ => ""
  end.

(** A service type is printed as an integer. *)
Definition Sprint (t : ServiceType) : string :=
  match t with
  | NamespaceService => "1"
  | CheckpointService => "2"
  | OtherService raw => pretty raw
  end.


(** [namespace.New], [namespace.Init] and [NewServer] with these
    collaborators; the checkpoint provider is [p], and the supplier of [Init]
    is a checkpoint service. *)
Definition namespaceNew : gmap string Node -> string -> error + Namespace.namespaceService GenericPool.Pool :=
  Namespace.New unmarshalServiceConfig.

Definition namespaceInit
  : Namespace.namespaceService GenericPool.Pool -> Checkpoint.service -> list Event
    -> (error + Namespace.namespaceService GenericPool.Pool) * Checkpoint.service * list Event :=
  Namespace.Init unit newUTSManager newIPCManager newRootfsProvider newMountManager
    Checkpoint.service (Checkpoint.Get Sample.mkdirOk).

Definition NewServer (p : Provider)
  : list ServiceType -> gmap string Node -> Z -> list Event
    -> (error + Cermanager.Server GenericPool.Pool) * list Event :=
  Cermanager.NewServer Sample.mkdirOk bindOk bindOk unit unit unit
    Sample.unmarshalConfig Sample.unmarshalProviderConfig Sample.unmarshalProviderConfig
    (fun _ => inr p) (fun _ => inr p) unmarshalServiceConfig
    newUTSManager newIPCManager newRootfsProvider newMountManager newHttpServer.

(** The [start] command with these collaborators; every [range] goes in the
    order of [elements]. *)
Definition Action (p : Provider)
  : list ServiceType -> gmap string Node -> Z -> list (error + Wire.Conn)
    -> list Cermanager.Step -> list Cermanager.Step -> option (option error * list Event) :=
  Cmd.Action Sample.daemonPid Sample.mkdirOk Type2Services bindOk bindOk unit unit unit
    Sample.unmarshalConfig Sample.unmarshalProviderConfig Sample.unmarshalProviderConfig
    (fun _ => inr p) (fun _ => inr p) unmarshalServiceConfig
    newUTSManager newIPCManager newRootfsProvider newMountManager newHttpServer Sprint
    elements elements elements.

(** One step and a run of the goroutines, with these collaborators. *)
Definition step : Cermanager.Step -> Cermanager.Started GenericPool.Pool
                  -> option (Cermanager.Started GenericPool.Pool) :=
  Cermanager.step Sample.daemonPid Sample.mkdirOk Sprint.

Definition run : list Cermanager.Step -> Cermanager.Started GenericPool.Pool
                 -> option (Cermanager.Started GenericPool.Pool) :=
  Cermanager.run Sample.daemonPid Sample.mkdirOk Sprint.

(** The namespace service as [New] returns it on the file [smallPools], and
    as [Init] leaves it. *)
Definition newNamespaceSvc : Namespace.namespaceService GenericPool.Pool :=
  {| Namespace.config :=
       {| Namespace.Capacity := <[UTS := 2]> (<[IPC := 1]> (<[MNT := 0]> ∅));
          Namespace.ExtraArgs := ∅ |};
     Namespace.managers := ∅;
     Namespace.root := Sample.rootPath |}.

Definition initNamespaceSvc : Namespace.namespaceService GenericPool.Pool :=
  Namespace.set_managers newNamespaceSvc
    (<[MNT := GenericPool.filled 0 30]>
       (<[IPC := GenericPool.filled 1 20]> (<[UTS := GenericPool.filled 2 10]> ∅))).

(** The same on the file [mountPool]. *)
Definition newMountSvc : Namespace.namespaceService GenericPool.Pool :=
  {| Namespace.config :=
       {| Namespace.Capacity := <[UTS := 2]> (<[IPC := 1]> (<[MNT := 1]> ∅));
          Namespace.ExtraArgs := <[MNT := ["img-base"]]> ∅ |};
     Namespace.managers := ∅;
     Namespace.root := Sample.rootPath |}.

Definition initMountSvc : Namespace.namespaceService GenericPool.Pool :=
  Namespace.set_managers newMountSvc
    (<[MNT := GenericPool.filled 1 30]>
       (<[IPC := GenericPool.filled 1 20]> (<[UTS := GenericPool.filled 2 10]> ∅))).

(** A server as [NewServer] leaves it on the file [smallPools], with the HTTP
    server [http]. *)
Definition server (p : Provider) (http : option (list Event -> option error))
  : Cermanager.Server GenericPool.Pool :=
  Cermanager.newServer initNamespaceSvc (Sample.checkpointOn p None) http.

(** The same on the file [mountPool]: the checkpoint [img-base] was prepared
    for the mount manager. *)
Definition mountServer (p : Provider) (http : option (list Event -> option error))
  : Cermanager.Server GenericPool.Pool :=
  Cermanager.newServer initMountSvc
    (Checkpoint.set_targets (Sample.checkpointOn p None)
       {["/var/lib/cermanager/checkpoint/img-base"]}) http.

(** Two clients: the first asks for the checkpoint [img-A] twice and ends the
    stream; the second takes a UTS namespace, asks for [img-B] and for a
    service that does not exist. *)
Definition client1 : Wire.Conn :=
  Sample.connWith
    [Wire.FrameServiceType CheckpointService; Wire.FrameString "GetCheckpoint";
     Wire.FrameGetCheckpointRequest {| Ref := "img-A" |};
     Wire.FrameServiceType CheckpointService; Wire.FrameString "GetCheckpoint";
     Wire.FrameGetCheckpointRequest {| Ref := "img-A" |}].

Definition client2 : Wire.Conn :=
  Sample.connWith
    [Wire.FrameServiceType NamespaceService; Wire.FrameString "Get";
     Wire.FrameGetNamespaceRequest {| gnT := UTS; Arg := Nil |};
     Wire.FrameServiceType CheckpointService; Wire.FrameString "GetCheckpoint";
     Wire.FrameGetCheckpointRequest {| Ref := "img-B" |};
     Wire.FrameServiceType (OtherService 7)].

(** A context that is never done. *)
Definition never : nat -> bool := fun _ => false.

End SampleDaemon.

(** * Properties *)

Section ListFacts.

Context {A : Type}.

Lemma snoc_split (l l1 l2 : list A) (x y : A) :
  l ++ [x] = l1 ++ y :: l2 ->
  (l2 = [] /\ l = l1 /\ x = y) \/ (exists l2', l2 = l2' ++ [x] /\ l = l1 ++ y :: l2').
Proof.
  destruct l2 as [|z l2' _] using rev_ind; intros E.
  - left. apply app_inj_tail in E as [-> ->]. done.
  - right. exists l2'.
    change (l1 ++ y :: l2' ++ [z]) with (l1 ++ (y :: l2') ++ [z]) in E.
    rewrite app_assoc in E. apply app_inj_tail in E as [-> ->]. done.
Qed.

End ListFacts.

Lemma count_app (f : Event -> bool) (tr1 tr2 : list Event) :
  count f (tr1 ++ tr2) = (count f tr1 + count f tr2)%nat.
Proof. unfold count. by rewrite List.filter_app, length_app. Qed.

Lemma count_zero_not_elem (f : Event -> bool) (tr : list Event) :
  count f tr = 0%nat <-> forall e, e ∈ tr -> f e = false.
Proof.
  unfold count. induction tr as [|e tr IH]; simpl.
  - split; [intros _ e He; by apply elem_of_nil in He | done].
  - destruct (f e) eqn:Ef; simpl.
    + split; [done | intros Hall]. specialize (Hall e (list_elem_of_here _ _)). congruence.
    + rewrite IH. split.
      * intros Hall e' [-> | He']%elem_of_cons; auto.
      * intros Hall e' He'. apply Hall. by apply list_elem_of_further.
Qed.

Lemma preparedTargets_app (tr1 tr2 : list Event) :
  preparedTargets (tr1 ++ tr2) = preparedTargets tr1 ++ preparedTargets tr2.
Proof. apply omap_app. Qed.

Lemma removedTargets_app (tr1 tr2 : list Event) :
  removedTargets (tr1 ++ tr2) = removedTargets tr1 ++ removedTargets tr2.
Proof. apply omap_app. Qed.

Lemma removeFailures_app (tr1 tr2 : list Event) :
  removeFailures (tr1 ++ tr2) = removeFailures tr1 ++ removeFailures tr2.
Proof. apply omap_app. Qed.

Lemma elem_of_preparedTargets (t : string) (tr : list Event) :
  t ∈ preparedTargets tr <-> exists r, EvPrepare r t None ∈ tr.
Proof.
  unfold preparedTargets. rewrite list_elem_of_omap. split.
  - intros (e & He & Hm). destruct e as [| r t' [e'|] | | | | | | |]; try done.
    injection Hm as ->. eauto.
  - intros (r & Hr). eauto.
Qed.

Section CheckpointGet.

Variable os_MkdirAll : list Event -> string -> option error.

Abbreviation Get := (Checkpoint.Get os_MkdirAll).
Abbreviation Gets := (Checkpoint.Gets os_MkdirAll).

Lemma Get_cases (ref : string) (s : Checkpoint.service) (tr : list Event) :
  GetCase ref s tr (Get ref s tr).
Proof.
  unfold Checkpoint.Get.
  destruct (String.eqb_spec ref "") as [-> | Hne]; [by constructor |].
  destruct (decide _) as [Hin | Hnin]; [by constructor |].
  destruct (os_MkdirAll tr _) as [err |]; [by constructor |].
  destruct (Prepare _ _ _ _) as [err |]; by constructor.
Qed.

Lemma Get_root (ref : string) (s : Checkpoint.service) (tr : list Event) :
  Checkpoint.root (Get ref s tr).1.2 = Checkpoint.root s.
Proof. by destruct (Get_cases ref s tr). Qed.

Lemma Get_tracked (ref : string) (s : Checkpoint.service) (tr : list Event) :
  tracked s tr -> tracked (Get ref s tr).1.2 (Get ref s tr).2.
Proof.
  intros (Hts & Hnd & Hjoin).
  destruct (Get_cases ref s tr) as [? | ? ? | err ? Hnin | err ? Hnin | ? Hnin]; simpl;
    try done.
  - split_and!; [| |].
    + intros t. rewrite preparedTargets_app, app_nil_r. apply Hts.
    + by rewrite preparedTargets_app, app_nil_r.
    + intros r t o [Hin | Hin%list_elem_of_singleton]%elem_of_app; [eauto | done].
  - split_and!.
    + intros t. rewrite !preparedTargets_app, !app_nil_r. apply Hts.
    + by rewrite !preparedTargets_app, !app_nil_r.
    + intros r t o [[Hin | Hin%list_elem_of_singleton]%elem_of_app
                    | Hin%list_elem_of_singleton]%elem_of_app; [eauto | done | congruence].
  - split_and!.
    + intros t. rewrite !preparedTargets_app, app_nil_r. simpl.
      rewrite elem_of_app, list_elem_of_singleton, elem_of_union, elem_of_singleton, Hts.
      tauto.
    + rewrite !preparedTargets_app, app_nil_r. simpl.
      apply NoDup_app. split_and!; [done | | apply NoDup_singleton].
      intros t Ht ->%list_elem_of_singleton. by apply Hnin, Hts.
    + intros r t o [[Hin | Hin%list_elem_of_singleton]%elem_of_app
                    | Hin%list_elem_of_singleton]%elem_of_app; simpl;
        [eauto | done | congruence].
Qed.

Lemma Get_settled (ref : string) (s : Checkpoint.service) (tr : list Event) :
  tracked s tr -> settled tr -> settled (Get ref s tr).2.
Proof.
  intros (Hts & _ & _) Hst.
  assert (Hold : forall tr1 tr2 r t, tr = tr1 ++ EvPrepare r t None :: tr2 ->
                   t ∈ Checkpoint.targets s).
  { intros tr1 tr2 r t ->. apply Hts, elem_of_preparedTargets. exists r.
    apply elem_of_app. right. apply list_elem_of_here. }
  destruct (Get_cases ref s tr) as [? | ? ? | err ? Hnin | err ? Hnin | ? Hnin]; simpl;
    try done.
  - intros tr1 tr2 r t E r' o.
    apply snoc_split in E as [(_ & _ & ?) | (tr2' & -> & E)]; [done |].
    intros [Hin | Hin%list_elem_of_singleton]%elem_of_app; [by eapply Hst | done].
  - intros tr1 tr2 r t E r' o.
    apply snoc_split in E as [(_ & _ & ?) | (tr2' & -> & E)]; [done |].
    apply snoc_split in E as [(_ & _ & ?) | (tr2'' & -> & E)]; [done |].
    intros [[Hin | Hin%list_elem_of_singleton]%elem_of_app
            | Hin%list_elem_of_singleton]%elem_of_app; [by eapply Hst | done |].
    injection Hin as _ -> _. eapply Hnin, Hold, E.
  - intros tr1 tr2 r t E r' o.
    apply snoc_split in E as [(-> & _ & _) | (tr2' & -> & E)]; [by intros ?%elem_of_nil |].
    apply snoc_split in E as [(_ & _ & ?) | (tr2'' & -> & E)]; [done |].
    intros [[Hin | Hin%list_elem_of_singleton]%elem_of_app
            | Hin%list_elem_of_singleton]%elem_of_app; [by eapply Hst | done |].
    injection Hin as _ -> _. eapply Hnin, Hold, E.
Qed.

End CheckpointGet.

Section CheckpointRuns.

Variable os_MkdirAll : list Event -> string -> option error.

Abbreviation Gets' := (Checkpoint.Gets os_MkdirAll).

Lemma Gets_invariant (refs : list string) (s : Checkpoint.service) (tr : list Event) :
  tracked s tr -> settled tr ->
  tracked (Gets' refs s tr).1.2 (Gets' refs s tr).2
  /\ settled (Gets' refs s tr).2
  /\ Checkpoint.root (Gets' refs s tr).1.2 = Checkpoint.root s
  /\ (forall ref path, (ref, (path, None)) ∈ (Gets' refs s tr).1.1 ->
        ref <> "" /\ path = GoPath.Join [Checkpoint.root s; ref]).
Proof.
  revert s tr. induction refs as [|ref refs IH]; intros s tr Htr Hst; simpl.
  - split_and!; [done.. |]. by intros ref path ?%elem_of_nil.
  - pose proof (Get_tracked os_MkdirAll ref s tr Htr) as Htr1.
    pose proof (Get_settled os_MkdirAll ref s tr Htr Hst) as Hst1.
    pose proof (Get_root os_MkdirAll ref s tr) as Hroot1.
    pose proof (Get_cases os_MkdirAll ref s tr) as Hcase.
    destruct (Checkpoint.Get os_MkdirAll ref s tr) as [[res s1] tr1]. simpl in *.
    specialize (IH s1 tr1 Htr1 Hst1).
    destruct (Checkpoint.Gets os_MkdirAll refs s1 tr1) as [[out s2] tr2]. simpl in *.
    destruct IH as (? & ? & Hroot2 & Hout). split_and!; [done | done | congruence |].
    intros ref' path [E | Hin]%elem_of_cons.
    + injection E as -> <-. inversion Hcase; subst; done.
    + rewrite <- Hroot1. by apply Hout.
Qed.

Lemma tracked_fresh (s : Checkpoint.service) :
  Checkpoint.targets s = ∅ -> tracked s [] /\ settled [].
Proof.
  intros Hempty. split; [split_and! |].
  - intros t. rewrite Hempty. simpl. set_solver.
  - constructor.
  - by intros r t o ?%elem_of_nil.
  - intros [|? ?] ? ? ? ?; done.
Qed.

Lemma settled_no_later_Prepare (s : Checkpoint.service) (tr tr1 tr2 : list Event)
    (ref t : string) :
  tracked s tr -> settled tr ->
  tr = tr1 ++ EvPrepare ref t None :: tr2 ->
  count (isPrepare ref) tr2 = 0%nat.
Proof.
  intros (_ & _ & Hjoin) Hst E. apply count_zero_not_elem. intros e He.
  destruct e as [| r t' o | | | | | | |]; try done. simpl.
  destruct (String.eqb_spec r ref) as [-> | ?]; [exfalso | done].
  assert (t' = t) as ->.
  { rewrite (Hjoin ref t' o), (Hjoin ref t None); [done | |]; subst tr.
    - apply elem_of_app. right. apply list_elem_of_here.
    - apply elem_of_app. right. by apply list_elem_of_further. }
  by eapply Hst.
Qed.

Lemma settled_cons (e : Event) (tr : list Event) : settled (e :: tr) -> settled tr.
Proof. intros Hst tr1 tr2 r t ->. by apply (Hst (e :: tr1) tr2 r t). Qed.

Lemma isPrepareOk_isPrepare (ref : string) (tr : list Event) :
  (count (isPrepareOk ref) tr <= count (isPrepare ref) tr)%nat.
Proof.
  unfold count. induction tr as [|e tr IH]; simpl; [done |].
  destruct e as [| r t [err|] | | | | | | |]; simpl; try done;
    destruct (String.eqb r ref); simpl; lia.
Qed.

Lemma settled_one_success (s : Checkpoint.service) (tr : list Event) (ref : string) :
  tracked s tr -> settled tr -> (count (isPrepareOk ref) tr <= 1)%nat.
Proof.
  intros Htr Hst.
  destruct (decide (count (isPrepareOk ref) tr = 0%nat)) as [-> | Hpos]; [lia |].
  assert (exists tr1 tr2 t, tr = tr1 ++ EvPrepare ref t None :: tr2
                            /\ count (isPrepareOk ref) tr1 = 0%nat)
    as (tr1 & tr2 & t & E & Hz).
  { clear Htr Hst. induction tr as [|e tr IH]; [done |].
    destruct (isPrepareOk ref e) eqn:Ee.
    - destruct e as [| r t [err|] | | | | | | |]; try done.
      apply String.eqb_eq in Ee as ->. by exists [], tr, t.
    - destruct IH as (tr1 & tr2 & t & -> & Hz).
      { unfold count in *. simpl in Hpos. by rewrite Ee in Hpos. }
      exists (e :: tr1), tr2, t. split; [done |].
      unfold count in *. simpl. by rewrite Ee. }
  pose proof (settled_no_later_Prepare s tr tr1 tr2 ref t Htr Hst E) as Hlater.
  pose proof (isPrepareOk_isPrepare ref tr2).
  rewrite E. change (EvPrepare ref t None :: tr2) with ([EvPrepare ref t None] ++ tr2).
  rewrite !count_app, Hz. unfold count at 1. simpl. rewrite String.eqb_refl. simpl. lia.
Qed.

End CheckpointRuns.

(** ** [path.Join] on the paths the daemon builds *)

Example Join_root_checkpoint :
  GoPath.Join ["/var/lib/cermanager"; "checkpoint"] = "/var/lib/cermanager/checkpoint".
Proof. vm_compute. reflexivity. Qed.

Example Join_cleans :
  GoPath.Join ["/var/lib/cermanager/checkpoint"; "img/../a/./"] = "/var/lib/cermanager/checkpoint/a".
Proof. vm_compute. reflexivity. Qed.

Example Join_dotdot_relative : GoPath.Join [""; "../a/../.."; ""] = "../..".
Proof. vm_compute. reflexivity. Qed.

Example Join_rooted_dotdot : GoPath.Join ["/.."; ".."] = "/".
Proof. vm_compute. reflexivity. Qed.

(** ** The checkpoint service: [Get] and [GetCheckpoint] *)

Section CheckpointClaims.

Variables CcfsConfig ContainerdConfig : Type.
Variable json_Unmarshal_config : string -> Checkpoint.config -> Checkpoint.config * option error.
Variable json_Unmarshal_ccfs : Checkpoint.RawMessage -> error + CcfsConfig.
Variable json_Unmarshal_containerd : Checkpoint.RawMessage -> error + ContainerdConfig.
Variable ccfs_NewProvider : CcfsConfig -> error + Provider.
Variable containerd_NewProvider : ContainerdConfig -> error + Provider.
Variable os_MkdirAll : list Event -> string -> option error.

Abbreviation New :=
  (Checkpoint.New CcfsConfig ContainerdConfig json_Unmarshal_config json_Unmarshal_ccfs
     json_Unmarshal_containerd ccfs_NewProvider containerd_NewProvider).

Abbreviation initProvider :=
  (Checkpoint.initProvider CcfsConfig ContainerdConfig json_Unmarshal_ccfs
     json_Unmarshal_containerd ccfs_NewProvider containerd_NewProvider).

Lemma initProvider_referenceMgr (c : Checkpoint.config) (p : Provider) (rm : option Provider) :
  initProvider c = inr (p, rm) ->
  (Checkpoint.Type_ c = "ccfs" /\ rm = Some p)
  \/ (Checkpoint.Type_ c = "containerd" /\ rm = None).
Proof.
  unfold Checkpoint.initProvider.
  destruct (String.eqb_spec (Checkpoint.Type_ c) "ccfs") as [E | _].
  - destruct (json_Unmarshal_ccfs _) as [? | cfg]; [done |].
    destruct (ccfs_NewProvider cfg); [done |]. intros [= <- <-]. by left.
  - destruct (String.eqb_spec (Checkpoint.Type_ c) "containerd") as [E | _]; [| done].
    destruct (json_Unmarshal_containerd _) as [? | cfg]; [done |].
    destruct (containerd_NewProvider cfg); [done |]. intros [= <- <-]. by right.
Qed.

Lemma New_fresh (fs : gmap string Node) (root0 : string) (s : Checkpoint.service) :
  New fs root0 = inr s ->
  Checkpoint.root s = GoPath.Join [root0; "checkpoint"]
  /\ Checkpoint.targets s = ∅
  /\ Checkpoint.router s = ∅.
Proof.
  unfold Checkpoint.New. destruct (ioutil_ReadFile _ _) as [? | content]; [done |].
  destruct (json_Unmarshal_config _ _) as [c ?].
  destruct (Checkpoint.initProvider _ _ _ _ _ _ c) as [? | [p rm]]; [done |].
  by intros [= <-].
Qed.

(** C1, amended. On a service as [New] returns it, over any sequence of [Get]
    calls (the calls of all connections, in the order in which they take the
    mutex): every [Get(ref)] that succeeds returns the path joined from the
    root, ["checkpoint"] and the ref; [Prepare] succeeds at most once for a
    ref; and once it has succeeded it is never called for that ref again. A
    [Prepare] that failed is not remembered: the next [Get] of the ref calls
    it again. *)
Theorem Get_same_path_and_one_successful_Prepare
    (fs : gmap string Node) (root0 : string) (s : Checkpoint.service) (refs : list string) :
  New fs root0 = inr s ->
  let run := Checkpoint.Gets os_MkdirAll refs s [] in
  (forall ref path, (ref, (path, None)) ∈ run.1.1 ->
     path = GoPath.Join [GoPath.Join [root0; "checkpoint"]; ref])
  /\ (forall ref, (count (isPrepareOk ref) run.2 <= 1)%nat)
  /\ (forall ref t tr1 tr2, run.2 = tr1 ++ EvPrepare ref t None :: tr2 ->
        count (isPrepare ref) tr2 = 0%nat).
Proof.
  intros (Hroot & Hempty & _)%New_fresh run.
  destruct (tracked_fresh s Hempty) as [Htr Hst].
  destruct (Gets_invariant os_MkdirAll refs s [] Htr Hst) as (Htr' & Hst' & _ & Hout).
  fold run in Htr', Hst', Hout. split_and!.
  - intros ref path Hin. rewrite <- Hroot. by apply Hout.
  - intros ref. by eapply settled_one_success.
  - intros ref t tr1 tr2 E. by eapply settled_no_later_Prepare.
Qed.

(** C5. [Get] of the empty ref fails with the error [empty ref], leaving the
    service (its targets) and the trace (no [MkdirAll], no [Prepare]) as they
    were; and a [GetCheckpoint] request with the empty ref, on an open
    connection, is answered with the empty path and leaves the connection
    open. *)
Theorem Get_empty_ref_fails_and_is_answered
    (s : Checkpoint.service) (tr : list Event) (c : Wire.Conn) (rest : list Wire.Frame) :
  Wire.closed c = false -> Wire.peer_gone c = false ->
  Wire.inbox c = Wire.FrameString Checkpoint.MethodGetCheckpoint
                   :: Wire.FrameGetCheckpointRequest {| Ref := "" |} :: rest ->
  Checkpoint.MethodGetCheckpoint ∈ Checkpoint.router s ->
  Checkpoint.Get os_MkdirAll "" s tr = (("", Some (errors_New "empty ref")), s, tr)
  /\ Checkpoint.Handle os_MkdirAll s tr c =
       (s,
        (tr ++ [EvLogError "empty ref"])
           ++ match Checkpoint.referenceMgr s with Some _ => [EvAdd ""] | None => [] end,
        {| Wire.inbox := rest;
           Wire.outbox := Wire.outbox c ++ [Wire.MsgGetCheckpointResponse {| Path := "" |}];
           Wire.closed := false;
           Wire.peer_gone := false |})
  /\ Checkpoint.targets (Checkpoint.Handle os_MkdirAll s tr c).1.1 = Checkpoint.targets s
  /\ (forall ref, count (isPrepare ref) (Checkpoint.Handle os_MkdirAll s tr c).1.2
                  = count (isPrepare ref) tr).
Proof.
  intros Hopen Hpeer Hin Hreg.
  assert (EH : Checkpoint.Handle os_MkdirAll s tr c =
       (s,
        (tr ++ [EvLogError "empty ref"])
           ++ match Checkpoint.referenceMgr s with Some _ => [EvAdd ""] | None => [] end,
        {| Wire.inbox := rest;
           Wire.outbox := Wire.outbox c ++ [Wire.MsgGetCheckpointResponse {| Path := "" |}];
           Wire.closed := false;
           Wire.peer_gone := false |})).
  { unfold Checkpoint.Handle, Checkpoint.router_Handle, Wire.receive.
    rewrite Hopen, Hin. simpl. rewrite decide_True by done.
    unfold Checkpoint.handleGetCheckpoint, Wire.receive, Wire.send. simpl.
    rewrite ?Hopen, ?Hpeer. simpl.
    destruct (Checkpoint.referenceMgr s); simpl; by rewrite ?app_nil_r. }
  split_and!; [done | done | by rewrite EH |].
  intros ref. rewrite EH. simpl. rewrite !count_app.
  destruct (Checkpoint.referenceMgr s); unfold count; simpl; lia.
Qed.

(** C3, amended. The ccfs provider is the one kept as reference manager (the
    containerd provider is not); and with a reference manager, every
    [GetCheckpoint] request that was decoded calls [Add(ref)] once, after
    [Get(ref)] returned and whether it succeeded or failed. *)
Theorem Add_after_every_decoded_GetCheckpoint
    (cfg : Checkpoint.config) (p : Provider) (rm : option Provider)
    (s : Checkpoint.service) (tr : list Event) (c c1 : Wire.Conn) (r : GetCheckpointRequest) :
  initProvider cfg = inr (p, rm) ->
  Checkpoint.Type_ cfg = "ccfs" ->
  Checkpoint.referenceMgr s = rm ->
  Wire.receive Wire.asGetCheckpointRequest c = (inr r, c1) ->
  let get := Checkpoint.Get os_MkdirAll (Ref r) s tr in
  rm = Some p
  /\ (Checkpoint.handleGetCheckpoint os_MkdirAll s tr c).1.2 =
       (get.2 ++ match get.1.1.2 with
                 | Some err => [EvLogError (Error err)]
                 | None => []
                 end) ++ [EvAdd (Ref r)]
  /\ addedRefs (Checkpoint.handleGetCheckpoint os_MkdirAll s tr c).1.2
       = addedRefs tr ++ [Ref r].
Proof.
  intros Hinit Hccfs Hrm Hrecv get.
  assert (rm = Some p) as ->.
  { apply initProvider_referenceMgr in Hinit as [[_ ?] | [Hc _]]; [done |].
    rewrite Hccfs in Hc. discriminate. }
  assert (Hsame : Checkpoint.referenceMgr get.1.2 = Some p).
  { subst get. by destruct (Get_cases os_MkdirAll (Ref r) s tr). }
  assert (Hadd : addedRefs get.2 = addedRefs tr).
  { subst get. unfold addedRefs.
    destruct (Get_cases os_MkdirAll (Ref r) s tr); simpl; rewrite ?omap_app; simpl;
      by rewrite ?app_nil_r. }
  assert (E : (Checkpoint.handleGetCheckpoint os_MkdirAll s tr c).1.2 =
       (get.2 ++ match get.1.1.2 with
                 | Some err => [EvLogError (Error err)]
                 | None => []
                 end) ++ [EvAdd (Ref r)]).
  { unfold Checkpoint.handleGetCheckpoint. rewrite Hrecv. subst get.
    destruct (Checkpoint.Get os_MkdirAll (Ref r) s tr) as [[[path err] s1] tr1]. simpl in *.
    rewrite Hsame. destruct (Wire.send _ c1) as [[?|] ?]; destruct err; simpl;
      by rewrite ?app_nil_r. }
  split_and!; [done | done |]. rewrite E. unfold addedRefs in *.
  rewrite !omap_app, Hadd. destruct (get.1.1.2); simpl; by rewrite ?app_nil_r.
Qed.

End CheckpointClaims.

(** ** Concrete runs of the checkpoint service *)

Example Init_registers_the_handler :
  Checkpoint.Init Sample.mkdirOk (Sample.newService Sample.okProvider None) []
  = (None, Sample.checkpointOn Sample.okProvider None,
     [EvMkdirAll "/var/lib/cermanager/checkpoint" None]).
Proof. vm_compute. reflexivity. Qed.

Example New_on_good_config :
  Sample.New Sample.okProvider (Sample.fsWith Sample.goodConfig) Sample.rootPath
  = inr (Sample.newService Sample.okProvider None).
Proof. vm_compute. reflexivity. Qed.

(** A provider whose first [Prepare] of a ref fails: the second [Get] calls
    [Prepare] again, the third finds the target. *)
Example Gets_on_flaky_provider :
  (Checkpoint.Gets Sample.mkdirOk ["img-A"; "img-A"; "img-A"]
     (Sample.newService Sample.flakyProvider None) []).2
  = [EvMkdirAll "/var/lib/cermanager/checkpoint/img-A" None;
     EvPrepare "img-A" "/var/lib/cermanager/checkpoint/img-A" (Some Sample.boom);
     EvMkdirAll "/var/lib/cermanager/checkpoint/img-A" None;
     EvPrepare "img-A" "/var/lib/cermanager/checkpoint/img-A" None].
Proof. vm_compute. reflexivity. Qed.

(** C1 fails as worded: with a provider whose [Prepare] fails, two [Get] calls
    for the ref [img-A] call [Prepare] twice. *)
Lemma Prepare_called_again_after_failure : ~ Prepare_called_at_most_once.
Proof.
  intros Hclaim.
  specialize (Hclaim Sample.mkdirOk (Sample.newService Sample.failingProvider None)
                ["img-A"; "img-A"] "img-A" eq_refl).
  assert (Hrun : count (isPrepare "img-A")
            (Checkpoint.Gets Sample.mkdirOk ["img-A"; "img-A"]
               (Sample.newService Sample.failingProvider None) []).2 = 2%nat)
    by (vm_compute; reflexivity).
  rewrite Hrun in Hclaim. destruct Hclaim as [Hcount _]; [discriminate | lia].
Qed.

(** The service built from a well-formed configuration file, on a provider
    whose first [Prepare] of each ref fails, and three [Get] calls. *)
Lemma Get_same_path_and_one_successful_Prepare_witness :
  let run := Checkpoint.Gets Sample.mkdirOk ["img-A"; "img-B"; "img-A"]
               (Sample.newService Sample.flakyProvider None) [] in
  (forall ref path, (ref, (path, None)) ∈ run.1.1 ->
     path = GoPath.Join [GoPath.Join [Sample.rootPath; "checkpoint"]; ref])
  /\ (forall ref, (count (isPrepareOk ref) run.2 <= 1)%nat)
  /\ (forall ref t tr1 tr2, run.2 = tr1 ++ EvPrepare ref t None :: tr2 ->
        count (isPrepare ref) tr2 = 0%nat).
Proof.
  apply (Get_same_path_and_one_successful_Prepare unit unit
           Sample.unmarshalConfig Sample.unmarshalProviderConfig Sample.unmarshalProviderConfig
           (fun _ => inr Sample.flakyProvider) (fun _ => inr Sample.flakyProvider)
           Sample.mkdirOk (Sample.fsWith Sample.goodConfig) Sample.rootPath).
  vm_compute. reflexivity.
Defined.

(** An initialised service and a connection carrying one [GetCheckpoint]
    request with the empty ref. *)
Lemma Get_empty_ref_fails_and_is_answered_witness :
  let s := Sample.checkpointOn Sample.okProvider None in
  let c := Sample.connWith [Wire.FrameString "GetCheckpoint";
                            Wire.FrameGetCheckpointRequest {| Ref := "" |}] in
  Checkpoint.Get Sample.mkdirOk "" s [] = (("", Some (errors_New "empty ref")), s, [])
  /\ Checkpoint.Handle Sample.mkdirOk s [] c =
       (s, [EvLogError "empty ref"],
        {| Wire.inbox := [];
           Wire.outbox := [Wire.MsgGetCheckpointResponse {| Path := "" |}];
           Wire.closed := false;
           Wire.peer_gone := false |}).
Proof.
  intros s c.
  destruct (Get_empty_ref_fails_and_is_answered Sample.mkdirOk s [] c [])
    as (HGet & HHandle & _); [reflexivity | reflexivity | reflexivity | | ].
  - vm_compute. reflexivity.
  - split; [exact HGet | exact HHandle].
Defined.

(** C3 fails as worded: with a reference manager, a [GetCheckpoint] request
    for the empty ref makes [Get] fail, and [Add] is called all the same. *)
Lemma Add_called_after_failed_Get : ~ Add_exactly_after_successful_Get.
Proof.
  intros Hclaim.
  specialize (Hclaim Sample.mkdirOk
                (Sample.checkpointOn Sample.okProvider (Some Sample.okProvider)) []
                (Sample.connWith [Wire.FrameGetCheckpointRequest {| Ref := "" |}])
                (Sample.connWith []) {| Ref := "" |} Sample.okProvider eq_refl eq_refl).
  vm_compute in Hclaim. discriminate Hclaim.
Qed.

(** A ccfs configuration, a provider that fails, and a request for [img-A]:
    [Prepare] fails, the error is logged, and [Add] is called. *)
Lemma Add_after_every_decoded_GetCheckpoint_witness :
  let s := Sample.checkpointOn Sample.failingProvider (Some Sample.failingProvider) in
  let c := Sample.connWith [Wire.FrameGetCheckpointRequest {| Ref := "img-A" |}] in
  (Checkpoint.handleGetCheckpoint Sample.mkdirOk s [] c).1.2 =
    [EvMkdirAll "/var/lib/cermanager/checkpoint/img-A" None;
     EvPrepare "img-A" "/var/lib/cermanager/checkpoint/img-A" (Some Sample.boom);
     EvLogError "boom";
     EvAdd "img-A"].
Proof.
  intros s c.
  destruct (Add_after_every_decoded_GetCheckpoint unit unit
              Sample.unmarshalProviderConfig Sample.unmarshalProviderConfig
              (fun _ => inr Sample.failingProvider) (fun _ => inr Sample.failingProvider)
              Sample.mkdirOk
              {| Checkpoint.Type_ := "ccfs"; Checkpoint.Config := Some "{}" |}
              Sample.failingProvider (Some Sample.failingProvider)
              s [] c (Sample.connWith []) {| Ref := "img-A" |})
    as (_ & Htrace & _); [reflexivity | reflexivity | reflexivity | reflexivity |].
  rewrite Htrace. vm_compute. reflexivity.
Defined.

(** ** Shutdown *)

Lemma cleanedUp_app (tr1 tr2 : list Event) :
  cleanedUp (tr1 ++ tr2) = cleanedUp tr1 ++ cleanedUp tr2.
Proof. apply omap_app. Qed.

Lemma Stop_loop_removes (p : Provider) (ts failed : list string) (tr : list Event) :
  exists new,
    Checkpoint.Stop_loop p ts failed tr = (failed ++ removeFailures new, tr ++ new)
    /\ removedTargets new = ts
    /\ length new = length ts
    /\ cleanedUp new = [].
Proof.
  revert failed tr. induction ts as [|t ts IH]; intros failed tr; simpl.
  - exists []. by rewrite !app_nil_r.
  - destruct (Remove p tr t) as [err |].
    + destruct (IH (failed ++ ["remove " +:+ t +:+ " with error " +:+ Error err])
                   (tr ++ [EvRemove t (Some err)])) as (new & -> & <- & Hlen & Hclean).
      exists (EvRemove t (Some err) :: new). simpl. rewrite <- !app_assoc. simpl.
      by rewrite Hlen.
    + destruct (IH failed (tr ++ [EvRemove t None])) as (new & -> & <- & Hlen & Hclean).
      exists (EvRemove t None :: new). simpl. rewrite <- !app_assoc. simpl.
      by rewrite Hlen.
Qed.

Lemma Checkpoint_Stop_removes (order : list string) (s : Checkpoint.service) (tr : list Event) :
  exists new,
    Checkpoint.Stop order s tr =
      (match removeFailures new with
       | [] => None
       | failed => Some (errors_New (strings_Join failed ";"))
       end, tr ++ new)
    /\ removedTargets new = order
    /\ length new = length order
    /\ cleanedUp new = [].
Proof.
  unfold Checkpoint.Stop.
  destruct (Stop_loop_removes (Checkpoint.provider s) order [] tr) as (new & -> & ? & ? & ?).
  exists new. split_and!; [| done..]. simpl. by destruct (removeFailures new).
Qed.

Lemma Stop_loop_asks_the_provider (p : Provider) (ts failed : list string)
    (tr new : list Event) :
  (Checkpoint.Stop_loop p ts failed tr).2 = tr ++ new -> removesBy p tr new.
Proof.
  revert failed tr new. induction ts as [|t ts IH]; intros failed tr new; simpl.
  - intros E n1 t o n2 ->. rewrite <- (app_nil_r tr) in E at 1.
    apply app_inv_head in E. by destruct n1.
  - set (o := Remove p tr t).
    assert (E : exists failed',
              (match o with
               | Some err =>
                   Checkpoint.Stop_loop p ts
                     (failed ++ ["remove " +:+ t +:+ " with error " +:+ Error err])
                     (tr ++ [EvRemove t (Some err)])
               | None => Checkpoint.Stop_loop p ts failed (tr ++ [EvRemove t None])
               end) = Checkpoint.Stop_loop p ts failed' (tr ++ [EvRemove t o])).
    { destruct o; eauto. }
    destruct E as (failed' & ->).
    destruct (Stop_loop_removes p ts failed' (tr ++ [EvRemove t o])) as (new' & E & _).
    intros Hnew. rewrite E in Hnew. cbn [snd] in Hnew. rewrite <- app_assoc in Hnew.
    apply app_inv_head in Hnew. subst new.
    intros n1 t' o' n2 Hsplit. destruct n1 as [|e n1]; simpl in Hsplit.
    + injection Hsplit as <- <- _. by rewrite app_nil_r.
    + injection Hsplit as <- ->.
      rewrite (IH failed' (tr ++ [EvRemove t o]) _ (f_equal snd E) n1 t' o' n2 eq_refl).
      by rewrite <- app_assoc.
Qed.

Lemma Checkpoint_Stop_asks_the_provider (order : list string) (s : Checkpoint.service)
    (tr new : list Event) :
  (Checkpoint.Stop order s tr).2 = tr ++ new -> removesBy (Checkpoint.provider s) tr new.
Proof.
  unfold Checkpoint.Stop. intros E.
  apply (Stop_loop_asks_the_provider (Checkpoint.provider s) order []).
  destruct (Checkpoint.Stop_loop _ order [] tr) as [failed tr1]. simpl in *.
  by destruct (negb (length failed =? 0)%nat).
Qed.

Section ShutdownFacts.

Context {M : Type} `{Namespace.Manager M}.

Variable Type2Services : ServiceType -> string.

Lemma Namespace_Stop_loop_cleans (order : list NamespaceType)
    (ms : gmap NamespaceType M) (tr : list Event) :
  Forall (fun t => is_Some (ms !! t)) order ->
  removedTargets (Namespace.Stop_loop order ms tr).2 = removedTargets tr
  /\ cleanedUp (Namespace.Stop_loop order ms tr).2 = cleanedUp tr ++ order.
Proof.
  revert ms tr. induction order as [|t order IH]; intros ms tr Hall; simpl.
  - by rewrite app_nil_r.
  - apply Forall_cons in Hall as [[mgr Hmgr] Hall]. rewrite Hmgr.
    destruct (Namespace.mgr_CleanUp mgr) as [err mgr'].
    edestruct (IH (<[t := mgr']> ms)) as [-> ->].
    { eapply Forall_impl; [exact Hall |]. intros t' Ht'. simpl.
      rewrite lookup_insert_is_Some. destruct (decide (t = t')); auto. }
    destruct err; rewrite !removedTargets_app, !cleanedUp_app; simpl;
      by rewrite ?app_nil_r, <- ?app_assoc.
Qed.

(** What stopping one service adds to the [Remove] calls and to the
    [CleanUp] calls of the trace. *)
Lemma Service_Stop_calls (nsOrder : list NamespaceType) (targetOrder : list string)
    (svc : Cermanager.Service M) (tr : list Event) :
  match svc with
  | Cermanager.NamespaceSvc svr =>
      Forall (fun t => is_Some (Namespace.managers svr !! t)) nsOrder ->
      removedTargets (Cermanager.Service_Stop nsOrder targetOrder svc tr).2 = removedTargets tr
      /\ cleanedUp (Cermanager.Service_Stop nsOrder targetOrder svc tr).2
         = cleanedUp tr ++ nsOrder
  | Cermanager.CheckpointSvc s =>
      (Cermanager.Service_Stop nsOrder targetOrder svc tr).1.2 = svc
      /\ removedTargets (Cermanager.Service_Stop nsOrder targetOrder svc tr).2
         = removedTargets tr ++ targetOrder
      /\ cleanedUp (Cermanager.Service_Stop nsOrder targetOrder svc tr).2 = cleanedUp tr
  end.
Proof.
  destruct svc as [svr | s]; simpl.
  - intros Hall. unfold Namespace.Stop.
    pose proof (Namespace_Stop_loop_cleans nsOrder (Namespace.managers svr) tr Hall).
    by destruct (Namespace.Stop_loop _ _ _).
  - destruct (Checkpoint_Stop_removes targetOrder s tr) as (new & -> & <- & _ & Hclean).
    simpl. by rewrite removedTargets_app, cleanedUp_app, Hclean, app_nil_r.
Qed.

Local Arguments Cermanager.Service_Stop : simpl never.

Lemma Shutdown_calls (order : list ServiceType) (nsOrder : list NamespaceType)
    (targetOrder : list string) (namespaceSvr : Namespace.namespaceService M)
    (s : Checkpoint.service) (http : option (list Event -> option error)) (tr : list Event) :
  order ≡ₚ [NamespaceService; CheckpointService] ->
  Forall (fun t => is_Some (Namespace.managers namespaceSvr !! t)) nsOrder ->
  let final := (Cermanager.Shutdown Type2Services order nsOrder targetOrder
                  (Cermanager.newServer namespaceSvr s http) tr).2 in
  removedTargets final = removedTargets tr ++ targetOrder
  /\ cleanedUp final = cleanedUp tr ++ nsOrder.
Proof.
  intros Hperm Hall. symmetry in Hperm. apply Permutation_length_2_inv in Hperm.
  assert (Hlog : forall (o : option error) (t : ServiceType) (tr' : list Event),
            let logged :=
              match o with
              | Some e => tr' ++ [EvLogError (Type2Services t +:+ " service shutdown with error "
                                             +:+ Error e)]
              | None => tr'
              end in
            removedTargets logged = removedTargets tr' /\ cleanedUp logged = cleanedUp tr').
  { intros [e |] t tr'; [| done]. simpl.
    rewrite removedTargets_app, cleanedUp_app. simpl. by rewrite !app_nil_r. }
  assert (Hhttp : forall tr' : list Event,
            let stopped :=
              match http with
              | Some shutdown =>
                  match shutdown tr' with
                  | Some err => tr' ++ [EvHttpShutdown (Some err)]
                                    ++ [EvLogError "http server shutdown with error"]
                  | None => tr' ++ [EvHttpShutdown None]
                  end
              | None => tr'
              end in
            removedTargets stopped = removedTargets tr' /\ cleanedUp stopped = cleanedUp tr').
  { intros tr'. destruct http as [sd |]; [| done]. simpl.
    destruct (sd tr'); rewrite !removedTargets_app, !cleanedUp_app; simpl;
      by rewrite !app_nil_r. }
  unfold Cermanager.Shutdown, Cermanager.newServer. simpl.
  destruct Hperm as [-> | ->]; simpl.
  - rewrite lookup_insert_eq.
    pose proof (Service_Stop_calls nsOrder targetOrder
                  (Cermanager.NamespaceSvc namespaceSvr) tr Hall) as [R1 C1].
    destruct (Cermanager.Service_Stop nsOrder targetOrder
                (Cermanager.NamespaceSvc namespaceSvr) tr) as [[e1 ss1] tr1]. simpl in *.
    rewrite lookup_insert_ne, lookup_insert_ne, lookup_insert_eq by done.
    match goal with
    | |- context [Cermanager.Service_Stop ?a ?b ?c ?d] =>
        pose proof (Service_Stop_calls a b c d) as (_ & R2 & C2);
        destruct (Cermanager.Service_Stop a b c d) as [[e2 ss2] tr2]
    end.
    simpl in *.
    destruct (Hhttp (match e2 with
                     | Some e => tr2 ++ [EvLogError (Type2Services CheckpointService
                                           +:+ " service shutdown with error " +:+ Error e)]
                     | None => tr2
                     end)) as [-> ->].
    destruct (Hlog e2 CheckpointService tr2) as [-> ->]. rewrite R2, C2.
    destruct (Hlog e1 NamespaceService tr1) as [-> ->]. by rewrite R1, C1.
  - rewrite lookup_insert_ne, lookup_insert_eq by done.
    pose proof (Service_Stop_calls nsOrder targetOrder
                  (Cermanager.CheckpointSvc s) tr) as (_ & R1 & C1).
    destruct (Cermanager.Service_Stop nsOrder targetOrder
                (Cermanager.CheckpointSvc s) tr) as [[e1 ss1] tr1]. simpl in *.
    rewrite lookup_insert_ne, lookup_insert_eq by done.
    match goal with
    | |- context [Cermanager.Service_Stop ?a ?b ?c ?d] =>
        pose proof (Service_Stop_calls a b c d Hall) as [R2 C2];
        destruct (Cermanager.Service_Stop a b c d) as [[e2 ss2] tr2]
    end.
    simpl in *.
    destruct (Hhttp (match e2 with
                     | Some e => tr2 ++ [EvLogError (Type2Services NamespaceService
                                           +:+ " service shutdown with error " +:+ Error e)]
                     | None => tr2
                     end)) as [-> ->].
    destruct (Hlog e2 NamespaceService tr2) as [-> ->]. rewrite R2, C2.
    destruct (Hlog e1 CheckpointService tr1) as [-> ->]. by rewrite R1, C1.
Qed.

Lemma Namespace_Stop_appends (order : list NamespaceType)
    (svr : Namespace.namespaceService M) (tr : list Event) :
  (Namespace.Stop order svr tr).1.1 = None
  /\ exists new, (Namespace.Stop order svr tr).2 = tr ++ new /\ removedTargets new = [].
Proof.
  unfold Namespace.Stop.
  assert (Hloop : forall ms tr0, exists new,
            (Namespace.Stop_loop order ms tr0).2 = tr0 ++ new /\ removedTargets new = []).
  { induction order as [|t order IH]; intros ms tr0; simpl.
    - exists []. by rewrite app_nil_r.
    - destruct (ms !! t) as [mgr |]; [| apply IH].
      destruct (Namespace.mgr_CleanUp mgr) as [err mgr'].
      destruct err as [e |].
      + destruct (IH (<[t := mgr']> ms) ((tr0 ++ [EvCleanUp t (Some e)])
                                           ++ [EvLogError (Error e)])) as (new & -> & Hnew).
        exists (EvCleanUp t (Some e) :: EvLogError (Error e) :: new).
        by rewrite <- !app_assoc.
      + destruct (IH (<[t := mgr']> ms) (tr0 ++ [EvCleanUp t None])) as (new & -> & Hnew).
        exists (EvCleanUp t None :: new). by rewrite <- !app_assoc. }
  destruct (Hloop (Namespace.managers svr) tr) as (new & E & Hnew).
  destruct (Namespace.Stop_loop order (Namespace.managers svr) tr) as [ms tr1].
  simpl in *. eauto.
Qed.

(** [Shutdown] stops the checkpoint service by its [Stop], before or after
    the namespace service, and logs the error that [Stop] returns; it makes no
    other [Remove] call. *)
Lemma Shutdown_runs_Stop (order : list ServiceType) (nsOrder : list NamespaceType)
    (targetOrder : list string) (namespaceSvr : Namespace.namespaceService M)
    (s : Checkpoint.service) (http : option (list Event -> option error)) (tr : list Event) :
  order ≡ₚ [NamespaceService; CheckpointService] ->
  let final := (Cermanager.Shutdown Type2Services order nsOrder targetOrder
                  (Cermanager.newServer namespaceSvr s http) tr).2 in
  exists before after,
    final = (Checkpoint.Stop targetOrder s (tr ++ before)).2 ++ after
    /\ removedTargets before = []
    /\ removedTargets after = []
    /\ match (Checkpoint.Stop targetOrder s (tr ++ before)).1 with
       | Some e =>
           EvLogError (Type2Services CheckpointService +:+ " service shutdown with error "
                       +:+ Error e) ∈ after
       | None => True
       end.
Proof.
  intros Hperm. symmetry in Hperm. apply Permutation_length_2_inv in Hperm.
  assert (Hhttp : forall tr', exists after,
            match http with
            | Some shutdown =>
                match shutdown tr' with
                | Some err => tr' ++ [EvHttpShutdown (Some err)]
                                  ++ [EvLogError "http server shutdown with error"]
                | None => tr' ++ [EvHttpShutdown None]
                end
            | None => tr'
            end = tr' ++ after /\ removedTargets after = []).
  { intros tr'. destruct http as [sd |]; [| exists []; by rewrite app_nil_r].
    destruct (sd tr'); eexists; split; reflexivity. }
  unfold Cermanager.Shutdown, Cermanager.newServer. simpl.
  destruct Hperm as [-> | ->]; simpl; unfold Cermanager.Service_Stop.
  - rewrite lookup_insert_eq. simpl.
    destruct (Namespace_Stop_appends nsOrder namespaceSvr tr) as (Hnil & before & E1 & Hb).
    destruct (Namespace.Stop nsOrder namespaceSvr tr) as [[e1 svr1] tr1]. simpl in *.
    subst e1 tr1.
    rewrite lookup_insert_ne, lookup_insert_ne, lookup_insert_eq by done. simpl.
    exists before.
    destruct (Checkpoint.Stop targetOrder s (tr ++ before)) as [e2 tr2]. simpl.
    destruct e2 as [e |].
    + destruct (Hhttp (tr2 ++ [EvLogError (Type2Services CheckpointService
                                  +:+ " service shutdown with error " +:+ Error e)]))
        as (after & -> & Ha).
      eexists. rewrite <- app_assoc. split_and!; [done | done | | ].
      * rewrite removedTargets_app. by rewrite Ha.
      * apply elem_of_app. left. by apply list_elem_of_singleton.
    + destruct (Hhttp tr2) as (after & -> & Ha). by exists after.
  - rewrite lookup_insert_ne, lookup_insert_eq by done. simpl.
    exists []. rewrite app_nil_r.
    destruct (Checkpoint.Stop targetOrder s tr) as [e1 tr1]. simpl.
    rewrite lookup_insert_ne, lookup_insert_eq by done. simpl.
    set (tr1' := match e1 with
                 | Some e => tr1 ++ [EvLogError (Type2Services CheckpointService
                                       +:+ " service shutdown with error " +:+ Error e)]
                 | None => tr1
                 end).
    destruct (Namespace_Stop_appends nsOrder namespaceSvr tr1') as (Hnil & new & E2 & Hn).
    destruct (Namespace.Stop nsOrder namespaceSvr tr1') as [[e2 svr2] tr2]. simpl in *.
    subst e2 tr2.
    destruct (Hhttp (tr1' ++ new)) as (after & -> & Ha). subst tr1'.
    destruct e1 as [e |].
    + eexists. rewrite <- !app_assoc. split_and!; [done | done | | ].
      * rewrite !removedTargets_app. by rewrite Hn, Ha.
      * apply elem_of_app. left. by apply list_elem_of_singleton.
    + eexists. rewrite <- !app_assoc. split_and!; [done | done | | done].
      rewrite !removedTargets_app. by rewrite Hn, Ha.
Qed.

End ShutdownFacts.

Lemma targets_are_the_prepared (s : Checkpoint.service) (tr : list Event) :
  tracked s tr -> elements (Checkpoint.targets s) ≡ₚ preparedTargets tr.
Proof.
  intros (Hts & Hnd & _). apply NoDup_Permutation; [apply NoDup_elements | done |].
  intros t. by rewrite elem_of_elements.
Qed.

(** C8. Whatever the order in which [Stop] ranges over the targets, and
    whichever [Remove] calls fail: [Stop] makes one [Remove] call for every
    target of the service and no other call (when the targets are those that
    the trace shows prepared, one for every successful [Prepare]); each call
    is answered by the provider, and the descriptions of those that failed,
    joined by semicolons, are the error returned. [Shutdown], in either order
    of the two services and whatever errors they return, stops the checkpoint
    service by this [Stop], logs the error it returns and makes no other
    [Remove] call; and it cleans up every namespace manager. *)
Theorem Stop_removes_every_target_once
    {M : Type} `{Namespace.Manager M} (Type2Services : ServiceType -> string)
    (s : Checkpoint.service) (tr : list Event) (targetOrder : list string)
    (order : list ServiceType) (nsOrder : list NamespaceType)
    (namespaceSvr : Namespace.namespaceService M)
    (http : option (list Event -> option error)) :
  targetOrder ≡ₚ elements (Checkpoint.targets s) ->
  order ≡ₚ [NamespaceService; CheckpointService] ->
  nsOrder ≡ₚ elements (dom (Namespace.managers namespaceSvr)) ->
  (forall tr0, exists new,
     Checkpoint.Stop targetOrder s tr0 =
       (match removeFailures new with
        | [] => None
        | failed => Some (errors_New (strings_Join failed ";"))
        end, tr0 ++ new)
     /\ removedTargets new ≡ₚ elements (Checkpoint.targets s)
     /\ length new = size (Checkpoint.targets s)
     /\ removesBy (Checkpoint.provider s) tr0 new
     /\ (tracked s tr0 -> removedTargets new ≡ₚ preparedTargets tr0))
  /\ (let final := (Cermanager.Shutdown Type2Services order nsOrder targetOrder
                      (Cermanager.newServer namespaceSvr s http) tr).2 in
      removedTargets final ≡ₚ removedTargets tr ++ elements (Checkpoint.targets s)
      /\ cleanedUp final ≡ₚ cleanedUp tr ++ elements (dom (Namespace.managers namespaceSvr))
      /\ exists before after,
           final = (Checkpoint.Stop targetOrder s (tr ++ before)).2 ++ after
           /\ removedTargets before = []
           /\ removedTargets after = []
           /\ match (Checkpoint.Stop targetOrder s (tr ++ before)).1 with
              | Some e =>
                  EvLogError (Type2Services CheckpointService
                              +:+ " service shutdown with error " +:+ Error e) ∈ after
              | None => True
              end).
Proof.
  intros Htargets Horder Hns. split.
  - intros tr0.
    destruct (Checkpoint_Stop_removes targetOrder s tr0) as (new & E & Hrem & Hlen & _).
    exists new. split_and!; [done | by rewrite Hrem | | |].
    + rewrite Hlen. by apply Permutation_length in Htargets.
    + apply (Checkpoint_Stop_asks_the_provider targetOrder). by rewrite E.
    + intros Htr. rewrite Hrem, Htargets. by apply targets_are_the_prepared.
  - assert (Hall : Forall (fun t => is_Some (Namespace.managers namespaceSvr !! t)) nsOrder).
    { apply Forall_forall. intros t Ht. rewrite Hns in Ht.
      by apply elem_of_elements, elem_of_dom in Ht. }
    destruct (Shutdown_calls Type2Services order nsOrder targetOrder namespaceSvr s http tr
                Horder Hall) as [E1 E2].
    pose proof (Shutdown_runs_Stop Type2Services order nsOrder targetOrder namespaceSvr s
                  http tr Horder) as Hstop.
    cbv zeta in *. rewrite E1, E2, Htargets, Hns. split_and!; [done | done |]. exact Hstop.
Qed.

(** Two refs prepared, the second after a failed try; at shutdown the
    [Remove] of the first target fails, the other target is removed all the
    same, and the failure is returned. *)
Example Stop_after_two_refs :
  let run := Checkpoint.Gets Sample.mkdirOk ["img-A"; "img-A"; "img-B"; "img-B"]
               (Sample.newService Sample.flakyProvider None) [] in
  elements (Checkpoint.targets run.1.2)
    = ["/var/lib/cermanager/checkpoint/img-A"; "/var/lib/cermanager/checkpoint/img-B"]
  /\ Checkpoint.Stop ["/var/lib/cermanager/checkpoint/img-A";
                      "/var/lib/cermanager/checkpoint/img-B"] run.1.2 []
     = (Some (errors_New "remove /var/lib/cermanager/checkpoint/img-A with error boom"),
        [EvRemove "/var/lib/cermanager/checkpoint/img-A" (Some Sample.boom);
         EvRemove "/var/lib/cermanager/checkpoint/img-B" None]).
Proof. vm_compute. split; reflexivity. Qed.

(** The checkpoint service is stopped first and returns an error; the three
    namespace managers are cleaned up all the same. *)
Example Shutdown_goes_on_after_an_error :
  let run := Checkpoint.Gets Sample.mkdirOk ["img-A"; "img-A"]
               (Sample.newService Sample.flakyProvider None) [] in
  (Cermanager.Shutdown (fun _ => "checkpoint") [CheckpointService; NamespaceService]
     [IPC; UTS; MNT] ["/var/lib/cermanager/checkpoint/img-A"]
     (Cermanager.newServer Sample.namespaceSvc run.1.2 None) []).2
  = [EvRemove "/var/lib/cermanager/checkpoint/img-A" (Some Sample.boom);
     EvLogError "checkpoint service shutdown with error remove /var/lib/cermanager/checkpoint/img-A with error boom";
     EvCleanUp IPC None; EvCleanUp UTS None; EvCleanUp MNT None].
Proof. vm_compute. reflexivity. Qed.

(** Two prepared refs, removed in the order opposite to the enumeration of the
    set; the checkpoint service is stopped before the namespace service. *)
Lemma Stop_removes_every_target_once_witness :
  let run := Checkpoint.Gets Sample.mkdirOk ["img-A"; "img-A"; "img-B"; "img-B"]
               (Sample.newService Sample.flakyProvider None) [] in
  let s := run.1.2 in
  let targetOrder := ["/var/lib/cermanager/checkpoint/img-B";
                      "/var/lib/cermanager/checkpoint/img-A"] in
  (forall tr0, exists new,
     Checkpoint.Stop targetOrder s tr0 =
       (match removeFailures new with
        | [] => None
        | failed => Some (errors_New (strings_Join failed ";"))
        end, tr0 ++ new)
     /\ removedTargets new ≡ₚ elements (Checkpoint.targets s)
     /\ length new = size (Checkpoint.targets s)
     /\ removesBy (Checkpoint.provider s) tr0 new
     /\ (tracked s tr0 -> removedTargets new ≡ₚ preparedTargets tr0))
  /\ (let final := (Cermanager.Shutdown (fun _ => "service")
                      [CheckpointService; NamespaceService]
                      [UTS; IPC; MNT] targetOrder
                      (Cermanager.newServer Sample.namespaceSvc s None) run.2).2 in
      removedTargets final ≡ₚ removedTargets run.2 ++ elements (Checkpoint.targets s)
      /\ cleanedUp final
         ≡ₚ cleanedUp run.2 ++ elements (dom (Namespace.managers Sample.namespaceSvc))
      /\ exists before after,
           final = (Checkpoint.Stop targetOrder s (run.2 ++ before)).2 ++ after
           /\ removedTargets before = []
           /\ removedTargets after = []
           /\ match (Checkpoint.Stop targetOrder s (run.2 ++ before)).1 with
              | Some e =>
                  EvLogError ("service" +:+ " service shutdown with error " +:+ Error e)
                    ∈ after
              | None => True
              end).
Proof.
  intros run s targetOrder.
  apply (Stop_removes_every_target_once (fun _ => "service") s run.2 targetOrder
           [CheckpointService; NamespaceService] [UTS; IPC; MNT] Sample.namespaceSvc None).
  - assert (E : elements (Checkpoint.targets s)
                = ["/var/lib/cermanager/checkpoint/img-A";
                   "/var/lib/cermanager/checkpoint/img-B"]) by (vm_compute; reflexivity).
    rewrite E. apply perm_swap.
  - apply perm_swap.
  - assert (E : elements (dom (Namespace.managers Sample.namespaceSvc)) = [MNT; IPC; UTS])
      by (vm_compute; reflexivity).
    rewrite E. symmetry. apply (Permutation_rev [MNT; IPC; UTS]).
Defined.

(** ** Construction of the services *)

Section Construction.

Variables CcfsConfig ContainerdConfig : Type.
Variable json_Unmarshal_config : string -> Checkpoint.config -> Checkpoint.config * option error.
Variable json_Unmarshal_ccfs : Checkpoint.RawMessage -> error + CcfsConfig.
Variable json_Unmarshal_containerd : Checkpoint.RawMessage -> error + ContainerdConfig.
Variable ccfs_NewProvider : CcfsConfig -> error + Provider.
Variable containerd_NewProvider : ContainerdConfig -> error + Provider.
Variable json_Unmarshal_serviceConfig :
  string -> Namespace.serviceConfig -> Namespace.serviceConfig * option error.

Abbreviation checkpoint_New :=
  (Checkpoint.New CcfsConfig ContainerdConfig json_Unmarshal_config json_Unmarshal_ccfs
     json_Unmarshal_containerd ccfs_NewProvider containerd_NewProvider).

Abbreviation checkpoint_initProvider :=
  (Checkpoint.initProvider CcfsConfig ContainerdConfig json_Unmarshal_ccfs
     json_Unmarshal_containerd ccfs_NewProvider containerd_NewProvider).

(** C2: what the code does. When the file was read, the error of
    [json.Unmarshal] plays no part in [New]: the provider is initialised from
    whatever the decoder left in the configuration (the zero value when it
    stored nothing), and [New] succeeds whenever that initialisation does. The
    error [failed to unmarshal config file] is never returned. *)
Theorem New_discards_unmarshal_error
    (fs : gmap string Node) (root0 content : string) (c : Checkpoint.config) (e : error) :
  ioutil_ReadFile fs (GoPath.Join [root0; "checkpoint_service.json"]) = inr content ->
  json_Unmarshal_config content {| Checkpoint.Type_ := ""; Checkpoint.Config := None |}
    = (c, Some e) ->
  checkpoint_New fs root0 =
    match checkpoint_initProvider c with
    | inl err => inl (errors_Wrap err "failed to create provider")
    | inr (p, rm) =>
        inr {| Checkpoint.root := GoPath.Join [root0; "checkpoint"];
               Checkpoint.router := ∅;
               Checkpoint.provider := p;
               Checkpoint.referenceMgr := rm;
               Checkpoint.targets := ∅ |}
    end.
Proof.
  intros Hread Hjson. unfold Checkpoint.New. rewrite Hread, Hjson.
  by destruct (Checkpoint.initProvider _ _ _ _ _ _ c) as [? | [p rm]].
Qed.

(** C7. Without the file [namespace_service.json] under the root, the
    namespace service is built with the default configuration: capacity 5 for
    UTS, IPC and MNT and no extra arguments. Without the file
    [checkpoint_service.json], building the checkpoint service fails. *)
Theorem missing_config_files
    (M : Type) (fs : gmap string Node) (root0 : string) :
  (fs !! GoPath.Join [root0; "namespace_service.json"] = None ->
     Namespace.New (M := M) json_Unmarshal_serviceConfig fs root0
       = inr {| Namespace.config := Namespace.defaultConfig;
                Namespace.managers := ∅;
                Namespace.root := root0 |}
     /\ Namespace.Capacity Namespace.defaultConfig !! UTS = Some 5
     /\ Namespace.Capacity Namespace.defaultConfig !! IPC = Some 5
     /\ Namespace.Capacity Namespace.defaultConfig !! MNT = Some 5
     /\ Namespace.ExtraArgs Namespace.defaultConfig = ∅)
  /\ (fs !! GoPath.Join [root0; "checkpoint_service.json"] = None ->
        checkpoint_New fs root0 =
          inl (errors_Wrap (errNotExist (GoPath.Join [root0; "checkpoint_service.json"]))
                 "failed to read config file")).
Proof.
  split.
  - intros Hmissing. split_and!; [| done..].
    unfold Namespace.New, os_Stat. by rewrite Hmissing.
  - intros Hmissing. unfold Checkpoint.New, ioutil_ReadFile. by rewrite Hmissing.
Qed.

End Construction.

(** A configuration file in which a second [type] key holds a number: the
    decoder reports the type error after having stored the first value and the
    provider's configuration, and [New] returns a service. A file that is not
    JSON leaves the zero value, on which [New] goes on to [initProvider]. *)
Lemma New_discards_unmarshal_error_witness :
  Sample.New Sample.okProvider (Sample.fsWith Sample.halfGoodConfig) Sample.rootPath
    = inr (Sample.newService Sample.okProvider None)
  /\ Sample.New Sample.okProvider (Sample.fsWith Sample.notJson) Sample.rootPath
    = inl (errors_New "failed to create provider: invalid provider type").
Proof.
  split.
  - etransitivity.
    + apply (New_discards_unmarshal_error unit unit Sample.unmarshalConfig
               Sample.unmarshalProviderConfig Sample.unmarshalProviderConfig
               (fun _ => inr Sample.okProvider) (fun _ => inr Sample.okProvider)
               (Sample.fsWith Sample.halfGoodConfig) Sample.rootPath Sample.halfGoodConfig
               {| Checkpoint.Type_ := "containerd"; Checkpoint.Config := Some "{}" |}
               (errors_New "json: cannot unmarshal number into Go struct field config.type of type string"));
        vm_compute; reflexivity.
    + vm_compute. reflexivity.
  - etransitivity.
    + apply (New_discards_unmarshal_error unit unit Sample.unmarshalConfig
               Sample.unmarshalProviderConfig Sample.unmarshalProviderConfig
               (fun _ => inr Sample.okProvider) (fun _ => inr Sample.okProvider)
               (Sample.fsWith Sample.notJson) Sample.rootPath Sample.notJson
               {| Checkpoint.Type_ := ""; Checkpoint.Config := None |}
               (errors_New "unexpected end of JSON input"));
        vm_compute; reflexivity.
    + vm_compute. reflexivity.
Defined.

(** The empty file system. *)
Lemma missing_config_files_witness :
  Namespace.New (M := GenericPool.Pool) (fun _ c => (c, None)) ∅ Sample.rootPath
    = inr {| Namespace.config := Namespace.defaultConfig;
             Namespace.managers := ∅;
             Namespace.root := Sample.rootPath |}
  /\ Sample.New Sample.okProvider ∅ Sample.rootPath
     = inl (errors_New "failed to read config file: open /var/lib/cermanager/checkpoint_service.json: no such file or directory").
Proof.
  destruct (missing_config_files unit unit Sample.unmarshalConfig
              Sample.unmarshalProviderConfig Sample.unmarshalProviderConfig
              (fun _ => inr Sample.okProvider) (fun _ => inr Sample.okProvider)
              (fun _ c => (c, None)) GenericPool.Pool ∅ Sample.rootPath) as [Hns Hcp].
  split.
  - apply Hns. reflexivity.
  - etransitivity; [apply Hcp; reflexivity | vm_compute; reflexivity].
Defined.

(** ** The namespace service *)

Section NamespaceClaims.

Context {M : Type} `{Namespace.Manager M}.

Variable os_Getpid : Z.

Lemma send_open (m : Wire.Message) (conn : Wire.Conn) :
  Wire.closed conn = false -> Wire.peer_gone conn = false ->
  Wire.send m conn =
    (None, {| Wire.inbox := Wire.inbox conn; Wire.outbox := Wire.outbox conn ++ [m];
              Wire.closed := false; Wire.peer_gone := false |}).
Proof. intros Hopen Hpeer. unfold Wire.send. by rewrite Hopen, Hpeer. Qed.

Lemma handleGetNamespace_open (svr : Namespace.namespaceService M) (conn : Wire.Conn)
    (r : GetNamespaceRequest) :
  Wire.closed conn = false -> Wire.peer_gone conn = false ->
  Namespace.handleGetNamespace os_Getpid svr conn r =
    (None, (Namespace.getNamespaceResponse os_Getpid svr r).2,
     {| Wire.inbox := Wire.inbox conn;
        Wire.outbox := Wire.outbox conn
                         ++ [Wire.MsgGetNamespaceResponse
                               (Namespace.getNamespaceResponse os_Getpid svr r).1];
        Wire.closed := false; Wire.peer_gone := false |}).
Proof.
  intros Hopen Hpeer. unfold Namespace.handleGetNamespace.
  destruct (Namespace.getNamespaceResponse os_Getpid svr r) as [rsp svr'].
  by rewrite send_open.
Qed.

Lemma handlePutNamespace_open (svr : Namespace.namespaceService M) (conn : Wire.Conn)
    (r : PutNamespaceRequest) :
  Wire.closed conn = false -> Wire.peer_gone conn = false ->
  Namespace.handlePutNamespace svr conn r =
    (None, (Namespace.putNamespaceResponse svr r).2,
     {| Wire.inbox := Wire.inbox conn;
        Wire.outbox := Wire.outbox conn
                         ++ [Wire.MsgPutNamespaceResponse (Namespace.putNamespaceResponse svr r).1];
        Wire.closed := false; Wire.peer_gone := false |}).
Proof.
  intros Hopen Hpeer. unfold Namespace.handlePutNamespace.
  destruct (Namespace.putNamespaceResponse svr r) as [rsp svr'].
  by rewrite send_open.
Qed.

Lemma getNamespaceResponse_cases (svr : Namespace.namespaceService M) (r : GetNamespaceRequest) :
  Namespace.getNamespaceResponse os_Getpid svr r =
    match Namespace.managers svr !! gnT r with
    | None =>
        ({| NSId := 0; Pid := 0; Fd := -1; Info := Str "No such namespace" |}, svr)
    | Some mgr =>
        let svr' := Namespace.set_managers svr
                      (<[gnT r := (Namespace.mgr_Get (Arg r) mgr).2]> (Namespace.managers svr)) in
        match (Namespace.mgr_Get (Arg r) mgr).1 with
        | (_, _, _, Some err) => ({| NSId := 0; Pid := 0; Fd := -1; Info := Str (Error err) |}, svr')
        | (id, fd, info, None) => ({| NSId := id; Pid := os_Getpid; Fd := fd; Info := info |}, svr')
        end
    end.
Proof.
  unfold Namespace.getNamespaceResponse.
  destruct (Namespace.managers svr !! gnT r) as [mgr |]; [| done].
  by destruct (Namespace.mgr_Get (Arg r) mgr) as [[[[id fd] info] [err |]] mgr'].
Qed.

(** C4, amended. On an open connection, a [Get] or [Put] request is always
    answered and the connection is left open: an unknown namespace type and a
    manager's error are written in the response ([Fd = -1] and the message in
    [Info]; the message in [Error]). A method other than [Get] and [Put] is not
    answered: the error is logged and the handler closes the connection. *)
Theorem Handle_answers_Get_and_Put_closes_on_unknown_method
    (svr : Namespace.namespaceService M) (tr : list Event) (conn : Wire.Conn)
    (q : Request) (rest : list Wire.Frame) :
  Wire.closed conn = false -> Wire.peer_gone conn = false ->
  Wire.inbox conn = frames q ++ rest -> wellFormed q ->
  match q with
  | GetRequest r =>
      let rsp := (Namespace.getNamespaceResponse os_Getpid svr r).1 in
      Namespace.Handle os_Getpid svr tr conn =
        ((Namespace.getNamespaceResponse os_Getpid svr r).2, tr,
         {| Wire.inbox := rest;
            Wire.outbox := Wire.outbox conn ++ [Wire.MsgGetNamespaceResponse rsp];
            Wire.closed := false; Wire.peer_gone := false |})
      /\ (getSucceeds svr r = false -> Fd rsp = -1 /\ exists msg, Info rsp = Str msg)
  | PutRequest r =>
      let rsp := (Namespace.putNamespaceResponse svr r).1 in
      Namespace.Handle os_Getpid svr tr conn =
        ((Namespace.putNamespaceResponse svr r).2, tr,
         {| Wire.inbox := rest;
            Wire.outbox := Wire.outbox conn ++ [Wire.MsgPutNamespaceResponse rsp];
            Wire.closed := false; Wire.peer_gone := false |})
      /\ perror rsp =
           match Namespace.managers svr !! pnT r with
           | None => "No such namespace"
           | Some mgr =>
               match (Namespace.mgr_Put (ID r) mgr).1 with
               | Some err => Error err
               | None => ""
               end
           end
  | OtherRequest method =>
      Namespace.Handle os_Getpid svr tr conn =
        (svr, tr ++ [EvLogError "Unknown method type"],
         {| Wire.inbox := rest; Wire.outbox := Wire.outbox conn;
            Wire.closed := true; Wire.peer_gone := false |})
  end.
Proof.
  intros Hopen Hpeer Hin Hwf. destruct q as [r | r | method]; simpl in *.
  - split.
    + unfold Namespace.Handle, Namespace.handleRequest, Wire.receive.
      rewrite Hopen, Hin. simpl. rewrite handleGetNamespace_open by done. done.
    + unfold getSucceeds. rewrite getNamespaceResponse_cases.
      destruct (Namespace.managers svr !! gnT r) as [mgr |]; simpl; [| eauto].
      destruct (Namespace.mgr_Get (Arg r) mgr) as [[[[id fd] info] [err |]] mgr']; simpl;
        [eauto | done].
  - split.
    + unfold Namespace.Handle, Namespace.handleRequest, Wire.receive.
      rewrite Hopen, Hin. simpl. rewrite handlePutNamespace_open by done. done.
    + unfold Namespace.putNamespaceResponse.
      destruct (Namespace.managers svr !! pnT r) as [mgr |]; [| done].
      by destruct (Namespace.mgr_Put (ID r) mgr) as [[err |] mgr'].
  - destruct Hwf as [HnotGet HnotPut].
    unfold Namespace.Handle, Namespace.handleRequest, Wire.receive.
    rewrite Hopen, Hin. simpl.
    destruct (String.eqb_spec method MethodGetNamespace); [done |].
    destruct (String.eqb_spec method MethodPutNamespace); [done |].
    simpl. unfold Wire.Close. simpl. by rewrite Hpeer.
Qed.

(** C6. A [Get] request for a type that has no manager is answered with
    [Fd = -1] and [Info = "No such namespace"] (the other fields are zero), and
    the service, with every manager's state, is as before; when the manager
    returns an error the answer has [Fd = -1] and the error's message as
    [Info]. *)
Theorem handleGetNamespace_unknown_type_and_manager_error
    (svr : Namespace.namespaceService M) (conn : Wire.Conn) (r : GetNamespaceRequest) :
  Wire.closed conn = false -> Wire.peer_gone conn = false ->
  let res := Namespace.handleGetNamespace os_Getpid svr conn r in
  match Namespace.managers svr !! gnT r with
  | None =>
      Wire.outbox res.2 =
        Wire.outbox conn
          ++ [Wire.MsgGetNamespaceResponse
                {| NSId := 0; Pid := 0; Fd := -1; Info := Str "No such namespace" |}]
      /\ res.1.2 = svr
  | Some mgr =>
      match (Namespace.mgr_Get (Arg r) mgr).1 with
      | (_, _, _, Some err) =>
          Wire.outbox res.2 =
            Wire.outbox conn
              ++ [Wire.MsgGetNamespaceResponse
                    {| NSId := 0; Pid := 0; Fd := -1; Info := Str (Error err) |}]
      | (_, _, _, None) => True
      end
  end.
Proof.
  intros Hopen Hpeer res. subst res. rewrite handleGetNamespace_open by done. simpl.
  rewrite getNamespaceResponse_cases.
  destruct (Namespace.managers svr !! gnT r) as [mgr |]; [| done].
  by destruct (Namespace.mgr_Get (Arg r) mgr) as [[[[id fd] info] [err |]] mgr'].
Qed.

(** C10. The response to a [Get] carries the daemon's process id (which is
    not 0) exactly when the [Get] succeeded; when it failed, [Pid] and [NSId]
    are 0 and [Fd] is -1. *)
Theorem Pid_is_set_exactly_on_success
    (svr : Namespace.namespaceService M) (conn : Wire.Conn) (r : GetNamespaceRequest) :
  os_Getpid <> 0 ->
  Wire.closed conn = false -> Wire.peer_gone conn = false ->
  exists rsp,
    Wire.outbox (Namespace.handleGetNamespace os_Getpid svr conn r).2
      = Wire.outbox conn ++ [Wire.MsgGetNamespaceResponse rsp]
    /\ (Pid rsp = os_Getpid <-> getSucceeds svr r = true)
    /\ (getSucceeds svr r = false -> Pid rsp = 0 /\ NSId rsp = 0 /\ Fd rsp = -1).
Proof.
  intros Hpid Hopen Hpeer.
  exists (Namespace.getNamespaceResponse os_Getpid svr r).1.
  rewrite handleGetNamespace_open by done. simpl. split; [done |].
  unfold getSucceeds. rewrite getNamespaceResponse_cases.
  destruct (Namespace.managers svr !! gnT r) as [mgr |]; simpl.
  - destruct (Namespace.mgr_Get (Arg r) mgr) as [[[[id fd] info] [err |]] mgr']; simpl.
    + split; [split; [congruence | done] | done].
    + split; [done | done].
  - split; [split; [congruence | done] | done].
Qed.

End NamespaceClaims.

(** ** Concrete runs of the namespace service *)

(** C4 fails as worded: the request [Foo] is a well-formed method name, no
    body is read, nothing is answered and the connection is closed. *)
Lemma unknown_method_closes_connection : ~ every_request_answered_on_open_connection.
Proof.
  intros Hclaim.
  destruct (Hclaim GenericPool.Pool GenericPool.Pool_Manager Sample.daemonPid
              Sample.namespaceSvc [] (Sample.connWith [Wire.FrameString "Foo"])
              (OtherRequest "Foo") []) as [Hopen _];
    [reflexivity | reflexivity | reflexivity | by split |].
  vm_compute in Hopen. discriminate Hopen.
Qed.

(** A [Put] of an id that the pool never created is answered with the
    manager's error; the method [Foo] closes the connection. *)
Lemma Handle_answers_Get_and_Put_closes_on_unknown_method_witness :
  Namespace.Handle Sample.daemonPid Sample.namespaceSvc []
    (Sample.connWith [Wire.FrameString "Put";
                      Wire.FramePutNamespaceRequest {| pnT := UTS; ID := 7 |}])
  = (Sample.namespaceSvc, [],
     {| Wire.inbox := [];
        Wire.outbox := [Wire.MsgPutNamespaceResponse {| perror := "UnknownId" |}];
        Wire.closed := false; Wire.peer_gone := false |})
  /\ Namespace.Handle Sample.daemonPid Sample.namespaceSvc []
       (Sample.connWith [Wire.FrameString "Foo"; Wire.FrameGarbage])
     = (Sample.namespaceSvc, [EvLogError "Unknown method type"],
        {| Wire.inbox := [Wire.FrameGarbage]; Wire.outbox := [];
           Wire.closed := true; Wire.peer_gone := false |}).
Proof.
  split.
  - destruct (Handle_answers_Get_and_Put_closes_on_unknown_method Sample.daemonPid
                Sample.namespaceSvc []
                (Sample.connWith [Wire.FrameString "Put";
                                  Wire.FramePutNamespaceRequest {| pnT := UTS; ID := 7 |}])
                (PutRequest {| pnT := UTS; ID := 7 |}) [])
      as [HHandle _]; [reflexivity | reflexivity | reflexivity | exact I |].
    rewrite HHandle. vm_compute. reflexivity.
  - apply (Handle_answers_Get_and_Put_closes_on_unknown_method Sample.daemonPid
             Sample.namespaceSvc []
             (Sample.connWith [Wire.FrameString "Foo"; Wire.FrameGarbage])
             (OtherRequest "Foo") [Wire.FrameGarbage]);
      [reflexivity | reflexivity | reflexivity | by split].
Defined.

(** A [Get] for the type [net], which has no manager, and a [Get] on the
    mount pool of capacity 0, whose manager fails with [Exhausted]. *)
Lemma handleGetNamespace_unknown_type_and_manager_error_witness :
  (let res := Namespace.handleGetNamespace Sample.daemonPid Sample.namespaceSvc
                (Sample.connWith []) {| gnT := OtherNamespace "net"; Arg := Nil |} in
   Wire.outbox res.2 =
     [Wire.MsgGetNamespaceResponse
        {| NSId := 0; Pid := 0; Fd := -1; Info := Str "No such namespace" |}]
   /\ res.1.2 = Sample.namespaceSvc)
  /\ (let res := Namespace.handleGetNamespace Sample.daemonPid Sample.namespaceSvc
                   (Sample.connWith []) {| gnT := MNT; Arg := Nil |} in
      Wire.outbox res.2 =
        [Wire.MsgGetNamespaceResponse
           {| NSId := 0; Pid := 0; Fd := -1; Info := Str "Exhausted" |}]).
Proof.
  split.
  - exact (handleGetNamespace_unknown_type_and_manager_error Sample.daemonPid
             Sample.namespaceSvc (Sample.connWith [])
             {| gnT := OtherNamespace "net"; Arg := Nil |} eq_refl eq_refl).
  - exact (handleGetNamespace_unknown_type_and_manager_error Sample.daemonPid
             Sample.namespaceSvc (Sample.connWith [])
             {| gnT := MNT; Arg := Nil |} eq_refl eq_refl).
Defined.

(** A [Get] on the UTS pool, by the daemon of process id 4242. *)
Lemma Pid_is_set_exactly_on_success_witness :
  exists rsp,
    Wire.outbox (Namespace.handleGetNamespace Sample.daemonPid Sample.namespaceSvc
                   (Sample.connWith []) {| gnT := UTS; Arg := Nil |}).2
      = [Wire.MsgGetNamespaceResponse rsp]
    /\ (Pid rsp = Sample.daemonPid
        <-> getSucceeds Sample.namespaceSvc {| gnT := UTS; Arg := Nil |} = true)
    /\ (getSucceeds Sample.namespaceSvc {| gnT := UTS; Arg := Nil |} = false ->
        Pid rsp = 0 /\ NSId rsp = 0 /\ Fd rsp = -1).
Proof.
  apply (Pid_is_set_exactly_on_success Sample.daemonPid Sample.namespaceSvc
           (Sample.connWith []) {| gnT := UTS; Arg := Nil |});
    [discriminate | reflexivity | reflexivity].
Defined.

(** The first scenario of the specification: two [Get(UTS)] succeed, the
    third finds the pool exhausted. *)
Example three_Gets_on_a_pool_of_two :
  let get := Namespace.getNamespaceResponse Sample.daemonPid in
  let r := {| gnT := UTS; Arg := Nil |} in
  let s1 := (get Sample.namespaceSvc r).2 in
  let s2 := (get s1 r).2 in
  (get Sample.namespaceSvc r).1 = {| NSId := 0; Pid := 4242; Fd := 10; Info := Nil |}
  /\ (get s1 r).1 = {| NSId := 1; Pid := 4242; Fd := 11; Info := Nil |}
  /\ (get s2 r).1 = {| NSId := 0; Pid := 0; Fd := -1; Info := Str "Exhausted" |}.
Proof. vm_compute. split_and!; reflexivity. Qed.

(** ** The connection server *)

Section InboxFacts.

Context {M : Type} `{Namespace.Manager M}.

Variable os_Getpid : Z.
Variable os_MkdirAll : list Event -> string -> option error.
Variable Sprint_ServiceType : ServiceType -> string.

Lemma receive_inbox {A : Type} (decode : Wire.Frame -> option A) (c : Wire.Conn) :
  (length (Wire.inbox (Wire.receive decode c).2) <= length (Wire.inbox c))%nat.
Proof.
  unfold Wire.receive. destruct (Wire.closed c); [done |].
  destruct (Wire.inbox c) as [|f rest] eqn:E; simpl; [by rewrite E |].
  destruct (decode f); simpl; lia.
Qed.

Lemma receive_consumes {A : Type} (decode : Wire.Frame -> option A) (c c' : Wire.Conn) (a : A) :
  Wire.receive decode c = (inr a, c') ->
  (length (Wire.inbox c') < length (Wire.inbox c))%nat.
Proof.
  unfold Wire.receive. destruct (Wire.closed c); [done |].
  destruct (Wire.inbox c) as [|f rest]; [done |].
  destruct (decode f); [| done]. intros [= _ <-]. simpl. lia.
Qed.

Lemma send_inbox (m : Wire.Message) (c : Wire.Conn) :
  Wire.inbox (Wire.send m c).2 = Wire.inbox c.
Proof. unfold Wire.send. by destruct (Wire.closed c), (Wire.peer_gone c). Qed.

Lemma Namespace_Handle_inbox (svr : Namespace.namespaceService M) (tr : list Event)
    (conn : Wire.Conn) :
  (length (Wire.inbox (Namespace.Handle os_Getpid svr tr conn).2)
   <= length (Wire.inbox conn))%nat.
Proof.
  unfold Namespace.Handle.
  pose proof (receive_inbox Wire.asString conn) as H0.
  destruct (Wire.receive Wire.asString conn) as [[err | method] c0]; simpl in *; [done |].
  unfold Namespace.handleRequest.
  destruct (String.eqb method MethodGetNamespace).
  - pose proof (receive_inbox Wire.asGetNamespaceRequest c0) as H1.
    destruct (Wire.receive Wire.asGetNamespaceRequest c0) as [[err | r] c1]; simpl in *; [lia |].
    unfold Namespace.handleGetNamespace.
    destruct (Namespace.getNamespaceResponse os_Getpid svr r) as [rsp svr'].
    pose proof (send_inbox (Wire.MsgGetNamespaceResponse rsp) c1) as H2.
    destruct (Wire.send _ c1) as [[err |] c2]; simpl in *; rewrite H2; lia.
  - destruct (String.eqb method MethodPutNamespace); [| simpl; lia].
    pose proof (receive_inbox Wire.asPutNamespaceRequest c0) as H1.
    destruct (Wire.receive Wire.asPutNamespaceRequest c0) as [[err | r] c1]; simpl in *; [lia |].
    unfold Namespace.handlePutNamespace.
    destruct (Namespace.putNamespaceResponse svr r) as [rsp svr'].
    pose proof (send_inbox (Wire.MsgPutNamespaceResponse rsp) c1) as H2.
    destruct (Wire.send _ c1) as [[err |] c2]; simpl in *; rewrite H2; lia.
Qed.

Lemma Checkpoint_Handle_inbox (s : Checkpoint.service) (tr : list Event) (conn : Wire.Conn) :
  (length (Wire.inbox (Checkpoint.Handle os_MkdirAll s tr conn).2)
   <= length (Wire.inbox conn))%nat.
Proof.
  unfold Checkpoint.Handle, Checkpoint.router_Handle.
  pose proof (receive_inbox Wire.asString conn) as H0.
  destruct (Wire.receive Wire.asString conn) as [[err | method] c0]; simpl in *; [done |].
  destruct (decide _); [| simpl; lia].
  unfold Checkpoint.handleGetCheckpoint.
  pose proof (receive_inbox Wire.asGetCheckpointRequest c0) as H1.
  destruct (Wire.receive Wire.asGetCheckpointRequest c0) as [[err | r] c1]; simpl in *; [lia |].
  destruct (Checkpoint.Get os_MkdirAll (Ref r) s tr) as [[[path err] s1] tr1].
  pose proof (send_inbox (Wire.MsgGetCheckpointResponse {| Path := path |}) c1) as H2.
  destruct (Wire.send _ c1) as [[err' |] c2]; simpl in *; rewrite H2; lia.
Qed.

(** A turn of [serve] that does not return has read a frame. *)
Lemma serve_turn_inbox (s : Cermanager.Server M) (tr : list Event) (conn : Wire.Conn) :
  let res := Cermanager.serve_turn os_Getpid os_MkdirAll Sprint_ServiceType s tr conn in
  res.1.1.1 = false -> (length (Wire.inbox res.2) < length (Wire.inbox conn))%nat.
Proof.
  unfold Cermanager.serve_turn, Wire.ReceiveServiceType.
  pose proof (receive_consumes Wire.asServiceType conn) as Hcons.
  destruct (Wire.receive Wire.asServiceType conn) as [[err | svrType] c0]; [done |].
  specialize (Hcons c0 svrType eq_refl).
  destruct (Cermanager.services s !! svrType) as [svc |]; simpl; [| by intros _].
  assert (Hle : (length (Wire.inbox (Cermanager.Service_Handle os_Getpid os_MkdirAll
                                       svc tr c0).2) <= length (Wire.inbox c0))%nat).
  { destruct svc as [svr | cs]; simpl.
    - pose proof (Namespace_Handle_inbox svr tr c0).
      by destruct (Namespace.Handle os_Getpid svr tr c0) as [[? ?] ?].
    - pose proof (Checkpoint_Handle_inbox cs tr c0).
      by destruct (Checkpoint.Handle os_MkdirAll cs tr c0) as [[? ?] ?]. }
  destruct (Cermanager.Service_Handle os_Getpid os_MkdirAll svc tr c0) as [[svc' tr1] c1].
  simpl in *. intros _. lia.
Qed.

(** [serve] returns: every turn of its loop that does not return reads a
    frame, so a fuel above the number of frames waiting is enough. *)
Lemma serve_returns (fuel : nat) (ctx : nat -> bool) (n : nat) (s : Cermanager.Server M)
    (tr : list Event) (conn : Wire.Conn) :
  (length (Wire.inbox conn) < fuel)%nat ->
  is_Some (Cermanager.serve os_Getpid os_MkdirAll Sprint_ServiceType fuel ctx n s tr conn).
Proof.
  revert n s tr conn. induction fuel as [|fuel IH]; intros n s tr conn Hfuel; [lia |].
  simpl. pose proof (serve_turn_inbox s tr conn) as Hturn.
  destruct (Cermanager.serve_turn os_Getpid os_MkdirAll Sprint_ServiceType s tr conn)
    as [[[[|] s1] tr1] c1]; [done |].
  simpl in Hturn. specialize (Hturn eq_refl).
  destruct (ctx n); [done |]. apply IH. lia.
Qed.

(** The accept loop returns as well, when the fuel is enough for each of the
    connections. *)
Lemma Start_loop_returns (fuel : nat) (ctx_accept : nat -> bool) (ctx_conn : nat -> nat -> bool)
    (k : nat) (accepts : list (error + Wire.Conn)) (s : Cermanager.Server M)
    (tr : list Event) (errorC : list error) (served : list Wire.Conn) :
  (forall c, inr c ∈ accepts -> (length (Wire.inbox c) < fuel)%nat) ->
  is_Some (Cermanager.Start_loop os_Getpid os_MkdirAll Sprint_ServiceType fuel ctx_accept
             ctx_conn k accepts s tr errorC served).
Proof.
  revert k s tr served. induction accepts as [|[err | conn] accepts IH];
    intros k s tr served Hfuel; simpl; [done | done |].
  destruct (serve_returns fuel (ctx_conn k) 0 s tr conn) as [[[s1 tr1] c1] ->].
  { apply Hfuel, list_elem_of_here. }
  destruct (ctx_accept k); [done |]. apply IH.
  intros c Hc. by apply Hfuel, list_elem_of_further.
Qed.

End InboxFacts.

Section ServerClaims.

Context {M : Type} `{Namespace.Manager M}.

Variable os_Getpid : Z.
Variable os_MkdirAll : list Event -> string -> option error.
Variable Sprint_ServiceType : ServiceType -> string.

Abbreviation serve := (Cermanager.serve os_Getpid os_MkdirAll Sprint_ServiceType).
Abbreviation serve_turn := (Cermanager.serve_turn os_Getpid os_MkdirAll Sprint_ServiceType).
Abbreviation step := (Cermanager.step os_Getpid os_MkdirAll Sprint_ServiceType).
Abbreviation run := (Cermanager.run os_Getpid os_MkdirAll Sprint_ServiceType).

Lemma Handle_Get_or_Put (svr : Namespace.namespaceService M) (tr : list Event)
    (conn : Wire.Conn) (q : GetNamespaceRequest + PutNamespaceRequest)
    (rest : list Wire.Frame) :
  Wire.closed conn = false -> Wire.peer_gone conn = false ->
  Wire.inbox conn = frames (asRequest q) ++ rest ->
  Namespace.Handle os_Getpid svr tr conn =
    ((answer os_Getpid svr q).2, tr,
     {| Wire.inbox := rest; Wire.outbox := Wire.outbox conn ++ [(answer os_Getpid svr q).1];
        Wire.closed := false; Wire.peer_gone := false |}).
Proof.
  intros Hopen Hpeer Hin. destruct q as [r | r]; simpl in *.
  - unfold Namespace.Handle, Namespace.handleRequest, Wire.receive.
    rewrite Hopen, Hin. simpl. by rewrite handleGetNamespace_open.
  - unfold Namespace.Handle, Namespace.handleRequest, Wire.receive.
    rewrite Hopen, Hin. simpl. by rewrite handlePutNamespace_open.
Qed.


(** The turn of a goroutine whose peer has written a request to the namespace
    service, in any state of the server. *)
Lemma ServeTurn_answers_namespace (d : Cermanager.Started M) (j : nat) (conn : Wire.Conn)
    (q : GetNamespaceRequest + PutNamespaceRequest) (rest : list Wire.Frame)
    (svr : Namespace.namespaceService M) :
  Cermanager.st_group d !! j
    = Some {| Cermanager.g_conn := conn; Cermanager.g_stage := Cermanager.Receiving |} ->
  Wire.closed conn = false -> Wire.peer_gone conn = false ->
  Wire.inbox conn = Wire.FrameServiceType NamespaceService :: frames (asRequest q) ++ rest ->
  Cermanager.services (Cermanager.st_server d) !! NamespaceService
    = Some (Cermanager.NamespaceSvc svr) ->
  step (Cermanager.ServeTurn j) d =
    Some (Cermanager.set_goroutine d
            (Cermanager.set_services (Cermanager.st_server d)
               (<[NamespaceService := Cermanager.NamespaceSvc (answer os_Getpid svr q).2]>
                  (Cermanager.services (Cermanager.st_server d))))
            (Cermanager.st_trace d) j
            {| Cermanager.g_conn :=
                 {| Wire.inbox := rest;
                    Wire.outbox := Wire.outbox conn ++ [(answer os_Getpid svr q).1];
                    Wire.closed := false; Wire.peer_gone := false |};
               Cermanager.g_stage := Cermanager.Selecting |}).
Proof.
  intros Hj Hopen Hpeer Hin Hsvc. unfold Cermanager.step. rewrite Hj.
  unfold Cermanager.serve_turn, Wire.ReceiveServiceType, Wire.receive.
  rewrite Hopen, Hin. simpl. rewrite Hsvc. simpl.
  by rewrite (Handle_Get_or_Put svr _ _ q rest).
Qed.



End ServerClaims.

(** The server that [NewServer] builds and two connections served at the same
    time: the first names the service 7, the second asks the namespace service
    for a UTS namespace. The first is closed unanswered; the second is
    answered with the descriptor 10 and closed when the client has nothing
    more to say; nothing is sent on the error channel, and the accept loop
    waits for the next connection. *)
Example bad_connection_and_good_connection :
  let server := Cermanager.newServer Sample.namespaceSvc
                  (Sample.checkpointOn Sample.okProvider None) None in
  let bad := Sample.connWith [Wire.FrameServiceType (OtherService 7);
                              Wire.FrameServiceType NamespaceService] in
  let good := Sample.connWith [Wire.FrameServiceType NamespaceService;
                               Wire.FrameString "Get";
                               Wire.FrameGetNamespaceRequest {| gnT := UTS; Arg := Nil |}] in
  exists server',
    SampleDaemon.run
      [Cermanager.DoAccept; Cermanager.AcceptSelect; Cermanager.DoAccept;
       Cermanager.ServeTurn 0; Cermanager.ServeTurn 1; Cermanager.AcceptSelect;
       Cermanager.ServeSelect 1; Cermanager.ServeSelect 0;
       Cermanager.ServeTurn 0; Cermanager.ServeTurn 1]
      (Cermanager.Start server [] [inr bad; inr good])
    = Some {| Cermanager.st_server := server';
              Cermanager.st_trace := [EvLogError "invalid service type 7";
                                      EvLogError "invalid request"];
              Cermanager.st_done := false;
              Cermanager.st_errorC := [];
              Cermanager.st_listener := [];
              Cermanager.st_accept := Cermanager.Accepting;
              Cermanager.st_group :=
                [ {| Cermanager.g_conn :=
                       {| Wire.inbox := [Wire.FrameServiceType NamespaceService];
                          Wire.outbox := []; Wire.closed := true; Wire.peer_gone := false |};
                     Cermanager.g_stage := Cermanager.Returned |};
                  {| Cermanager.g_conn :=
                       {| Wire.inbox := [];
                          Wire.outbox := [Wire.MsgGetNamespaceResponse
                                            {| NSId := 0; Pid := 4242; Fd := 10;
                                               Info := Nil |}];
                          Wire.closed := true; Wire.peer_gone := false |};
                     Cermanager.g_stage := Cermanager.Returned |} ] |}.
Proof. eexists. vm_compute. reflexivity. Qed.


(** * Further properties of the code *)

(** ** The namespace configuration *)

Lemma mergeConfig_loop_rejects (ts : list NamespaceType) (to from : Namespace.serviceConfig) :
  existsb (negativeCapacity from) ts = true ->
  (Namespace.mergeConfig_loop ts to from).1 = Some (errors_New "negative namespace capacity").
Proof.
  revert to. induction ts as [|t ts IH]; intros to; simpl; [done |].
  unfold negativeCapacity at 1.
  destruct (Namespace.Capacity from !! t) as [v |].
  - destruct (v <? 0)%Z; simpl; [done |]. intros Hneg.
    destruct (Namespace.ExtraArgs from !! t); by apply IH.
  - simpl. intros Hneg. destruct (Namespace.ExtraArgs from !! t); by apply IH.
Qed.

Lemma mergeConfig_loop_merges (ts : list NamespaceType) (to from : Namespace.serviceConfig) :
  existsb (negativeCapacity from) ts = false ->
  let res := Namespace.mergeConfig_loop ts to from in
  res.1 = None
  /\ (forall t, Namespace.Capacity res.2 !! t
                = mergedAt ts (Namespace.Capacity to) (Namespace.Capacity from) t)
  /\ (forall t, Namespace.ExtraArgs res.2 !! t
                = mergedAt ts (Namespace.ExtraArgs to) (Namespace.ExtraArgs from) t).
Proof.
  revert to. induction ts as [|t ts IH]; intros to Hneg; simpl in *.
  - split_and!; [done | |]; intros t; unfold mergedAt;
      by rewrite bool_decide_eq_false_2 by apply not_elem_of_nil.
  - apply orb_false_iff in Hneg as [Ht Hts]. unfold negativeCapacity in Ht.
    set (to1 := match Namespace.Capacity from !! t with
                | Some v => {| Namespace.Capacity := <[t := v]> (Namespace.Capacity to);
                               Namespace.ExtraArgs := Namespace.ExtraArgs to |}
                | None => to
                end).
    set (to2 := match Namespace.ExtraArgs from !! t with
                | Some v => {| Namespace.Capacity := Namespace.Capacity to1;
                               Namespace.ExtraArgs := <[t := v]> (Namespace.ExtraArgs to1) |}
                | None => to1
                end).
    assert (E : Namespace.mergeConfig_loop (t :: ts) to from
                = Namespace.mergeConfig_loop ts to2 from).
    { simpl. subst to2 to1. destruct (Namespace.Capacity from !! t) as [v |]; [| done].
      by rewrite Ht. }
    simpl in E. rewrite E. destruct (IH to2 Hts) as (Herr & Hcap & Hargs).
    assert (Hcap2 : forall t', Namespace.Capacity to2 !! t'
              = mergedAt [t] (Namespace.Capacity to) (Namespace.Capacity from) t').
    { intros t'. subst to2 to1. unfold mergedAt.
      destruct (decide (t' = t)) as [-> | Hne].
      - rewrite bool_decide_eq_true_2 by apply list_elem_of_here.
        destruct (Namespace.ExtraArgs from !! t), (Namespace.Capacity from !! t); simpl;
          by rewrite ?lookup_insert_eq.
      - rewrite bool_decide_eq_false_2 by (by intros ?%list_elem_of_singleton).
        destruct (Namespace.ExtraArgs from !! t), (Namespace.Capacity from !! t); simpl;
          by rewrite ?lookup_insert_ne. }
    assert (Hargs2 : forall t', Namespace.ExtraArgs to2 !! t'
              = mergedAt [t] (Namespace.ExtraArgs to) (Namespace.ExtraArgs from) t').
    { intros t'. subst to2 to1. unfold mergedAt.
      destruct (decide (t' = t)) as [-> | Hne].
      - rewrite bool_decide_eq_true_2 by apply list_elem_of_here.
        destruct (Namespace.ExtraArgs from !! t), (Namespace.Capacity from !! t); simpl;
          by rewrite ?lookup_insert_eq.
      - rewrite bool_decide_eq_false_2 by (by intros ?%list_elem_of_singleton).
        destruct (Namespace.ExtraArgs from !! t), (Namespace.Capacity from !! t); simpl;
          by rewrite ?lookup_insert_ne. }
    assert (Hcombine : forall (V : Type) (a b c : gmap NamespaceType V) t',
              (forall t'', c !! t'' = mergedAt [t] a b t'') ->
              mergedAt ts c b t' = mergedAt (t :: ts) a b t').
    { intros V a b c t' Hc. unfold mergedAt. rewrite Hc. unfold mergedAt.
      destruct (decide (t' = t)) as [-> | Hne].
      - rewrite (bool_decide_eq_true_2 (t ∈ [t])) by apply list_elem_of_here.
        rewrite (bool_decide_eq_true_2 (t ∈ t :: ts)) by apply list_elem_of_here.
        destruct (bool_decide (t ∈ ts)); by destruct (b !! t).
      - rewrite (bool_decide_eq_false_2 (t' ∈ [t])) by (by intros ?%list_elem_of_singleton).
        destruct (decide (t' ∈ ts)) as [Hin | Hnin].
        + rewrite !bool_decide_eq_true_2; [done | by apply list_elem_of_further | done].
        + rewrite !bool_decide_eq_false_2; [done | | done].
          by intros [? | ?]%elem_of_cons. }
    split_and!; [done | |]; intros t'.
    + rewrite Hcap. by apply Hcombine.
    + rewrite Hargs. by apply Hcombine.
Qed.

Lemma mergeConfig_cases (to from : Namespace.serviceConfig) :
  if existsb (negativeCapacity from) mergedTypes
  then (Namespace.mergeConfig to from).1 = Some (errors_New "negative namespace capacity")
  else (Namespace.mergeConfig to from).1 = None
       /\ (forall t, Namespace.Capacity (Namespace.mergeConfig to from).2 !! t
                     = mergedAt mergedTypes (Namespace.Capacity to) (Namespace.Capacity from) t)
       /\ (forall t, Namespace.ExtraArgs (Namespace.mergeConfig to from).2 !! t
                     = mergedAt mergedTypes (Namespace.ExtraArgs to)
                         (Namespace.ExtraArgs from) t).
Proof.
  unfold Namespace.mergeConfig. fold mergedTypes.
  destruct (existsb (negativeCapacity from) mergedTypes) eqn:Hneg.
  - by apply mergeConfig_loop_rejects.
  - by apply mergeConfig_loop_merges.
Qed.

(** X1. [mergeConfig] fails, with the error [negative namespace capacity],
    exactly when the source gives IPC, MNT or UTS a negative capacity.
    Otherwise the capacity and the extra arguments of each of these three
    types are those of the source where it has them and those of the
    destination where it has not; the entries of any other type are those of
    the destination, whatever the source says of them. *)
Theorem mergeConfig_merges_or_rejects (to from : Namespace.serviceConfig) :
  let res := Namespace.mergeConfig to from in
  (res.1 = Some (errors_New "negative namespace capacity")
   <-> exists t v, t ∈ [IPC; MNT; UTS] /\ Namespace.Capacity from !! t = Some v /\ v < 0)
  /\ (res.1 = None \/ res.1 = Some (errors_New "negative namespace capacity"))
  /\ (res.1 = None ->
      forall t,
        (t ∈ [IPC; MNT; UTS] ->
           Namespace.Capacity res.2 !! t
             = from_option Some (Namespace.Capacity to !! t) (Namespace.Capacity from !! t)
           /\ Namespace.ExtraArgs res.2 !! t
             = from_option Some (Namespace.ExtraArgs to !! t) (Namespace.ExtraArgs from !! t))
        /\ (t ∉ [IPC; MNT; UTS] ->
             Namespace.Capacity res.2 !! t = Namespace.Capacity to !! t
             /\ Namespace.ExtraArgs res.2 !! t = Namespace.ExtraArgs to !! t)).
Proof.
  intros res. subst res. pose proof (mergeConfig_cases to from) as Hcases.
  assert (Hneg : existsb (negativeCapacity from) mergedTypes = true
                 <-> exists t v, t ∈ [IPC; MNT; UTS]
                                 /\ Namespace.Capacity from !! t = Some v /\ v < 0).
  { rewrite existsb_exists. unfold negativeCapacity, mergedTypes. split.
    - intros (t & Hin & Ht). apply list_elem_of_In in Hin.
      destruct (Namespace.Capacity from !! t) as [v |] eqn:Hv; [| done].
      exists t, v. split_and!; [done | done | lia].
    - intros (t & v & Hin & Hv & Hlt). exists t. rewrite <- list_elem_of_In, Hv.
      split; [done | lia]. }
  destruct (existsb (negativeCapacity from) mergedTypes).
  - rewrite Hcases. split_and!; [| by right | done]. split; [intros _; by apply Hneg | done].
  - destruct Hcases as (-> & Hcap & Hargs). split_and!; [| by left |].
    + split; [done |]. intros Hex. apply Hneg in Hex. done.
    + intros _ t. rewrite Hcap, Hargs. unfold mergedAt, mergedTypes. split; intros Ht.
      * rewrite !bool_decide_eq_true_2 by done.
        by destruct (Namespace.Capacity from !! t), (Namespace.ExtraArgs from !! t).
      * by rewrite !bool_decide_eq_false_2 by done.
Qed.

Section NamespaceNew.

Variable M : Type.
Variable json_Unmarshal_serviceConfig :
  string -> Namespace.serviceConfig -> Namespace.serviceConfig * option error.

Abbreviation namespace_New := (Namespace.New (M := M) json_Unmarshal_serviceConfig).

Abbreviation zeroConfig := {| Namespace.Capacity := ∅; Namespace.ExtraArgs := ∅ |}.

(** X2. When the configuration file is there and decodes without error:
    [New] fails with [negative namespace capacity] if the file gives IPC, MNT
    or UTS a negative capacity; otherwise it returns a service without
    managers, in which each of the three types has the capacity of the file,
    or 5 where the file has none, and the extra arguments of the file; a type
    other than these three has no entry, whatever the file says. *)
Theorem namespace_New_reads_the_file
    (fs : gmap string Node) (root0 content : string) (c : Namespace.serviceConfig) :
  fs !! GoPath.Join [root0; "namespace_service.json"] = Some (File content) ->
  json_Unmarshal_serviceConfig content zeroConfig = (c, None) ->
  if existsb (negativeCapacity c) mergedTypes
  then namespace_New fs root0 = inl (errors_New "negative namespace capacity")
  else exists svr,
         namespace_New fs root0 = inr svr
         /\ Namespace.managers svr = ∅
         /\ Namespace.root svr = root0
         /\ (forall t, Namespace.Capacity (Namespace.config svr) !! t
                       = if bool_decide (t ∈ mergedTypes)
                         then Some (default 5 (Namespace.Capacity c !! t))
                         else None)
         /\ (forall t, Namespace.ExtraArgs (Namespace.config svr) !! t
                       = if bool_decide (t ∈ mergedTypes)
                         then Namespace.ExtraArgs c !! t
                         else None).
Proof.
  intros Hfile Hjson. unfold Namespace.New, os_Stat, ioutil_ReadFile.
  rewrite Hfile, Hjson.
  pose proof (mergeConfig_cases Namespace.defaultConfig c) as Hmerge.
  destruct (existsb (negativeCapacity c) mergedTypes).
  - destruct (Namespace.mergeConfig Namespace.defaultConfig c) as [err cfg].
    simpl in Hmerge. by rewrite Hmerge.
  - destruct (Namespace.mergeConfig Namespace.defaultConfig c) as [err cfg].
    simpl in Hmerge. destruct Hmerge as (-> & Hcap & Hargs).
    eexists. split_and!; [done | done | done | |]; intros t; simpl.
    + rewrite Hcap. unfold mergedAt, mergedTypes.
      destruct (bool_decide_reflect (t ∈ [IPC; MNT; UTS])) as [Hin | Hnin].
      * destruct (Namespace.Capacity c !! t); [done |]. simpl.
        repeat (apply elem_of_cons in Hin as [-> | Hin]; [done |]).
        by apply elem_of_nil in Hin.
      * unfold Namespace.defaultConfig. simpl.
        rewrite !lookup_insert_ne, lookup_empty; [done | | |];
          intros <-; apply Hnin; set_solver.
    + rewrite Hargs. unfold mergedAt, mergedTypes.
      destruct (bool_decide (t ∈ [IPC; MNT; UTS])); [| done].
      by destruct (Namespace.ExtraArgs c !! t).
Qed.

Lemma namespace_New_inr
    (fs : gmap string Node) (root0 : string) (svr : Namespace.namespaceService M)
    (t : NamespaceType) :
  namespace_New fs root0 = inr svr ->
  t ∈ mergedTypes ->
  Namespace.managers svr = ∅
  /\ Namespace.root svr = root0
  /\ exists v, Namespace.Capacity (Namespace.config svr) !! t = Some v /\ 0 <= v.
Proof.
  intros Hnew Ht.
  assert (Hdefault : exists v, Namespace.Capacity Namespace.defaultConfig !! t = Some v
                               /\ 0 <= v).
  { exists 5. split; [| lia]. unfold mergedTypes in Ht.
    repeat (apply elem_of_cons in Ht as [-> | Ht]; [done |]). by apply elem_of_nil in Ht. }
  revert Hnew. unfold Namespace.New.
  destruct (os_Stat fs _) as [err |].
  - destruct (negb (os_IsNotExist err)); [done |]. by intros [= <-].
  - destruct (ioutil_ReadFile fs _) as [? | content]; [done |].
    destruct (json_Unmarshal_serviceConfig content _) as [c [e |]] eqn:Hjson; [done |].
    pose proof (mergeConfig_cases Namespace.defaultConfig c) as Hmerge.
    destruct (Namespace.mergeConfig Namespace.defaultConfig c) as [[e |] cfg]; [done |].
    intros [= <-]. cbn [fst snd] in Hmerge. simpl.
    split_and!; [done | done |].
    destruct (existsb (negativeCapacity c) mergedTypes) eqn:Hneg; [done |].
    destruct Hmerge as (_ & Hcap & _). rewrite Hcap. unfold mergedAt.
    rewrite bool_decide_eq_true_2 by done.
    destruct (Namespace.Capacity c !! t) as [v |] eqn:Hv; [| done].
    exists v. split; [done |].
    assert (Hnot : negativeCapacity c t = false).
    { destruct (negativeCapacity c t) eqn:Hn; [| done].
      assert (existsb (negativeCapacity c) mergedTypes = true); [| congruence].
      apply existsb_exists. exists t. by rewrite <- list_elem_of_In. }
    unfold negativeCapacity in Hnot. rewrite Hv in Hnot. lia.
Qed.

(** X3. Every service that [New] returns has no manager yet, has the root it
    was given, and has a capacity for each of UTS, IPC and MNT, none of them
    negative. *)
Theorem namespace_New_capacities_not_negative
    (fs : gmap string Node) (root0 : string) (svr : Namespace.namespaceService M) :
  namespace_New fs root0 = inr svr ->
  Namespace.managers svr = ∅
  /\ Namespace.root svr = root0
  /\ exists u i m,
       Namespace.Capacity (Namespace.config svr) !! UTS = Some u
       /\ Namespace.Capacity (Namespace.config svr) !! IPC = Some i
       /\ Namespace.Capacity (Namespace.config svr) !! MNT = Some m
       /\ 0 <= u /\ 0 <= i /\ 0 <= m.
Proof.
  intros Hnew.
  destruct (namespace_New_inr fs root0 svr UTS Hnew) as (Hm & Hr & u & Hu & ?);
    [unfold mergedTypes; set_solver |].
  destruct (namespace_New_inr fs root0 svr IPC Hnew) as (_ & _ & i & Hi & ?);
    [unfold mergedTypes; set_solver |].
  destruct (namespace_New_inr fs root0 svr MNT Hnew) as (_ & _ & m & Hmnt & ?);
    [unfold mergedTypes; set_solver |].
  split_and!; [done | done |]. exists u, i, m. by split_and!.
Qed.

(** X4. A configuration file that is there but cannot be examined or read,
    or that the decoder rejects, makes [New] fail with that very error: unlike
    the checkpoint service, the namespace service is never built from a file
    that failed to decode. *)
Theorem namespace_New_fails_on_a_bad_file
    (fs : gmap string Node) (root0 : string) (node : Node) :
  fs !! GoPath.Join [root0; "namespace_service.json"] = Some node ->
  match node with
  | StatFails why => namespace_New fs root0 = inl (errors_New why)
  | ReadFails why => namespace_New fs root0 = inl (errors_New why)
  | File content =>
      forall c e, json_Unmarshal_serviceConfig content zeroConfig = (c, Some e) ->
                  namespace_New fs root0 = inl e
  end.
Proof.
  intros Hnode. unfold Namespace.New, os_Stat, ioutil_ReadFile. rewrite Hnode.
  destruct node as [content | why | why]; [| done | done].
  intros c e Hjson. by rewrite Hjson.
Qed.

End NamespaceNew.

(** ** The namespace service on any connection *)

Section WireFacts.

Lemma receive_keeps {A : Type} (decode : Wire.Frame -> option A) (c : Wire.Conn) :
  Wire.outbox (Wire.receive decode c).2 = Wire.outbox c
  /\ Wire.closed (Wire.receive decode c).2 = Wire.closed c
  /\ Wire.peer_gone (Wire.receive decode c).2 = Wire.peer_gone c.
Proof.
  unfold Wire.receive. destruct (Wire.closed c) eqn:Hc; [done |].
  destruct (Wire.inbox c) as [|f rest]; [done |]. by destruct (decode f).
Qed.

Lemma send_cases (m : Wire.Message) (c : Wire.Conn) :
  (Wire.closed c = false /\ Wire.peer_gone c = false
   /\ Wire.send m c =
        (None, {| Wire.inbox := Wire.inbox c; Wire.outbox := Wire.outbox c ++ [m];
                  Wire.closed := false; Wire.peer_gone := false |}))
  \/ ((Wire.closed c = true \/ Wire.peer_gone c = true)
      /\ exists err, Wire.send m c = (Some err, c)).
Proof.
  unfold Wire.send. destruct (Wire.closed c) eqn:Hc; [right; eauto |].
  destruct (Wire.peer_gone c) eqn:Hp; [right; eauto |]. left. done.
Qed.

End WireFacts.

Section NamespaceHandle.

Context {M : Type} `{Namespace.Manager M}.

Variable os_Getpid : Z.

Abbreviation ns_Handle := (Namespace.Handle os_Getpid).

(** X5. Whatever the state of the connection and whatever the peer wrote,
    [Handle] does one of two things: it writes exactly one response, logs
    nothing and leaves the connection open; or it writes nothing, logs exactly
    one error and closes the connection. *)
Theorem namespace_Handle_answers_or_closes
    (svr : Namespace.namespaceService M) (tr : list Event) (conn : Wire.Conn) :
  let res := ns_Handle svr tr conn in
  ((exists m, Wire.outbox res.2 = Wire.outbox conn ++ [m])
   /\ Wire.closed res.2 = false /\ res.1.2 = tr)
  \/ (Wire.outbox res.2 = Wire.outbox conn
      /\ Wire.closed res.2 = true /\ exists msg, res.1.2 = tr ++ [EvLogError msg]).
Proof.
  intros res. subst res. unfold Namespace.Handle.
  destruct (receive_keeps Wire.asString conn) as (Ho0 & Hc0 & Hp0).
  destruct (Wire.receive Wire.asString conn) as [[err | method] c0]; simpl in *.
  { right. eauto. }
  unfold Namespace.handleRequest.
  destruct (String.eqb method MethodGetNamespace).
  - destruct (receive_keeps Wire.asGetNamespaceRequest c0) as (Ho1 & Hc1 & Hp1).
    destruct (Wire.receive Wire.asGetNamespaceRequest c0) as [[err | r] c1]; simpl in *.
    { right. split_and!; [congruence | done | eauto]. }
    unfold Namespace.handleGetNamespace.
    destruct (Namespace.getNamespaceResponse os_Getpid svr r) as [rsp svr'].
    destruct (send_cases (Wire.MsgGetNamespaceResponse rsp) c1)
      as [(_ & _ & ->) | (_ & err & ->)]; simpl.
    + left. split_and!; [| done..]. eexists. by rewrite Ho1, Ho0.
    + right. split_and!; [congruence | done | eauto].
  - destruct (String.eqb method MethodPutNamespace).
    + destruct (receive_keeps Wire.asPutNamespaceRequest c0) as (Ho1 & Hc1 & Hp1).
      destruct (Wire.receive Wire.asPutNamespaceRequest c0) as [[err | r] c1]; simpl in *.
      { right. split_and!; [congruence | done | eauto]. }
      unfold Namespace.handlePutNamespace.
      destruct (Namespace.putNamespaceResponse svr r) as [rsp svr'].
      destruct (send_cases (Wire.MsgPutNamespaceResponse rsp) c1)
        as [(_ & _ & ->) | (_ & err & ->)]; simpl.
      * left. split_and!; [| done..]. eexists. by rewrite Ho1, Ho0.
      * right. split_and!; [congruence | done | eauto].
    + simpl. right. split_and!; [done | done | eauto].
Qed.

Lemma getNamespaceResponse_frame (svr : Namespace.namespaceService M) (r : GetNamespaceRequest) :
  let svr' := (Namespace.getNamespaceResponse os_Getpid svr r).2 in
  Namespace.config svr' = Namespace.config svr
  /\ Namespace.root svr' = Namespace.root svr
  /\ dom (Namespace.managers svr') = dom (Namespace.managers svr)
  /\ (forall t, t <> gnT r -> Namespace.managers svr' !! t = Namespace.managers svr !! t).
Proof.
  unfold Namespace.getNamespaceResponse.
  destruct (Namespace.managers svr !! gnT r) as [mgr |] eqn:Hmgr; simpl; [| done].
  destruct (Namespace.mgr_Get (Arg r) mgr) as [[[[id fd] info] err] mgr'].
  assert (Hdom : dom (<[gnT r := mgr']> (Namespace.managers svr))
                 = dom (Namespace.managers svr)).
  { rewrite dom_insert_L. apply (elem_of_dom_2 (D := gset NamespaceType)) in Hmgr. set_solver. }
  destruct err; simpl; (split_and!; [done | done | done |]);
    intros t Hne; by rewrite lookup_insert_ne.
Qed.

Lemma putNamespaceResponse_frame (svr : Namespace.namespaceService M) (r : PutNamespaceRequest) :
  let svr' := (Namespace.putNamespaceResponse svr r).2 in
  Namespace.config svr' = Namespace.config svr
  /\ Namespace.root svr' = Namespace.root svr
  /\ dom (Namespace.managers svr') = dom (Namespace.managers svr)
  /\ (forall t, t <> pnT r -> Namespace.managers svr' !! t = Namespace.managers svr !! t).
Proof.
  unfold Namespace.putNamespaceResponse.
  destruct (Namespace.managers svr !! pnT r) as [mgr |] eqn:Hmgr; simpl; [| done].
  destruct (Namespace.mgr_Put (ID r) mgr) as [err mgr'].
  assert (Hdom : dom (<[pnT r := mgr']> (Namespace.managers svr))
                 = dom (Namespace.managers svr)).
  { rewrite dom_insert_L. apply (elem_of_dom_2 (D := gset NamespaceType)) in Hmgr. set_solver. }
  destruct err; simpl; (split_and!; [done | done | done |]);
    intros t Hne; by rewrite lookup_insert_ne.
Qed.

(** X6. [Handle] never registers or removes a manager and never changes the
    configuration or the root; and one call changes the state of one manager
    at most. *)
Theorem namespace_Handle_touches_one_manager
    (svr : Namespace.namespaceService M) (tr : list Event) (conn : Wire.Conn) :
  let svr' := (ns_Handle svr tr conn).1.1 in
  Namespace.config svr' = Namespace.config svr
  /\ Namespace.root svr' = Namespace.root svr
  /\ dom (Namespace.managers svr') = dom (Namespace.managers svr)
  /\ exists t, forall t', t' <> t ->
       Namespace.managers svr' !! t' = Namespace.managers svr !! t'.
Proof.
  intros svr'. subst svr'. unfold Namespace.Handle.
  assert (Hsame : Namespace.config svr = Namespace.config svr
                  /\ Namespace.root svr = Namespace.root svr
                  /\ dom (Namespace.managers svr) = dom (Namespace.managers svr)
                  /\ exists t : NamespaceType, forall t', t' <> t ->
                       Namespace.managers svr !! t' = Namespace.managers svr !! t').
  { split_and!; [done.. |]. by exists UTS. }
  destruct (Wire.receive Wire.asString conn) as [[err | method] c0]; simpl; [done |].
  unfold Namespace.handleRequest.
  destruct (String.eqb method MethodGetNamespace).
  - destruct (Wire.receive Wire.asGetNamespaceRequest c0) as [[err | r] c1]; simpl; [done |].
    unfold Namespace.handleGetNamespace.
    pose proof (getNamespaceResponse_frame svr r) as (? & ? & ? & ?).
    destruct (Namespace.getNamespaceResponse os_Getpid svr r) as [rsp svr1].
    destruct (Wire.send _ c1) as [[err |] c2]; simpl in *; split_and!; eauto.
  - destruct (String.eqb method MethodPutNamespace); [| done].
    destruct (Wire.receive Wire.asPutNamespaceRequest c0) as [[err | r] c1]; simpl; [done |].
    unfold Namespace.handlePutNamespace.
    pose proof (putNamespaceResponse_frame svr r) as (? & ? & ? & ?).
    destruct (Namespace.putNamespaceResponse svr r) as [rsp svr1].
    destruct (Wire.send _ c1) as [[err |] c2]; simpl in *; split_and!; eauto.
Qed.

(** X7. When the peer has gone away, a [Get] request that was read in full is
    still carried out: the manager's [Get] is called and its new state kept,
    although the response is not written; the write error is logged and the
    connection closed. What the manager handed out is not given back. *)
Theorem namespace_Get_is_done_even_if_unanswered
    (svr : Namespace.namespaceService M) (tr : list Event) (conn : Wire.Conn)
    (r : GetNamespaceRequest) (rest : list Wire.Frame) :
  Wire.closed conn = false -> Wire.peer_gone conn = true ->
  Wire.inbox conn = frames (GetRequest r) ++ rest ->
  ns_Handle svr tr conn =
    ((Namespace.getNamespaceResponse os_Getpid svr r).2,
     tr ++ [EvLogError (Error Wire.errBrokenPipe)],
     {| Wire.inbox := rest; Wire.outbox := Wire.outbox conn;
        Wire.closed := true; Wire.peer_gone := true |}).
Proof.
  intros Hopen Hpeer Hin. simpl in Hin.
  unfold Namespace.Handle, Namespace.handleRequest, Wire.receive.
  rewrite Hopen, Hin. simpl. unfold Namespace.handleGetNamespace.
  destruct (Namespace.getNamespaceResponse os_Getpid svr r) as [rsp svr'].
  unfold Wire.send. simpl. rewrite Hpeer. done.
Qed.


End NamespaceHandle.

(** ** The checkpoint service: more on [Get] *)

Lemma Clean_not_empty (p : string) : GoPath.Clean p <> "".
Proof.
  unfold GoPath.Clean. destruct (String.eqb p ""); [done |].
  destruct (GoPath.is_rooted p); [done |].
  destruct (String.eqb_spec (GoPath.join_slash
              (rev (fold_left (GoPath.clean_step false) (GoPath.components p) []))) "");
    done.
Qed.

Lemma Join_not_empty (root0 ref : string) : ref <> "" -> GoPath.Join [root0; ref] <> "".
Proof.
  intros Href. unfold GoPath.Join.
  destruct (String.eqb root0 ""); [| apply Clean_not_empty].
  destruct (String.eqb_spec ref ""); [done | apply Clean_not_empty].
Qed.

Section CheckpointMore.

Variable os_MkdirAll : list Event -> string -> option error.

Abbreviation cp_Get := (Checkpoint.Get os_MkdirAll).
Abbreviation cp_Gets := (Checkpoint.Gets os_MkdirAll).
Abbreviation cp_handleGetCheckpoint := (Checkpoint.handleGetCheckpoint os_MkdirAll).

(** X9. Once [Get(ref1)] has succeeded, a [Get(ref2)] whose path joined with
    the root is the same, in particular a second [Get(ref1)], returns that
    path at once: no [MkdirAll], no [Prepare], and the service is unchanged. *)
Theorem Get_again_returns_at_once
    (ref1 ref2 path : string) (s s' : Checkpoint.service) (tr tr' : list Event) :
  cp_Get ref1 s tr = ((path, None), s', tr') ->
  ref2 <> "" ->
  GoPath.Join [Checkpoint.root s; ref2] = GoPath.Join [Checkpoint.root s; ref1] ->
  cp_Get ref2 s' tr' = ((path, None), s', tr').
Proof.
  intros Hget Hne Hjoin.
  assert (Hin : Checkpoint.root s' = Checkpoint.root s
                /\ path = GoPath.Join [Checkpoint.root s; ref1]
                /\ path ∈ Checkpoint.targets s').
  { pose proof (Get_cases os_MkdirAll ref1 s tr) as Hcase. rewrite Hget in Hcase.
    inversion Hcase; subst; simpl; split_and!; try done. set_solver. }
  destruct Hin as (Hroot & -> & Hin).
  unfold Checkpoint.Get. destruct (String.eqb_spec ref2 ""); [done |].
  rewrite Hroot, Hjoin. by rewrite decide_True.
Qed.

(** X10. [Get] never changes the root, the provider, the reference manager
    or the router, never forgets a target and only adds to the trace. When it
    fails the service is exactly as before; when it succeeds the targets are
    the former ones and the path returned. *)
Theorem Get_keeps_the_service_or_adds_the_target
    (ref : string) (s : Checkpoint.service) (tr : list Event) :
  let res := cp_Get ref s tr in
  Checkpoint.root res.1.2 = Checkpoint.root s
  /\ Checkpoint.router res.1.2 = Checkpoint.router s
  /\ Checkpoint.provider res.1.2 = Checkpoint.provider s
  /\ Checkpoint.referenceMgr res.1.2 = Checkpoint.referenceMgr s
  /\ (exists new, res.2 = tr ++ new)
  /\ match res.1.1.2 with
     | Some _ => res.1.2 = s /\ res.1.1.1 = ""
     | None => Checkpoint.targets res.1.2 = {[res.1.1.1]} ∪ Checkpoint.targets s
     end.
Proof.
  intros res. subst res.
  destruct (Get_cases os_MkdirAll ref s tr); simpl; split_and!; try done;
    try (by exists []; rewrite app_nil_r); try (by eexists);
    try (by rewrite <- app_assoc; eexists).
  set_solver.
Qed.

(** The calls of [Prepare] in a trace were made as [Get] makes them. *)
Lemma Get_prepares_after_mkdir (root0 : string) (ref : string) (s : Checkpoint.service)
    (tr : list Event) :
  Checkpoint.root s = root0 ->
  (forall tr1 r t o tr2, tr = tr1 ++ EvPrepare r t o :: tr2 ->
     r <> "" /\ t = GoPath.Join [root0; r] /\ exists tr0, tr1 = tr0 ++ [EvMkdirAll t None]) ->
  forall tr1 r t o tr2, (cp_Get ref s tr).2 = tr1 ++ EvPrepare r t o :: tr2 ->
    r <> "" /\ t = GoPath.Join [root0; r] /\ exists tr0, tr1 = tr0 ++ [EvMkdirAll t None].
Proof.
  intros Hroot Hwf tr1 r t o tr2.
  destruct (Get_cases os_MkdirAll ref s tr) as [? | ? ? | err ? Hnin | err ? Hnin | ? Hnin];
    simpl; try (by apply Hwf).
  - intros [(_ & _ & ?) | (tr2' & -> & E)]%snoc_split; [done |]. by eapply Hwf.
  - intros [(_ & <- & E) | (tr2' & -> & E)]%snoc_split.
    + injection E as <- <- <-. rewrite Hroot. eauto.
    + apply snoc_split in E as [(_ & _ & ?) | (tr2'' & -> & E)]; [done |]. by eapply Hwf.
  - intros [(_ & <- & E) | (tr2' & -> & E)]%snoc_split.
    + injection E as <- <- <-. rewrite Hroot. eauto.
    + apply snoc_split in E as [(_ & _ & ?) | (tr2'' & -> & E)]; [done |]. by eapply Hwf.
Qed.

(** X11. In the trace of any sequence of [Get] calls, every call of
    [Prepare] has a ref that is not empty and the target joined from the root
    and that ref, and comes right after a successful [MkdirAll] of that
    target. *)
Theorem Prepare_follows_MkdirAll_of_its_target
    (refs : list string) (s : Checkpoint.service)
    (tr1 tr2 : list Event) (r t : string) (o : option error) :
  (cp_Gets refs s []).2 = tr1 ++ EvPrepare r t o :: tr2 ->
  r <> "" /\ t = GoPath.Join [Checkpoint.root s; r]
  /\ exists tr0, tr1 = tr0 ++ [EvMkdirAll t None].
Proof.
  assert (Hgen : forall refs s tr,
            (forall tr1 r t o tr2, tr = tr1 ++ EvPrepare r t o :: tr2 ->
               r <> "" /\ t = GoPath.Join [Checkpoint.root s; r]
               /\ exists tr0, tr1 = tr0 ++ [EvMkdirAll t None]) ->
            forall tr1 r t o tr2, (cp_Gets refs s tr).2 = tr1 ++ EvPrepare r t o :: tr2 ->
               r <> "" /\ t = GoPath.Join [Checkpoint.root s; r]
               /\ exists tr0, tr1 = tr0 ++ [EvMkdirAll t None]).
  { clear. induction refs as [|ref refs IH]; intros s tr Hwf; simpl; [done |].
    pose proof (Get_prepares_after_mkdir (Checkpoint.root s) ref s tr eq_refl Hwf) as Hwf1.
    pose proof (Get_root os_MkdirAll ref s tr) as Hroot.
    destruct (Checkpoint.Get os_MkdirAll ref s tr) as [[res s1] tr1]. simpl in *.
    specialize (IH s1 tr1). rewrite Hroot in IH. specialize (IH Hwf1).
    by destruct (Checkpoint.Gets os_MkdirAll refs s1 tr1) as [[out s2] tr2]. }
  apply Hgen. by intros [|? ?] ? ? ? ? ?.
Qed.

(** X12. A [GetCheckpoint] request that was decoded, on a connection that
    can be written, is always answered, and the [Path] of the response is
    empty exactly when [Get] failed: otherwise it is the path [Get] returned,
    which is never empty. *)
Theorem GetCheckpoint_path_is_empty_exactly_on_failure
    (s : Checkpoint.service) (tr : list Event) (c c1 : Wire.Conn) (r : GetCheckpointRequest) :
  Wire.closed c = false -> Wire.peer_gone c = false ->
  Wire.receive Wire.asGetCheckpointRequest c = (inr r, c1) ->
  let get := cp_Get (Ref r) s tr in
  let res := cp_handleGetCheckpoint s tr c in
  res.1.1.1 = None
  /\ Wire.outbox res.2
     = Wire.outbox c ++ [Wire.MsgGetCheckpointResponse {| Path := get.1.1.1 |}]
  /\ Wire.closed res.2 = false
  /\ (get.1.1.1 = "" <-> get.1.1.2 <> None).
Proof.
  intros Hopen Hpeer Hrecv get res. subst get res.
  destruct (receive_keeps Wire.asGetCheckpointRequest c) as (Ho & Hc & Hp).
  rewrite Hrecv in Ho, Hc, Hp. simpl in *.
  unfold Checkpoint.handleGetCheckpoint. rewrite Hrecv.
  pose proof (Get_cases os_MkdirAll (Ref r) s tr) as Hcase.
  destruct (Checkpoint.Get os_MkdirAll (Ref r) s tr) as [[[path err] s1] tr1]. simpl.
  rewrite send_open by congruence. simpl. split_and!; [done | by rewrite Ho | done |].
  inversion Hcase; subst; try done; split; try done;
    intros Hempty; exfalso; by eapply Join_not_empty.
Qed.

(** X13. When the response cannot be written because the peer has gone, the
    handler returns the error, but what [Get] did stays done: a target that
    was prepared is kept, and the next [Get] of the ref returns it without
    preparing it again. *)
Theorem GetCheckpoint_keeps_the_target_when_unanswered
    (s : Checkpoint.service) (tr : list Event) (c c1 : Wire.Conn) (r : GetCheckpointRequest)
    (path : string) :
  Wire.closed c = false -> Wire.peer_gone c = true ->
  Wire.receive Wire.asGetCheckpointRequest c = (inr r, c1) ->
  (cp_Get (Ref r) s tr).1.1 = (path, None) ->
  let res := cp_handleGetCheckpoint s tr c in
  res.1.1.1 = Some Wire.errBrokenPipe
  /\ Wire.outbox res.2 = Wire.outbox c
  /\ path ∈ Checkpoint.targets res.1.1.2
  /\ cp_Get (Ref r) res.1.1.2 res.1.2 = ((path, None), res.1.1.2, res.1.2).
Proof.
  intros Hopen Hpeer Hrecv Hget res. subst res.
  destruct (receive_keeps Wire.asGetCheckpointRequest c) as (Ho & Hc & Hp).
  rewrite Hrecv in Ho, Hc, Hp. simpl in *.
  unfold Checkpoint.handleGetCheckpoint. rewrite Hrecv.
  pose proof (Get_cases os_MkdirAll (Ref r) s tr) as Hcase.
  destruct (Checkpoint.Get os_MkdirAll (Ref r) s tr) as [[[path' err] s1] tr1] eqn:EG.
  simpl in Hget. injection Hget as -> ->.
  unfold Wire.send. rewrite Hc, Hopen, Hp, Hpeer. simpl.
  assert (Hin : path ∈ Checkpoint.targets s1 /\ Checkpoint.root s1 = Checkpoint.root s
                /\ path = GoPath.Join [Checkpoint.root s; Ref r] /\ Ref r <> "").
  { inversion Hcase; subst; simpl; split_and!; try done. set_solver. }
  destruct Hin as (Hin & Hroot & Hpath & Hne).
  split_and!; [done | done | done |].
  unfold Checkpoint.Get. destruct (String.eqb_spec (Ref r) ""); [done |].
  rewrite Hroot, <- Hpath. by rewrite decide_True.
Qed.

End CheckpointMore.

(** ** The checkpoint service: construction and [Handle] *)

Section CheckpointNew.

Variables CcfsConfig ContainerdConfig : Type.
Variable json_Unmarshal_config : string -> Checkpoint.config -> Checkpoint.config * option error.
Variable json_Unmarshal_ccfs : Checkpoint.RawMessage -> error + CcfsConfig.
Variable json_Unmarshal_containerd : Checkpoint.RawMessage -> error + ContainerdConfig.
Variable ccfs_NewProvider : CcfsConfig -> error + Provider.
Variable containerd_NewProvider : ContainerdConfig -> error + Provider.

Abbreviation cp_New :=
  (Checkpoint.New CcfsConfig ContainerdConfig json_Unmarshal_config json_Unmarshal_ccfs
     json_Unmarshal_containerd ccfs_NewProvider containerd_NewProvider).

(** X14. An error of [New] is always a wrapped one, either [failed to read
    config file] or [failed to create provider]. A service that [New] returns
    has the root joined from the given root and [checkpoint], no target and no
    handler yet, and its reference manager, when it has one, is its
    provider. *)
Theorem checkpoint_New_outcomes (fs : gmap string Node) (root0 : string) :
  match cp_New fs root0 with
  | inl err =>
      exists e, err = errors_Wrap e "failed to read config file"
                \/ err = errors_Wrap e "failed to create provider"
  | inr s =>
      Checkpoint.root s = GoPath.Join [root0; "checkpoint"]
      /\ Checkpoint.targets s = ∅
      /\ Checkpoint.router s = ∅
      /\ (Checkpoint.referenceMgr s = None
          \/ Checkpoint.referenceMgr s = Some (Checkpoint.provider s))
  end.
Proof.
  unfold Checkpoint.New.
  destruct (ioutil_ReadFile fs _) as [e | content]; [exists e; by left |].
  destruct (json_Unmarshal_config content _) as [c o].
  destruct (Checkpoint.initProvider CcfsConfig ContainerdConfig json_Unmarshal_ccfs
              json_Unmarshal_containerd ccfs_NewProvider containerd_NewProvider c)
    as [e | [p rm]] eqn:Hinit; [exists e; by right |].
  simpl. split_and!; [done.. |].
  apply initProvider_referenceMgr in Hinit as [[_ ->] | [_ ->]]; auto.
Qed.

(** X15. When the decoder leaves in the configuration a type that is neither
    [ccfs] nor [containerd] (no type at all, or a name in other letters),
    [New] fails with [failed to create provider: invalid provider type], and
    none of the providers' decoders and constructors decides of it. *)
Theorem checkpoint_New_rejects_other_types
    (fs : gmap string Node) (root0 content : string) (c : Checkpoint.config)
    (o : option error) :
  ioutil_ReadFile fs (GoPath.Join [root0; "checkpoint_service.json"]) = inr content ->
  json_Unmarshal_config content {| Checkpoint.Type_ := ""; Checkpoint.Config := None |}
    = (c, o) ->
  Checkpoint.Type_ c <> "ccfs" -> Checkpoint.Type_ c <> "containerd" ->
  cp_New fs root0 = inl (errors_New "failed to create provider: invalid provider type").
Proof.
  intros Hread Hjson Hccfs Hcontainerd. unfold Checkpoint.New, Checkpoint.initProvider.
  rewrite Hread, Hjson.
  destruct (String.eqb_spec (Checkpoint.Type_ c) "ccfs"); [done |].
  by destruct (String.eqb_spec (Checkpoint.Type_ c) "containerd").
Qed.

End CheckpointNew.

Section CheckpointHandle.

Variable os_MkdirAll : list Event -> string -> option error.

(** X16. Whatever the state of the connection and whatever the peer wrote,
    [Handle] of the checkpoint service either writes exactly one response and
    leaves the connection open, or writes nothing, closes the connection and
    ends the trace with the error it logs. Without a handler registered, that
    is before [Init], it always does the latter. *)
Theorem checkpoint_Handle_answers_or_closes
    (s : Checkpoint.service) (tr : list Event) (conn : Wire.Conn) :
  let res := Checkpoint.Handle os_MkdirAll s tr conn in
  (((exists m, Wire.outbox res.2 = Wire.outbox conn ++ [m])
    /\ Wire.closed res.2 = false)
   \/ (Wire.outbox res.2 = Wire.outbox conn
       /\ Wire.closed res.2 = true
       /\ exists tr0 msg, res.1.2 = tr0 ++ [EvLogError msg]))
  /\ (Checkpoint.router s = ∅ ->
      Wire.outbox res.2 = Wire.outbox conn /\ Wire.closed res.2 = true
      /\ res.1.1 = s /\ exists msg, res.1.2 = tr ++ [EvLogError msg]).
Proof.
  intros res. subst res. unfold Checkpoint.Handle, Checkpoint.router_Handle.
  destruct (receive_keeps Wire.asString conn) as (Ho0 & Hc0 & Hp0).
  destruct (Wire.receive Wire.asString conn) as [[err | method] c0]; simpl in *.
  { split; [right; split_and!; eauto | intros _; split_and!; eauto]. }
  destruct (decide (method ∈ Checkpoint.router s)) as [Hin | Hnin]; simpl.
  2: { split; [right; split_and!; eauto | intros _; split_and!; eauto]. }
  split; [| intros Hempty; rewrite Hempty in Hin; set_solver].
  unfold Checkpoint.handleGetCheckpoint.
  destruct (receive_keeps Wire.asGetCheckpointRequest c0) as (Ho1 & Hc1 & Hp1).
  destruct (Wire.receive Wire.asGetCheckpointRequest c0) as [[err | r] c1]; simpl in *.
  { right. split_and!; [congruence | done | eauto]. }
  destruct (Checkpoint.Get os_MkdirAll (Ref r) s tr) as [[[path err] s1] tr1].
  destruct (send_cases (Wire.MsgGetCheckpointResponse {| Path := path |}) c1)
    as [(_ & _ & ->) | (_ & e & ->)]; simpl.
  - left. split; [| done]. eexists. by rewrite Ho1, Ho0.
  - right. split_and!; [congruence | done | eauto].
Qed.

End CheckpointHandle.

(** ** The connection server: [serve] *)

Section ServeFacts.

Context {M : Type} `{Namespace.Manager M}.

Variable os_Getpid : Z.
Variable os_MkdirAll : list Event -> string -> option error.
Variable Sprint_ServiceType : ServiceType -> string.

Abbreviation srv_serve := (Cermanager.serve os_Getpid os_MkdirAll Sprint_ServiceType).
Abbreviation srv_turn := (Cermanager.serve_turn os_Getpid os_MkdirAll Sprint_ServiceType).
Abbreviation srv_step := (Cermanager.step os_Getpid os_MkdirAll Sprint_ServiceType).
Abbreviation srv_run := (Cermanager.run os_Getpid os_MkdirAll Sprint_ServiceType).
Abbreviation srv_Handle := (Cermanager.Service_Handle os_Getpid os_MkdirAll).

Lemma Get_extends (ref : string) (s : Checkpoint.service) (tr : list Event) :
  exists new, (Checkpoint.Get os_MkdirAll ref s tr).2 = tr ++ new.
Proof.
  destruct (Get_cases os_MkdirAll ref s tr); simpl;
    [by exists []; rewrite app_nil_r | by exists []; rewrite app_nil_r
    | by eexists | rewrite <- app_assoc; by eexists | rewrite <- app_assoc; by eexists].
Qed.

(** A handler only adds to the trace and to what was written. *)
Lemma Service_Handle_extends (svc : Cermanager.Service M) (tr : list Event) (conn : Wire.Conn) :
  (exists new, (srv_Handle svc tr conn).1.2 = tr ++ new)
  /\ (exists ms, Wire.outbox (srv_Handle svc tr conn).2 = Wire.outbox conn ++ ms).
Proof.
  assert (Hnil : forall {A : Type} (l : list A), exists l', l = l ++ l').
  { intros A l. exists []. by rewrite app_nil_r. }
  destruct svc as [svr | s]; simpl.
  - unfold Namespace.Handle.
    destruct (receive_keeps Wire.asString conn) as (Ho0 & _).
    destruct (Wire.receive Wire.asString conn) as [[err | method] c0]; simpl in *.
    { split; [by eexists | rewrite Ho0; apply Hnil]. }
    unfold Namespace.handleRequest.
    destruct (String.eqb method MethodGetNamespace).
    + destruct (receive_keeps Wire.asGetNamespaceRequest c0) as (Ho1 & _).
      destruct (Wire.receive Wire.asGetNamespaceRequest c0) as [[err | r] c1]; simpl in *.
      { split; [by eexists | rewrite Ho1, Ho0; apply Hnil]. }
      unfold Namespace.handleGetNamespace.
      destruct (Namespace.getNamespaceResponse os_Getpid svr r) as [rsp svr'].
      destruct (send_cases (Wire.MsgGetNamespaceResponse rsp) c1)
        as [(_ & _ & ->) | (_ & err & ->)]; simpl.
      * split; [apply Hnil | rewrite Ho1, Ho0; by eexists].
      * split; [by eexists | rewrite Ho1, Ho0; apply Hnil].
    + destruct (String.eqb method MethodPutNamespace).
      * destruct (receive_keeps Wire.asPutNamespaceRequest c0) as (Ho1 & _).
        destruct (Wire.receive Wire.asPutNamespaceRequest c0) as [[err | r] c1]; simpl in *.
        { split; [by eexists | rewrite Ho1, Ho0; apply Hnil]. }
        unfold Namespace.handlePutNamespace.
        destruct (Namespace.putNamespaceResponse svr r) as [rsp svr'].
        destruct (send_cases (Wire.MsgPutNamespaceResponse rsp) c1)
          as [(_ & _ & ->) | (_ & err & ->)]; simpl.
        -- split; [apply Hnil | rewrite Ho1, Ho0; by eexists].
        -- split; [by eexists | rewrite Ho1, Ho0; apply Hnil].
      * simpl. split; [by eexists | rewrite Ho0; apply Hnil].
  - unfold Checkpoint.Handle, Checkpoint.router_Handle.
    destruct (receive_keeps Wire.asString conn) as (Ho0 & _).
    destruct (Wire.receive Wire.asString conn) as [[err | method] c0]; simpl in *.
    { split; [by eexists | rewrite Ho0; apply Hnil]. }
    destruct (decide (method ∈ Checkpoint.router s)); simpl.
    2: { split; [by eexists | rewrite Ho0; apply Hnil]. }
    unfold Checkpoint.handleGetCheckpoint.
    destruct (receive_keeps Wire.asGetCheckpointRequest c0) as (Ho1 & _).
    destruct (Wire.receive Wire.asGetCheckpointRequest c0) as [[err | r] c1]; simpl in *.
    { split; [by eexists | rewrite Ho1, Ho0; apply Hnil]. }
    destruct (Get_extends (Ref r) s tr) as [new Hnew].
    destruct (Checkpoint.Get os_MkdirAll (Ref r) s tr) as [[[path err] s1] tr1].
    simpl in Hnew. subst tr1.
    destruct (send_cases (Wire.MsgGetCheckpointResponse {| Path := path |}) c1)
      as [(_ & _ & ->) | (_ & err' & ->)]; simpl;
      (split; [destruct err, (Checkpoint.referenceMgr s1);
                 rewrite <- ?app_assoc; by eexists |]).
    + rewrite Ho1, Ho0. by eexists.
    + rewrite Ho1, Ho0. apply Hnil.
Qed.

(** A turn of [serve] keeps the set of the registered service types and the
    HTTP server, only adds to the trace and to what was written, and returns
    only with the connection closed. *)
Lemma serve_turn_extends (s : Cermanager.Server M) (tr : list Event) (conn : Wire.Conn) :
  let res := srv_turn s tr conn in
  dom (Cermanager.services res.1.1.2) = dom (Cermanager.services s)
  /\ Cermanager.httpServer res.1.1.2 = Cermanager.httpServer s
  /\ (exists new, res.1.2 = tr ++ new)
  /\ (exists ms, Wire.outbox res.2 = Wire.outbox conn ++ ms)
  /\ (res.1.1.1 = true -> Wire.closed res.2 = true).
Proof.
  assert (Hnil : forall {A : Type} (l : list A), exists l', l = l ++ l').
  { intros A l. exists []. by rewrite app_nil_r. }
  unfold Cermanager.serve_turn, Wire.ReceiveServiceType.
  destruct (receive_keeps Wire.asServiceType conn) as (Ho0 & _).
  destruct (Wire.receive Wire.asServiceType conn) as [[err | svrType] c0]; simpl in *.
  { rewrite Ho0. split_and!; [done | done | | apply Hnil | done].
    destruct (negb (Cermanager.is_EOF err)); [by eexists | apply Hnil]. }
  destruct (Cermanager.services s !! svrType) as [svc |] eqn:Hsvc.
  - destruct (Service_Handle_extends svc tr c0) as [[new Hnew] [ms Hms]].
    destruct (Cermanager.Service_Handle os_Getpid os_MkdirAll svc tr c0) as [[svc' tr1] c1].
    simpl in *. subst tr1. rewrite Hms, Ho0. split_and!; eauto; [| done].
    rewrite dom_insert_L. apply (elem_of_dom_2 (D := gset ServiceType)) in Hsvc. set_solver.
  - simpl. rewrite Ho0. split_and!; [done | done | by eexists | apply Hnil | done].
Qed.

(** X17. [serve] never returns with the connection open unless the context
    is done: when it returns, either the connection is closed or one of the
    polls of the context, from the first of this call on, found it done. *)
Theorem serve_returns_closed_or_cancelled
    (fuel : nat) (ctx : nat -> bool) (n : nat) (s s' : Cermanager.Server M)
    (tr tr' : list Event) (conn conn' : Wire.Conn) :
  srv_serve fuel ctx n s tr conn = Some (s', tr', conn') ->
  Wire.closed conn' = true \/ exists m, (n <= m)%nat /\ ctx m = true.
Proof.
  revert n s tr conn. induction fuel as [|fuel IH]; intros n s tr conn; simpl; [done |].
  pose proof (serve_turn_extends s tr conn) as (_ & _ & _ & _ & Hclosed).
  destruct (srv_turn s tr conn) as [[[[|] s1] tr1] c1]; simpl in *.
  { intros [= <- <- <-]. left. by apply Hclosed. }
  destruct (ctx n) eqn:Hctx.
  - intros _. right. exists n. done.
  - intros [? | (m & Hm & Hc)]%IH; [by left |]. right. exists m. split; [lia | done].
Qed.

(** X18. [serve] keeps the set of the registered service types and the HTTP
    server, and only adds to the trace and to what was written on the
    connection: nothing logged or sent is ever taken back. *)
Theorem serve_keeps_the_services_and_only_adds
    (fuel : nat) (ctx : nat -> bool) (n : nat) (s s' : Cermanager.Server M)
    (tr tr' : list Event) (conn conn' : Wire.Conn) :
  srv_serve fuel ctx n s tr conn = Some (s', tr', conn') ->
  dom (Cermanager.services s') = dom (Cermanager.services s)
  /\ Cermanager.httpServer s' = Cermanager.httpServer s
  /\ (exists new, tr' = tr ++ new)
  /\ (exists ms, Wire.outbox conn' = Wire.outbox conn ++ ms).
Proof.
  revert n s tr conn. induction fuel as [|fuel IH]; intros n s tr conn; simpl; [done |].
  pose proof (serve_turn_extends s tr conn) as (Hd0 & Hh0 & [new0 Hnew0] & [ms0 Hms0] & _).
  destruct (srv_turn s tr conn) as [[[returned s1] tr1] c1]. simpl in *. subst tr1.
  assert (Hnow : Some (s1, tr ++ new0, c1) = Some (s', tr', conn') ->
                 dom (Cermanager.services s') = dom (Cermanager.services s)
                 /\ Cermanager.httpServer s' = Cermanager.httpServer s
                 /\ (exists new, tr' = tr ++ new)
                 /\ (exists ms, Wire.outbox conn' = Wire.outbox conn ++ ms)).
  { intros [= <- <- <-]. split_and!; eauto. }
  destruct returned; [done |]. destruct (ctx n); [done |].
  intros (Hd & Hh & [new' ->] & [ms' ->])%IH.
  rewrite Hd, Hh, Hms0, <- !app_assoc. split_and!; eauto.
Qed.

(** Every step keeps the namespace service registered. *)
Lemma step_keeps_the_namespace_service (l : Cermanager.Step) (d d' : Cermanager.Started M) :
  srv_step l d = Some d' ->
  (exists svr, Cermanager.services (Cermanager.st_server d) !! NamespaceService
               = Some (Cermanager.NamespaceSvc svr)) ->
  exists svr, Cermanager.services (Cermanager.st_server d') !! NamespaceService
              = Some (Cermanager.NamespaceSvc svr).
Proof.
  intros Hstep [svr Hsvr]. destruct l as [| | j | j]; simpl in Hstep.
  - destruct (Cermanager.st_accept d), (Cermanager.st_listener d) as [|[err | c] rest];
      simplify_eq; simpl; eauto.
  - destruct (Cermanager.st_accept d); simplify_eq; simpl; eauto.
  - destruct (Cermanager.st_group d !! j) as [[c [| |]] |]; try done.
    revert Hstep. unfold Cermanager.serve_turn.
    destruct (Wire.ReceiveServiceType c) as [[err | t] c0].
    { intros [= <-]. simpl. eauto. }
    destruct (Cermanager.services (Cermanager.st_server d) !! t) as [svc |] eqn:Hsvc.
    2: { intros [= <-]. simpl. eauto. }
    destruct (Cermanager.Service_Handle os_Getpid os_MkdirAll svc (Cermanager.st_trace d) c0)
      as [[svc' tr1] c1] eqn:Hhandle.
    intros [= <-]. simpl. destruct (decide (t = NamespaceService)) as [-> | Hne].
    + rewrite lookup_insert_eq. rewrite Hsvr in Hsvc. injection Hsvc as <-.
      simpl in Hhandle.
      destruct (Namespace.Handle os_Getpid svr (Cermanager.st_trace d) c0) as [[svr1 ?] ?].
      simplify_eq. eauto.
    + rewrite lookup_insert_ne by done. eauto.
  - destruct (Cermanager.st_group d !! j) as [[c [| |]] |]; simplify_eq; simpl; eauto.
Qed.

(** A step of the server keeps a session of the namespace service going:
    what was written on its connection answers the requests read so far, in
    their order. *)
Lemma step_keeps_the_session (qs : list (GetNamespaceRequest + PutNamespaceRequest))
    (written : list Wire.Message) (i : nat) (l : Cermanager.Step)
    (d d' : Cermanager.Started M) :
  srv_step l d = Some d' ->
  (exists svr, Cermanager.services (Cermanager.st_server d) !! NamespaceService
               = Some (Cermanager.NamespaceSvc svr)) ->
  servedSoFar os_Getpid qs written i d -> servedSoFar os_Getpid qs written i d'.
Proof.
  intros Hstep [svr Hsvr] (answered & todo & ms & c & stage & Hqs & Hi & Hout & Hans & Hpeer & Hc).
  assert (Hother : forall j g s tr, j <> i ->
            servedSoFar os_Getpid qs written i (Cermanager.set_goroutine d s tr j g)).
  { intros j g s tr Hj. exists answered, todo, ms, c, stage. simpl.
    rewrite list_lookup_insert_ne by done. done. }
  destruct l as [| | j | j]; simpl in Hstep.
  - destruct (Cermanager.st_accept d), (Cermanager.st_listener d) as [|[err | c'] rest];
      simplify_eq; exists answered, todo, ms, c, stage; simpl; split_and!; try done.
    by apply lookup_app_l_Some.
  - destruct (Cermanager.st_accept d); simplify_eq.
    by exists answered, todo, ms, c, stage.
  - destruct (decide (j = i)) as [-> | Hj].
    2: { destruct (Cermanager.st_group d !! j) as [[cj [| |]] |]; try done.
         destruct (srv_turn (Cermanager.st_server d) (Cermanager.st_trace d) cj)
           as [[[returned s1] tr1] c1]. simplify_eq. by apply Hother. }
    pose proof Hstep as Hstep0. rewrite Hi in Hstep. destruct stage; try done.
    destruct Hc as [[Hopen Hin] | (_ & _ & ?)]; [| done].
    destruct todo as [|q todo].
    + clear Hstep0. revert Hstep. unfold Cermanager.serve_turn, Wire.ReceiveServiceType, Wire.receive.
      rewrite Hopen, Hin. simpl. intros [= <-].
      exists answered, [], ms, (Wire.Close c), Cermanager.Returned. simpl.
      rewrite list_lookup_insert_eq by (by eapply lookup_lt_Some).
      split_and!; try done. by right.
    + clear Hstep. change (srv_step (Cermanager.ServeTurn i) d = Some d') in Hstep0.
      rewrite (ServeTurn_answers_namespace os_Getpid os_MkdirAll Sprint_ServiceType
                 d i c q (session todo) svr Hi Hopen Hpeer Hin Hsvr) in Hstep0.
      injection Hstep0 as <-.
      eexists (answered ++ [q]), todo, (ms ++ [_]), _, _. simpl.
      rewrite list_lookup_insert_eq by (by eapply lookup_lt_Some).
      split_and!; [by rewrite <- app_assoc | done | by rewrite Hout, <- app_assoc | | done
                  | by left].
      apply Forall2_app; [done |]. constructor; [by exists svr | constructor].
  - destruct (decide (j = i)) as [-> | Hj].
    2: { destruct (Cermanager.st_group d !! j) as [[cj [| |]] |]; simplify_eq.
         by apply Hother. }
    rewrite Hi in Hstep. destruct stage; simplify_eq.
    destruct Hc as [[Hopen Hin] | (_ & _ & ?)]; [| done].
    eexists answered, todo, ms, c, _. simpl.
    rewrite list_lookup_insert_eq by (by eapply lookup_lt_Some).
    split_and!; try done. by left.
Qed.

(** X19. On one connection the responses are written in the order of the
    requests, whatever the goroutines of the other connections and the accept
    loop do in between. A client makes the [Get] and [Put] requests [qs] on a
    connection that is being served. At any later moment of any run, what was
    written on the connection since are the responses to the requests read so
    far, one each and in their order, each the response of the namespace
    service in some state; the requests not read yet are still waiting, on an
    open connection, and the connection is closed only once all were answered
    and the end of the stream was read. The next turn of that goroutine
    answers the next request on the namespace service as it is at that
    moment, which the turns of the other connections may have changed, and
    logs nothing. *)
Theorem serve_answers_in_request_order
    (qs : list (GetNamespaceRequest + PutNamespaceRequest))
    (d d' : Cermanager.Started M) (i : nat) (conn : Wire.Conn)
    (svr : Namespace.namespaceService M) (ls : list Cermanager.Step) :
  Cermanager.st_group d !! i
    = Some {| Cermanager.g_conn := conn; Cermanager.g_stage := Cermanager.Receiving |} ->
  Wire.closed conn = false -> Wire.peer_gone conn = false ->
  Wire.inbox conn = session qs ->
  Cermanager.services (Cermanager.st_server d) !! NamespaceService
    = Some (Cermanager.NamespaceSvc svr) ->
  srv_run ls d = Some d' ->
  exists answered todo ms c stage svr',
    qs = answered ++ todo
    /\ Cermanager.st_group d' !! i
       = Some {| Cermanager.g_conn := c; Cermanager.g_stage := stage |}
    /\ Wire.outbox c = Wire.outbox conn ++ ms
    /\ answeredInOrder os_Getpid answered ms
    /\ Wire.peer_gone c = false
    /\ (Wire.closed c = false /\ Wire.inbox c = session todo
        \/ Wire.closed c = true /\ todo = [] /\ stage = Cermanager.Returned)
    /\ Cermanager.services (Cermanager.st_server d') !! NamespaceService
       = Some (Cermanager.NamespaceSvc svr')
    /\ (Wire.closed c = false -> stage = Cermanager.Receiving ->
        srv_step (Cermanager.ServeTurn i) d'
        = Some match todo with
               | [] =>
                   Cermanager.set_goroutine d' (Cermanager.st_server d')
                     (Cermanager.st_trace d') i
                     {| Cermanager.g_conn := Wire.Close c;
                        Cermanager.g_stage := Cermanager.Returned |}
               | q :: todo =>
                   Cermanager.set_goroutine d'
                     (Cermanager.set_services (Cermanager.st_server d')
                        (<[NamespaceService :=
                             Cermanager.NamespaceSvc (answer os_Getpid svr' q).2]>
                           (Cermanager.services (Cermanager.st_server d'))))
                     (Cermanager.st_trace d') i
                     {| Cermanager.g_conn :=
                          {| Wire.inbox := session todo;
                             Wire.outbox := Wire.outbox c ++ [(answer os_Getpid svr' q).1];
                             Wire.closed := false; Wire.peer_gone := false |};
                        Cermanager.g_stage := Cermanager.Selecting |}
               end).
Proof.
  intros Hi Hopen Hpeer Hin Hsvr Hrun.
  assert (Hinv : servedSoFar os_Getpid qs (Wire.outbox conn) i d'
                 /\ exists svr', Cermanager.services (Cermanager.st_server d') !! NamespaceService
                                 = Some (Cermanager.NamespaceSvc svr')).
  { assert (H0 : servedSoFar os_Getpid qs (Wire.outbox conn) i d).
    { exists [], qs, [], conn, Cermanager.Receiving.
      rewrite app_nil_r. split_and!; try done; [constructor | by left]. }
    assert (Hreg : exists svr0, Cermanager.services (Cermanager.st_server d) !! NamespaceService
                                = Some (Cermanager.NamespaceSvc svr0)) by eauto.
    clear Hi Hsvr. revert d H0 Hreg Hrun.
    induction ls as [|l ls IH]; intros d H0 Hreg; simpl.
    { by intros [= <-]. }
    destruct (srv_step l d) as [d1 |] eqn:Hstep; [| done].
    apply IH; [by eapply step_keeps_the_session | by eapply step_keeps_the_namespace_service]. }
  destruct Hinv as [(answered & todo & ms & c & stage & Hqs & Hi' & Hout & Hans & Hpeer' & Hc)
                      [svr' Hsvr']].
  exists answered, todo, ms, c, stage, svr'. split_and!; try done.
  intros Hopen' ->. destruct Hc as [[_ Hin'] | [? _]]; [| congruence].
  destruct todo as [|q todo].
  - unfold Cermanager.step. rewrite Hi'.
    unfold Cermanager.serve_turn, Wire.ReceiveServiceType, Wire.receive.
    by rewrite Hopen', Hin'.
  - by apply ServeTurn_answers_namespace.
Qed.

End ServeFacts.

(** ** The connection server: the accept loop and [Shutdown] *)

Section StartFacts.

Context {M : Type} `{Namespace.Manager M}.

Variable os_Getpid : Z.
Variable os_MkdirAll : list Event -> string -> option error.
Variable Sprint_ServiceType : ServiceType -> string.
Variable Type2Services : ServiceType -> string.

Abbreviation acc_loop := (Cermanager.Start_loop os_Getpid os_MkdirAll Sprint_ServiceType).
Abbreviation acc_step := (Cermanager.step os_Getpid os_MkdirAll Sprint_ServiceType).
Abbreviation acc_run := (Cermanager.run os_Getpid os_MkdirAll Sprint_ServiceType).

(** X20. The accept loop sends at most one error on the error channel, an
    error that [Accept] returned, and it serves no more connections than were
    accepted: the served connections are added after those already served. *)
Theorem Start_loop_sends_one_error_at_most
    (fuel : nat) (ctx_accept : nat -> bool) (ctx_conn : nat -> nat -> bool) (k : nat)
    (accepts : list (error + Wire.Conn)) (s s' : Cermanager.Server M) (tr tr' : list Event)
    (errorC errorC' : list error) (served served' : list Wire.Conn) :
  acc_loop fuel ctx_accept ctx_conn k accepts s tr errorC served
    = Some (s', tr', errorC', served') ->
  (errorC' = errorC \/ exists err, inl err ∈ accepts /\ errorC' = errorC ++ [err])
  /\ exists more, served' = served ++ more /\ (length more <= length accepts)%nat.
Proof.
  revert k s tr served. induction accepts as [|[err | conn] accepts IH];
    intros k s tr served; simpl.
  - intros [= <- <- <- <-]. split; [by left |]. exists []. by rewrite app_nil_r.
  - intros [= <- <- <- <-]. split.
    + right. exists err. split; [apply list_elem_of_here | done].
    + exists []. rewrite app_nil_r. split; [done | simpl; lia].
  - destruct (Cermanager.serve os_Getpid os_MkdirAll Sprint_ServiceType fuel (ctx_conn k) 0 s tr conn)
      as [[[s1 tr1] c1] |]; [| done].
    destruct (ctx_accept k).
    + intros [= <- <- <- <-]. split; [by left |]. exists [c1]. split; [done | simpl; lia].
    + intros [Herr (more & -> & Hlen)]%IH. split.
      * destruct Herr as [-> | (err & Hin & ->)]; [by left |].
        right. exists err. split; [by apply list_elem_of_further | done].
      * exists (c1 :: more). rewrite <- app_assoc. split; [done | simpl; lia].
Qed.

Lemma run_app (ls1 ls2 : list Cermanager.Step) (d : Cermanager.Started M) :
  acc_run (ls1 ++ ls2) d
  = match acc_run ls1 d with
    | Some d1 => acc_run ls2 d1
    | None => None
    end.
Proof.
  revert d. induction ls1 as [|l ls1 IH]; intros d; simpl; [done |].
  destruct (acc_step l d) as [d1 |]; [apply IH | done].
Qed.

(** [serve] run to its end, while the context is not done, is a run of the
    goroutine of its connection: its turns and its [select]s, one after
    another. *)
Lemma serve_is_a_run (fuel n : nat) (d : Cermanager.Started M) (i : nat)
    (conn conn' : Wire.Conn) (s' : Cermanager.Server M) (tr' : list Event) :
  Cermanager.st_done d = false ->
  Cermanager.st_group d !! i
    = Some {| Cermanager.g_conn := conn; Cermanager.g_stage := Cermanager.Receiving |} ->
  Cermanager.serve os_Getpid os_MkdirAll Sprint_ServiceType fuel (fun _ => false) n
    (Cermanager.st_server d) (Cermanager.st_trace d) conn = Some (s', tr', conn') ->
  exists ls,
    acc_run ls d
    = Some (Cermanager.set_goroutine d s' tr' i
              {| Cermanager.g_conn := conn'; Cermanager.g_stage := Cermanager.Returned |}).
Proof.
  revert n d conn. induction fuel as [|fuel IH]; intros n d conn Hdone Hi; simpl; [done |].
  assert (Hlen : (i < length (Cermanager.st_group d))%nat) by (by eapply lookup_lt_Some).
  destruct (Cermanager.serve_turn os_Getpid os_MkdirAll Sprint_ServiceType
              (Cermanager.st_server d) (Cermanager.st_trace d) conn)
    as [[[returned s1] tr1] c1] eqn:Hturn.
  destruct returned.
  - intros [= <- <- <-]. exists [Cermanager.ServeTurn i]. simpl. by rewrite Hi, Hturn.
  - intros Hserve.
    set (d1 := Cermanager.set_goroutine d s1 tr1 i
                 {| Cermanager.g_conn := c1; Cermanager.g_stage := Cermanager.Selecting |}).
    set (d2 := Cermanager.set_goroutine d1 s1 tr1 i
                 {| Cermanager.g_conn := c1; Cermanager.g_stage := Cermanager.Receiving |}).
    destruct (IH (S n) d2 c1) as [ls Hls]; [done | | done |].
    { simpl. rewrite list_lookup_insert_eq; [done |]. by rewrite length_insert. }
    exists (Cermanager.ServeTurn i :: Cermanager.ServeSelect i :: ls).
    simpl. rewrite Hi, Hturn. simpl. rewrite list_lookup_insert_eq by done.
    rewrite Hdone. fold d1. fold d2. rewrite Hls. f_equal.
    unfold Cermanager.set_goroutine. simpl. f_equal. by rewrite !list_insert_insert_eq.
Qed.

(** The accept loop as [Start_loop] runs it, each connection served to its
    end before the next [Accept], is one of the runs of the started server,
    while the context is not done: whatever [Start_loop] returns is reached
    by the steps of the accept loop and of the goroutines. *)
Lemma Start_loop_is_a_run (fuel k : nat) (accepts : list (error + Wire.Conn))
    (d : Cermanager.Started M) (s' : Cermanager.Server M) (tr' : list Event)
    (errorC' : list error) (served' : list Wire.Conn) :
  Cermanager.st_done d = false ->
  Cermanager.st_accept d = Cermanager.Accepting ->
  Cermanager.st_listener d = accepts ->
  Forall (fun g => Cermanager.g_stage g = Cermanager.Returned) (Cermanager.st_group d) ->
  acc_loop fuel (fun _ => false) (fun _ _ => false) k accepts
    (Cermanager.st_server d) (Cermanager.st_trace d) (Cermanager.st_errorC d)
    (map Cermanager.g_conn (Cermanager.st_group d))
  = Some (s', tr', errorC', served') ->
  exists ls d',
    acc_run ls d = Some d'
    /\ Cermanager.st_server d' = s'
    /\ Cermanager.st_trace d' = tr'
    /\ Cermanager.st_errorC d' = errorC'
    /\ map Cermanager.g_conn (Cermanager.st_group d') = served'
    /\ Forall (fun g => Cermanager.g_stage g = Cermanager.Returned) (Cermanager.st_group d').
Proof.
  revert k d. induction accepts as [|[err | conn] accepts IH];
    intros k d Hdone Hacc Hlis Hall; simpl.
  - intros [= <- <- <- <-]. by exists [], d.
  - intros [= <- <- <- <-]. exists [Cermanager.DoAccept]. eexists. simpl.
    rewrite Hacc, Hlis. split; [done |]. by simpl.
  - set (i := length (Cermanager.st_group d)).
    set (d1 := Cermanager.set_accept d (Cermanager.st_errorC d) accepts
                 Cermanager.AcceptSelecting
                 (Cermanager.st_group d
                    ++ [{| Cermanager.g_conn := conn;
                           Cermanager.g_stage := Cermanager.Receiving |}])).
    destruct (Cermanager.serve os_Getpid os_MkdirAll Sprint_ServiceType fuel (fun _ => false)
                0 (Cermanager.st_server d) (Cermanager.st_trace d) conn)
      as [[[s1 tr1] c1] |] eqn:Hserve; [| done].
    intros Hloop.
    destruct (serve_is_a_run fuel 0 d1 i conn c1 s1 tr1) as [ls1 Hls1]; [done | | done |].
    { simpl. by apply list_lookup_middle. }
    set (d2 := Cermanager.set_goroutine d1 s1 tr1 i
                 {| Cermanager.g_conn := c1; Cermanager.g_stage := Cermanager.Returned |})
      in Hls1.
    assert (Hgroup : Cermanager.st_group d2
                     = Cermanager.st_group d
                         ++ [{| Cermanager.g_conn := c1;
                                Cermanager.g_stage := Cermanager.Returned |}]).
    { simpl. subst i. rewrite insert_app_r_alt by done. by rewrite Nat.sub_diag. }
    set (d3 := Cermanager.set_accept d2 (Cermanager.st_errorC d2) (Cermanager.st_listener d2)
                 Cermanager.Accepting (Cermanager.st_group d2)).
    destruct (IH (S k) d3) as (ls3 & d' & Hls3 & Hrest); [done | done | done | | |].
    { simpl. fold i. change (<[i := _]> _) with (Cermanager.st_group d2). rewrite Hgroup.
      apply Forall_app. split; [done | by repeat constructor]. }
    { simpl. fold i. change (<[i := _]> _) with (Cermanager.st_group d2). rewrite Hgroup.
      by rewrite map_app. }
    exists (Cermanager.DoAccept :: ls1 ++ Cermanager.AcceptSelect :: ls3), d'.
    split; [| done]. simpl. rewrite Hacc, Hlis. fold d1. rewrite run_app, Hls1. simpl.
    rewrite Hdone. exact Hls3.
Qed.

(** X21. An error of [Accept] ends the accept loop and nothing else. The
    loop sends the error on the error channel and returns, starting no
    goroutine. The goroutines that serve the connections accepted before go
    on as they would have without the error: each of their steps, and each
    run of their steps, does the same to the server, the trace and the
    connections. And in every run from there no [Accept] is called again: the
    accept loop takes no step, what [Accept] would have returned afterwards
    is never asked for, nothing more is sent on the error channel and no
    goroutine is started. *)
Theorem Accept_error_ends_the_accept_loop
    (d : Cermanager.Started M) (err : error) (after : list (error + Wire.Conn)) :
  Cermanager.st_accept d = Cermanager.Accepting ->
  Cermanager.st_listener d = inl err :: after ->
  let ended d0 := Cermanager.set_accept d0 (Cermanager.st_errorC d ++ [err]) after
                    Cermanager.AcceptReturned (Cermanager.st_group d0) in
  acc_step Cermanager.DoAccept d = Some (ended d)
  /\ (forall ls,
        Forall (fun l => match l with
                         | Cermanager.ServeTurn _ | Cermanager.ServeSelect _ => True
                         | _ => False
                         end) ls ->
        acc_run ls (ended d) = ended <$> acc_run ls d)
  /\ (forall ls d2, acc_run ls (ended d) = Some d2 ->
        Cermanager.st_accept d2 = Cermanager.AcceptReturned
        /\ Cermanager.st_errorC d2 = Cermanager.st_errorC d ++ [err]
        /\ Cermanager.st_listener d2 = after
        /\ length (Cermanager.st_group d2) = length (Cermanager.st_group d)
        /\ acc_step Cermanager.DoAccept d2 = None
        /\ acc_step Cermanager.AcceptSelect d2 = None).
Proof.
  intros Hacc Hlis ended. split_and!.
  - unfold Cermanager.step. by rewrite Hacc, Hlis.
  - intros ls Hls. subst ended. clear Hacc Hlis.
    generalize (Cermanager.st_errorC d ++ [err]) as sent. intros sent.
    revert d. induction Hls as [|l ls Hl _ IH]; intros d; [done |].
    set (ended d0 := Cermanager.set_accept d0 sent after Cermanager.AcceptReturned
                       (Cermanager.st_group d0)) in *.
    assert (Hstep : acc_step l (ended d) = ended <$> acc_step l d).
    { destruct l as [| | i | i]; try done; simpl.
      - destruct (Cermanager.st_group d !! i) as [[c [| |]] |]; try done.
        by destruct (Cermanager.serve_turn os_Getpid os_MkdirAll Sprint_ServiceType
                       (Cermanager.st_server d) (Cermanager.st_trace d) c)
          as [[[returned s1] tr1] c1].
      - by destruct (Cermanager.st_group d !! i) as [[c [| |]] |]. }
    change (acc_run (l :: ls) (ended d) = ended <$> acc_run (l :: ls) d).
    simpl. rewrite Hstep. destruct (acc_step l d) as [d1 |]; [| done]. simpl. apply IH.
  - intros ls d2 Hrun.
    assert (Hinv : Cermanager.st_accept d2 = Cermanager.AcceptReturned
                   /\ Cermanager.st_errorC d2 = Cermanager.st_errorC d ++ [err]
                   /\ Cermanager.st_listener d2 = after
                   /\ length (Cermanager.st_group d2) = length (Cermanager.st_group d)).
    { assert (H0 : Cermanager.st_accept (ended d) = Cermanager.AcceptReturned
                   /\ Cermanager.st_errorC (ended d) = Cermanager.st_errorC d ++ [err]
                   /\ Cermanager.st_listener (ended d) = after
                   /\ length (Cermanager.st_group (ended d)) = length (Cermanager.st_group d))
        by done.
      revert H0 Hrun. generalize (ended d) as d1. clear ended.
      induction ls as [|l ls IH]; intros d1 H0; simpl.
      { by intros [= <-]. }
      destruct (acc_step l d1) as [d3 |] eqn:Hstep; [| done].
      apply IH. destruct H0 as (Ha & He & Hl & Hg).
      destruct l as [| | i | i]; simpl in Hstep.
      - by rewrite Ha in Hstep.
      - by rewrite Ha in Hstep.
      - destruct (Cermanager.st_group d1 !! i) as [[c [| |]] |]; try done.
        destruct (Cermanager.serve_turn os_Getpid os_MkdirAll Sprint_ServiceType
                    (Cermanager.st_server d1) (Cermanager.st_trace d1) c)
          as [[[returned s1] tr1] c1]. simplify_eq. simpl. by rewrite length_insert.
      - destruct (Cermanager.st_group d1 !! i) as [[c [| |]] |]; simplify_eq.
        simpl. by rewrite length_insert. }
    destruct Hinv as (Ha & He & Hl & Hg). split_and!; try done.
    + unfold Cermanager.step. by rewrite Ha.
    + unfold Cermanager.step. by rewrite Ha.
Qed.

(** Stopping the services only adds [Remove] calls, [CleanUp] calls and log
    lines to the trace: an observation [f] that sees none of these sees what
    it saw before. *)
Lemma Service_Stop_omap {X : Type} (f : Event -> option X)
    (nsOrder : list NamespaceType) (targetOrder : list string)
    (svc : Cermanager.Service M) (tr : list Event) :
  (forall t o, f (EvRemove t o) = None) ->
  (forall t o, f (EvCleanUp t o) = None) ->
  (forall msg, f (EvLogError msg) = None) ->
  omap f (Cermanager.Service_Stop nsOrder targetOrder svc tr).2 = omap f tr.
Proof.
  intros Hremove Hclean Hlog. destruct svc as [svr | s]; simpl.
  - unfold Namespace.Stop.
    assert (Hloop : forall ms tr0,
              omap f (Namespace.Stop_loop nsOrder ms tr0).2 = omap f tr0).
    { induction nsOrder as [|t order IH]; intros ms tr0; simpl; [done |].
      destruct (ms !! t) as [mgr |]; [| apply IH].
      destruct (Namespace.mgr_CleanUp mgr) as [[err |] mgr']; rewrite IH, !omap_app; simpl;
        by rewrite ?Hclean, ?Hlog, !app_nil_r. }
    specialize (Hloop (Namespace.managers svr) tr).
    by destruct (Namespace.Stop_loop nsOrder (Namespace.managers svr) tr).
  - unfold Checkpoint.Stop.
    assert (Hloop : forall failed tr0,
              omap f (Checkpoint.Stop_loop (Checkpoint.provider s) targetOrder failed tr0).2
              = omap f tr0).
    { induction targetOrder as [|t order IH]; intros failed tr0; simpl; [done |].
      destruct (Remove (Checkpoint.provider s) tr0 t) as [err |]; rewrite IH, omap_app; simpl;
        by rewrite Hremove, app_nil_r. }
    specialize (Hloop [] tr).
    destruct (Checkpoint.Stop_loop (Checkpoint.provider s) targetOrder [] tr) as [failed tr1].
    by destruct (negb (length failed =? 0)%nat).
Qed.

Lemma Shutdown_loop_omap {X : Type} (f : Event -> option X)
    (order : list ServiceType) (nsOrder : list NamespaceType)
    (targetOrder : list string) (svcs : gmap ServiceType (Cermanager.Service M))
    (tr : list Event) :
  (forall t o, f (EvRemove t o) = None) ->
  (forall t o, f (EvCleanUp t o) = None) ->
  (forall msg, f (EvLogError msg) = None) ->
  let res := Cermanager.Shutdown_loop Type2Services order nsOrder targetOrder svcs tr in
  omap f res.2 = omap f tr /\ dom res.1 = dom svcs.
Proof.
  clear os_Getpid os_MkdirAll Sprint_ServiceType. intros Hremove Hclean Hlog.
  revert svcs tr. induction order as [|t order IH]; intros svcs tr; simpl; [done |].
  destruct (svcs !! t) as [ss |] eqn:Hss; [| apply IH].
  pose proof (Service_Stop_omap f nsOrder targetOrder ss tr Hremove Hclean Hlog) as Hstop.
  destruct (Cermanager.Service_Stop nsOrder targetOrder ss tr) as [[err ss'] tr1].
  simpl in Hstop. destruct (IH (<[t := ss']> svcs)
    (match err with
     | Some e => tr1 ++ [EvLogError (Type2Services t +:+ " service shutdown with error "
                                     +:+ Error e)]
     | None => tr1
     end)) as [-> ->].
  split.
  - destruct err; [| done]. rewrite omap_app. simpl. by rewrite Hlog, app_nil_r.
  - rewrite dom_insert_L. apply (elem_of_dom_2 (D := gset ServiceType)) in Hss. set_solver.
Qed.

(** X22. [Shutdown], on any server and in any order, keeps the set of the
    registered services; it stops the HTTP server once when there is one, and
    after every service was stopped, whatever errors the services returned;
    without an HTTP server it makes no such call. *)
Theorem Shutdown_stops_the_http_server_once_and_last
    (order : list ServiceType) (nsOrder : list NamespaceType) (targetOrder : list string)
    (s : Cermanager.Server M) (tr : list Event) :
  let loop := Cermanager.Shutdown_loop Type2Services order nsOrder targetOrder
                (Cermanager.services s) tr in
  let res := Cermanager.Shutdown Type2Services order nsOrder targetOrder s tr in
  dom (Cermanager.services res.1) = dom (Cermanager.services s)
  /\ httpShutdowns loop.2 = httpShutdowns tr
  /\ match Cermanager.httpServer s with
     | Some shutdown =>
         httpShutdowns res.2 = httpShutdowns tr ++ [shutdown loop.2]
         /\ exists logged, res.2 = loop.2 ++ EvHttpShutdown (shutdown loop.2) :: logged
                           /\ httpShutdowns logged = []
     | None => res.2 = loop.2
     end.
Proof.
  intros loop res. subst loop res. unfold Cermanager.Shutdown.
  destruct (Shutdown_loop_omap
              (fun e => match e with EvHttpShutdown o => Some o | _ => None end)
              order nsOrder targetOrder (Cermanager.services s) tr) as [Hhttp Hdom];
    [done.. |].
  destruct (Cermanager.Shutdown_loop Type2Services order nsOrder targetOrder
              (Cermanager.services s) tr) as [svcs tr1]. simpl in *.
  split_and!; [done | done |].
  destruct (Cermanager.httpServer s) as [shutdown |]; [| done].
  destruct (shutdown tr1) as [err |]; unfold httpShutdowns in *; rewrite !omap_app, Hhttp;
    simpl; (split; [done |]); by eexists.
Qed.

End StartFacts.

(** ** Start-up: [Init] of the namespace service and [NewServer] *)

Lemma socketPath_eq :
  GoPath.Join [Cermanager.DefaultRootPath; Cermanager.DefaultSocketName]
  = "/var/lib/cermanager/daemon.socket".
Proof. vm_compute. reflexivity. Qed.

Lemma checkpointRoot_eq :
  GoPath.Join [Cermanager.DefaultRootPath; "checkpoint"] = "/var/lib/cermanager/checkpoint".
Proof. vm_compute. reflexivity. Qed.

Lemma checkpointConfig_eq :
  GoPath.Join [Cermanager.DefaultRootPath; "checkpoint_service.json"]
  = "/var/lib/cermanager/checkpoint_service.json".
Proof. vm_compute. reflexivity. Qed.

Section NamespaceInit.

Context {M : Type} `{Namespace.Manager M}.

Variable json_Unmarshal_serviceConfig :
  string -> Namespace.serviceConfig -> Namespace.serviceConfig * option error.
Variable RootfsProvider : Type.
Variable ns_NewUTSManager : list Event -> string -> Z -> error + M.
Variable ns_NewIPCManager : list Event -> string -> Z -> error + M.
Variable rootfs_NewProvider : list Event -> error + RootfsProvider.
Variable ns_NewMountManager :
  list Event -> string -> Z -> list string -> RootfsProvider -> Namespace.Filling M.
Variable Supplier : Type.
Variable supplier_Get :
  string -> Supplier -> list Event -> (string * option error) * Supplier * list Event.

Abbreviation any_Init :=
  (Namespace.Init RootfsProvider ns_NewUTSManager ns_NewIPCManager rootfs_NewProvider
     ns_NewMountManager Supplier supplier_Get).

Abbreviation any_fill := (Namespace.fill (M := M) Supplier supplier_Get).

Lemma namespace_Init_inr (svr svr' : Namespace.namespaceService M) (sup sup' : Supplier)
    (tr tr' : list Event) :
  any_Init svr sup tr = (inr svr', sup', tr') ->
  exists mU mI p mM trM,
    ns_NewUTSManager tr (Namespace.root svr)
      (default 0 (Namespace.Capacity (Namespace.config svr) !! UTS)) = inr mU
    /\ ns_NewIPCManager (tr ++ [EvNewManager UTS None]) (Namespace.root svr)
         (default 0 (Namespace.Capacity (Namespace.config svr) !! IPC)) = inr mI
    /\ rootfs_NewProvider (tr ++ [EvNewManager UTS None; EvNewManager IPC None]) = inr p
    /\ any_fill
         (ns_NewMountManager
            (tr ++ [EvNewManager UTS None; EvNewManager IPC None; EvNewRootfsProvider None])
            (Namespace.root svr)
            (default 0 (Namespace.Capacity (Namespace.config svr) !! MNT))
            (default [] (Namespace.ExtraArgs (Namespace.config svr) !! MNT)) p)
         sup (tr ++ [EvNewManager UTS None; EvNewManager IPC None; EvNewRootfsProvider None])
       = (inr mM, sup', trM)
    /\ tr' = trM ++ [EvNewManager MNT None]
    /\ svr' = Namespace.set_managers svr
                (<[MNT := mM]> (<[IPC := mI]> (<[UTS := mU]> (Namespace.managers svr)))).
Proof.
  unfold Namespace.Init. simpl.
  destruct (ns_NewUTSManager _ _ _) as [? | mU] eqn:HU; [done |]. simpl.
  destruct (ns_NewIPCManager _ _ _) as [? | mI] eqn:HI; [done |]. simpl.
  destruct (rootfs_NewProvider _) as [? | p] eqn:Hp; [done |]. simpl.
  rewrite <- !app_assoc in *. simpl in *.
  destruct (Namespace.fill _ _ _ _ _) as [[[? | mM] sup1] trM] eqn:HM; [done |].
  intros [= <- <- <-]. by exists mU, mI, p, mM, trM.
Qed.

(** X23. When [Init] succeeds on a service that [New] returned, the service
    has a manager for UTS, IPC and MNT and for no other type, and each was
    built for the root of the service with the capacity that [New] settled
    (that of the file, else 5), which is not negative; the configuration and
    the root are unchanged. The constructors were called in the order UTS,
    IPC, root file system provider, MNT, each after what the ones before had
    done, and the mount manager put its questions to the supplier. *)
Theorem namespace_Init_builds_the_three_managers
    (fs : gmap string Node) (root0 : string) (svr svr' : Namespace.namespaceService M)
    (sup sup' : Supplier) (tr tr' : list Event) :
  Namespace.New json_Unmarshal_serviceConfig fs root0 = inr svr ->
  any_Init svr sup tr = (inr svr', sup', tr') ->
  Namespace.config svr' = Namespace.config svr
  /\ Namespace.root svr' = root0
  /\ dom (Namespace.managers svr') = {[UTS; IPC; MNT]}
  /\ exists u i m mU mI mM p trM,
       Namespace.Capacity (Namespace.config svr) !! UTS = Some u
       /\ Namespace.Capacity (Namespace.config svr) !! IPC = Some i
       /\ Namespace.Capacity (Namespace.config svr) !! MNT = Some m
       /\ 0 <= u /\ 0 <= i /\ 0 <= m
       /\ ns_NewUTSManager tr root0 u = inr mU /\ Namespace.managers svr' !! UTS = Some mU
       /\ ns_NewIPCManager (tr ++ [EvNewManager UTS None]) root0 i = inr mI
       /\ Namespace.managers svr' !! IPC = Some mI
       /\ rootfs_NewProvider (tr ++ [EvNewManager UTS None; EvNewManager IPC None]) = inr p
       /\ any_fill
            (ns_NewMountManager
               (tr ++ [EvNewManager UTS None; EvNewManager IPC None;
                       EvNewRootfsProvider None])
               root0 m (default [] (Namespace.ExtraArgs (Namespace.config svr) !! MNT)) p)
            sup (tr ++ [EvNewManager UTS None; EvNewManager IPC None;
                        EvNewRootfsProvider None])
          = (inr mM, sup', trM)
       /\ Namespace.managers svr' !! MNT = Some mM
       /\ tr' = trM ++ [EvNewManager MNT None].
Proof.
  intros Hnew Hinit.
  destruct (namespace_New_inr M json_Unmarshal_serviceConfig fs root0 svr UTS Hnew)
    as (Hms & Hroot & u & Hu & ?); [unfold mergedTypes; set_solver |].
  destruct (namespace_New_inr M json_Unmarshal_serviceConfig fs root0 svr IPC Hnew)
    as (_ & _ & i & Hi & ?); [unfold mergedTypes; set_solver |].
  destruct (namespace_New_inr M json_Unmarshal_serviceConfig fs root0 svr MNT Hnew)
    as (_ & _ & m & Hm & ?); [unfold mergedTypes; set_solver |].
  apply namespace_Init_inr in Hinit as (mU & mI & p & mM & trM & HU & HI & Hp & HM & -> & ->).
  rewrite Hu, Hi, Hm, Hroot in *. simpl in *.
  split_and!; [done | done | |].
  - rewrite Hms, !dom_insert_L, dom_empty_L. set_solver.
  - exists u, i, m, mU, mI, mM, p, trM. split_and!; try done.
    + by rewrite lookup_insert_ne, lookup_insert_ne, lookup_insert_eq.
    + by rewrite lookup_insert_ne, lookup_insert_eq.
    + by rewrite lookup_insert_eq.
Qed.

End NamespaceInit.


Lemma tracked_snoc (cs : Checkpoint.service) (tr : list Event) (e : Event) :
  (forall r t o, e <> EvPrepare r t o) ->
  tracked cs tr -> tracked cs (tr ++ [e]).
Proof.
  intros He (Hts & Hnd & Hjoin).
  assert (Hp : preparedTargets (tr ++ [e]) = preparedTargets tr).
  { rewrite preparedTargets_app. unfold preparedTargets at 2. simpl.
    destruct e as [| r t [err |] | | | | | | |]; simpl; rewrite ?app_nil_r; try done.
    by destruct (He r t None). }
  split_and!.
  - intros t. by rewrite Hp.
  - by rewrite Hp.
  - intros r t o [Hin | <-%list_elem_of_singleton]%elem_of_app; [eauto |].
    by destruct (He r t o).
Qed.

Section Startup.

Context {M : Type} `{Namespace.Manager M}.

Variable os_MkdirAll : list Event -> string -> option error.
Variable net_ResolveUnixAddr : string -> option error.
Variable net_ListenUnix : string -> option error.
Variables CcfsConfig ContainerdConfig RootfsProvider : Type.
Variable json_Unmarshal_config : string -> Checkpoint.config -> Checkpoint.config * option error.
Variable json_Unmarshal_ccfs : Checkpoint.RawMessage -> error + CcfsConfig.
Variable json_Unmarshal_containerd : Checkpoint.RawMessage -> error + ContainerdConfig.
Variable ccfs_NewProvider : CcfsConfig -> error + Provider.
Variable containerd_NewProvider : ContainerdConfig -> error + Provider.
Variable json_Unmarshal_serviceConfig :
  string -> Namespace.serviceConfig -> Namespace.serviceConfig * option error.
Variable ns_NewUTSManager : list Event -> string -> Z -> error + M.
Variable ns_NewIPCManager : list Event -> string -> Z -> error + M.
Variable rootfs_NewProvider : list Event -> error + RootfsProvider.
Variable ns_NewMountManager :
  list Event -> string -> Z -> list string -> RootfsProvider -> Namespace.Filling M.
Variable http_NewServer : string -> Z -> error + (list Event -> option error).

Abbreviation the_supplier_Get := (Cermanager.supplier_Get (M := M) os_MkdirAll).

Abbreviation ns_Init :=
  (Namespace.Init RootfsProvider ns_NewUTSManager ns_NewIPCManager rootfs_NewProvider
     ns_NewMountManager (gmap ServiceType (Cermanager.Service M)) the_supplier_Get).

Abbreviation ns_fill :=
  (Namespace.fill (M := M) (gmap ServiceType (Cermanager.Service M)) the_supplier_Get).

Abbreviation ns_New := (Namespace.New (M := M) json_Unmarshal_serviceConfig).

Abbreviation cpt_New :=
  (Checkpoint.New CcfsConfig ContainerdConfig json_Unmarshal_config json_Unmarshal_ccfs
     json_Unmarshal_containerd ccfs_NewProvider containerd_NewProvider).

Abbreviation srv_NewServer :=
  (Cermanager.NewServer os_MkdirAll net_ResolveUnixAddr net_ListenUnix
     CcfsConfig ContainerdConfig RootfsProvider json_Unmarshal_config
     json_Unmarshal_ccfs json_Unmarshal_containerd ccfs_NewProvider
     containerd_NewProvider json_Unmarshal_serviceConfig ns_NewUTSManager
     ns_NewIPCManager rootfs_NewProvider ns_NewMountManager http_NewServer).

Abbreviation srv_Init_loop :=
  (Cermanager.Init_loop os_MkdirAll RootfsProvider ns_NewUTSManager ns_NewIPCManager
     rootfs_NewProvider ns_NewMountManager).

(** What a call of [Get] changes: the trace grows by calls that the serving
    of a request makes, the targets by those prepared; the root, the router
    and what the trace says of the targets stay. *)
Lemma Get_adds (ref : string) (cs : Checkpoint.service) (tr : list Event) :
  let res := Checkpoint.Get os_MkdirAll ref cs tr in
  exists new,
    res.2 = tr ++ new /\ Forall servingEvent new
    /\ Checkpoint.targets res.1.2 = Checkpoint.targets cs ∪ list_to_set (preparedTargets new)
    /\ Checkpoint.root res.1.2 = Checkpoint.root cs
    /\ Checkpoint.router res.1.2 = Checkpoint.router cs
    /\ (tracked cs tr -> tracked res.1.2 res.2).
Proof.
  clear net_ResolveUnixAddr net_ListenUnix json_Unmarshal_config json_Unmarshal_serviceConfig
    http_NewServer ns_NewUTSManager ns_NewIPCManager rootfs_NewProvider ns_NewMountManager.
  intros res. subst res. pose proof (Get_tracked os_MkdirAll ref cs tr) as Htr.
  destruct (Get_cases os_MkdirAll ref cs tr); simpl in *.
  - exists []. rewrite app_nil_r. split_and!; try done. set_solver.
  - exists []. rewrite app_nil_r. split_and!; try done. set_solver.
  - eexists. split_and!; try done; [by repeat constructor | simpl; set_solver].
  - rewrite <- app_assoc in *. eexists. split_and!; try done;
      [by repeat constructor | simpl; set_solver].
  - rewrite <- app_assoc in *. eexists. split_and!; try done;
      [by repeat constructor | simpl; set_solver].
Qed.

(** The questions of a constructor go to the checkpoint service of the map,
    and change nothing else in it. *)
Lemma fill_asks_the_supplier (f : Namespace.Filling M)
    (svcs : gmap ServiceType (Cermanager.Service M)) (tr : list Event)
    (cs : Checkpoint.service) :
  svcs !! CheckpointService = Some (Cermanager.CheckpointSvc cs) ->
  exists res cs' new,
    ns_fill f svcs tr
    = (res, <[CheckpointService := Cermanager.CheckpointSvc cs']> svcs, tr ++ new)
    /\ Forall servingEvent new
    /\ Checkpoint.targets cs' = Checkpoint.targets cs ∪ list_to_set (preparedTargets new)
    /\ Checkpoint.root cs' = Checkpoint.root cs
    /\ Checkpoint.router cs' = Checkpoint.router cs
    /\ (tracked cs tr -> tracked cs' (tr ++ new)).
Proof.
  clear net_ResolveUnixAddr net_ListenUnix json_Unmarshal_config json_Unmarshal_serviceConfig
    http_NewServer ns_NewUTSManager ns_NewIPCManager rootfs_NewProvider ns_NewMountManager.
  revert svcs tr cs. induction f as [res | ref next IH]; intros svcs tr cs Hcs; simpl.
  - exists res, cs, []. rewrite insert_id by done. rewrite app_nil_r.
    split_and!; try done. set_solver.
  - assert (Hget : the_supplier_Get ref svcs tr
                   = (let '(ans, cs1, tr1) := Checkpoint.Get os_MkdirAll ref cs tr in
                      (ans, <[CheckpointService := Cermanager.CheckpointSvc cs1]> svcs, tr1))).
    { unfold Cermanager.supplier_Get. by rewrite Hcs. }
    rewrite Hget. clear Hget.
    destruct (Get_adds ref cs tr) as (new1 & E1 & Hs1 & Ht1 & Hr1 & Hro1 & Htr1).
    destruct (Checkpoint.Get os_MkdirAll ref cs tr) as [[ans cs1] tr1]. simpl in *. subst tr1.
    destruct (IH (tr ++ new1) ans (<[CheckpointService := Cermanager.CheckpointSvc cs1]> svcs)
                (tr ++ new1) cs1)
      as (res & cs' & new2 & E2 & Hs2 & Ht2 & Hr2 & Hro2 & Htr2);
      [by rewrite lookup_insert_eq |].
    exists res, cs', (new1 ++ new2). rewrite E2, insert_insert_eq, app_assoc.
    split_and!; [done | by apply Forall_app | | congruence | congruence | by auto].
    rewrite Ht2, Ht1, preparedTargets_app, list_to_set_app_L. set_solver.
Qed.

(** [Init] of the namespace service in the server: the supplier is the
    checkpoint service of the map. *)
Lemma namespace_Init_asks_the_supplier (ns : Namespace.namespaceService M)
    (svcs : gmap ServiceType (Cermanager.Service M)) (tr : list Event)
    (cs : Checkpoint.service) :
  svcs !! CheckpointService = Some (Cermanager.CheckpointSvc cs) ->
  exists res cs' new,
    ns_Init ns svcs tr
    = (res, <[CheckpointService := Cermanager.CheckpointSvc cs']> svcs, tr ++ new)
    /\ Forall servingEvent new
    /\ Checkpoint.targets cs' = Checkpoint.targets cs ∪ list_to_set (preparedTargets new)
    /\ Checkpoint.root cs' = Checkpoint.root cs
    /\ Checkpoint.router cs' = Checkpoint.router cs
    /\ (tracked cs tr -> tracked cs' (tr ++ new))
    /\ (forall ns', res = inr ns' ->
          dom (Namespace.managers ns') = {[UTS; IPC; MNT]} ∪ dom (Namespace.managers ns)
          /\ Namespace.root ns' = Namespace.root ns
          /\ exists asked,
               new = [EvNewManager UTS None; EvNewManager IPC None; EvNewRootfsProvider None]
                       ++ asked ++ [EvNewManager MNT None]).
Proof.
  clear net_ResolveUnixAddr net_ListenUnix json_Unmarshal_config json_Unmarshal_serviceConfig
    http_NewServer.
  intros Hcs.
  assert (Hfail : forall (err : error) (evs : list Event),
            Forall servingEvent evs -> preparedTargets evs = [] ->
            (forall r t o, EvPrepare r t o ∉ evs) ->
            exists res cs' new,
              (inl err : error + Namespace.namespaceService M, svcs, tr ++ evs)
              = (res, <[CheckpointService := Cermanager.CheckpointSvc cs']> svcs, tr ++ new)
              /\ Forall servingEvent new
              /\ Checkpoint.targets cs'
                 = Checkpoint.targets cs ∪ list_to_set (preparedTargets new)
              /\ Checkpoint.root cs' = Checkpoint.root cs
              /\ Checkpoint.router cs' = Checkpoint.router cs
              /\ (tracked cs tr -> tracked cs' (tr ++ new))
              /\ (forall ns', res = inr ns' ->
                    dom (Namespace.managers ns')
                    = {[UTS; IPC; MNT]} ∪ dom (Namespace.managers ns)
                    /\ Namespace.root ns' = Namespace.root ns
                    /\ exists asked,
                         new = [EvNewManager UTS None; EvNewManager IPC None;
                                EvNewRootfsProvider None]
                                 ++ asked ++ [EvNewManager MNT None])).
  { intros err evs Hserving Hprep Hnone. exists (inl err), cs, evs.
    rewrite insert_id by done. rewrite Hprep.
    split_and!; [done | done | set_solver | done | done | | done].
    clear Hserving Hprep. induction evs as [|e evs IH] using rev_ind.
    { by rewrite app_nil_r. }
    intros Htr. rewrite app_assoc. apply tracked_snoc.
    - intros r t o ->. apply (Hnone r t o). set_solver.
    - apply IH; [| done]. intros r t o Hin. apply (Hnone r t o). set_solver. }
  unfold Namespace.Init. cbv zeta.
  destruct (ns_NewUTSManager _ _ _) as [err | mU]; simpl.
  { apply Hfail; [by repeat constructor | done |]. intros r t o. set_solver. }
  destruct (ns_NewIPCManager _ _ _) as [err | mI]; simpl.
  { rewrite <- app_assoc. apply Hfail; [by repeat constructor | done |].
    intros r t o. set_solver. }
  destruct (rootfs_NewProvider _) as [err | p]; simpl.
  { rewrite <- !app_assoc. apply Hfail; [by repeat constructor | done |].
    intros r t o. set_solver. }
  rewrite <- !app_assoc. simpl.
  set (tr3 := tr ++ [EvNewManager UTS None; EvNewManager IPC None; EvNewRootfsProvider None]).
  destruct (fill_asks_the_supplier
              (ns_NewMountManager tr3 (Namespace.root ns)
                 (default 0 (Namespace.Capacity (Namespace.config ns) !! MNT))
                 (default [] (Namespace.ExtraArgs (Namespace.config ns) !! MNT)) p)
              svcs tr3 cs Hcs)
    as (res & cs' & asked & -> & Hs & Ht & Hr & Hro & Htr).
  assert (Htr3 : tracked cs tr -> tracked cs tr3).
  { intros Htracked. subst tr3.
    change (tr ++ [EvNewManager UTS None; EvNewManager IPC None; EvNewRootfsProvider None])
      with (tr ++ [EvNewManager UTS None] ++ [EvNewManager IPC None]
               ++ [EvNewRootfsProvider None]).
    rewrite !app_assoc. by repeat (apply tracked_snoc; [done |]). }
  assert (Hshape : tr ++ [EvNewManager UTS None; EvNewManager IPC None;
                          EvNewRootfsProvider None]
                    ++ asked ++ [EvNewManager MNT (Namespace.errOf res)]
                  = (tr3 ++ asked) ++ [EvNewManager MNT (Namespace.errOf res)]).
  { subst tr3. by rewrite <- !app_assoc. }
  assert (Hall : Forall servingEvent
                   ([EvNewManager UTS None; EvNewManager IPC None; EvNewRootfsProvider None]
                      ++ asked ++ [EvNewManager MNT (Namespace.errOf res)])
                 /\ Checkpoint.targets cs'
                    = Checkpoint.targets cs
                      ∪ list_to_set
                          (preparedTargets
                             ([EvNewManager UTS None; EvNewManager IPC None;
                               EvNewRootfsProvider None]
                                ++ asked ++ [EvNewManager MNT (Namespace.errOf res)]))
                 /\ (tracked cs tr ->
                     tracked cs' (tr ++ [EvNewManager UTS None; EvNewManager IPC None;
                                         EvNewRootfsProvider None]
                                     ++ asked ++ [EvNewManager MNT (Namespace.errOf res)]))).
  { split_and!.
    - apply Forall_app. split; [by repeat constructor |].
      apply Forall_app. split; [done | by repeat constructor].
    - rewrite Ht, !preparedTargets_app. simpl. by rewrite app_nil_r.
    - intros Htracked. rewrite Hshape. apply tracked_snoc; [done |]. auto. }
  destruct Hall as (Hall1 & Hall2 & Hall3).
  destruct res as [err | mM]; simpl in *.
  - eexists (inl err), cs', _. rewrite <- Hshape. split_and!; done.
  - eexists (inr _), cs', _. rewrite <- Hshape. split_and!; try done.
    intros ns' [= <-]. simpl. split_and!; [| done | by exists asked].
    rewrite !dom_insert_L. set_solver.
Qed.

(** The loop of [NewServer] over the two services, in either order, when it
    succeeds. *)
Lemma Init_loop_newServer (order : list ServiceType)
    (ns : Namespace.namespaceService M) (cs : Checkpoint.service)
    (http : option (list Event -> option error)) (tr tr' : list Event)
    (svcs : gmap ServiceType (Cermanager.Service M)) :
  order ≡ₚ [NamespaceService; CheckpointService] ->
  srv_Init_loop order (Cermanager.services (Cermanager.newServer ns cs http)) tr
    = (None, svcs, tr') ->
  exists ns' cs' new,
    svcs = Cermanager.services (Cermanager.newServer ns' cs' http)
    /\ tr' = tr ++ new
    /\ Forall servingEvent new
    /\ EvMkdirAll (Checkpoint.root cs) None ∈ new
    /\ Forall (fun e => e ∈ new)
         [EvNewManager UTS None; EvNewManager IPC None; EvNewRootfsProvider None;
          EvNewManager MNT None]
    /\ Checkpoint.targets cs' = Checkpoint.targets cs ∪ list_to_set (preparedTargets new)
    /\ Checkpoint.root cs' = Checkpoint.root cs
    /\ Checkpoint.router cs' = {[Checkpoint.MethodGetCheckpoint]} ∪ Checkpoint.router cs
    /\ (tracked cs tr -> tracked cs' tr')
    /\ dom (Namespace.managers ns') = {[UTS; IPC; MNT]} ∪ dom (Namespace.managers ns)
    /\ Namespace.root ns' = Namespace.root ns.
Proof.
  clear net_ResolveUnixAddr net_ListenUnix json_Unmarshal_config json_Unmarshal_serviceConfig
    http_NewServer.
  intros Hperm. symmetry in Hperm. apply Permutation_length_2_inv in Hperm.
  assert (Hbuilt : forall asked : list Event,
            Forall (fun e => e ∈ [EvNewManager UTS None; EvNewManager IPC None;
                                  EvNewRootfsProvider None]
                               ++ asked ++ [EvNewManager MNT None])
              [EvNewManager UTS None; EvNewManager IPC None; EvNewRootfsProvider None;
               EvNewManager MNT None]).
  { intros asked. repeat constructor; set_solver. }
  unfold Cermanager.newServer. simpl.
  destruct Hperm as [-> | ->]; simpl.
  - rewrite lookup_insert_eq. simpl.
    destruct (namespace_Init_asks_the_supplier ns
                (<[NamespaceService := Cermanager.NamespaceSvc ns]>
                   (<[CheckpointService := Cermanager.CheckpointSvc cs]> ∅)) tr cs)
      as (res & cs1 & new1 & -> & Hs1 & Ht1 & Hr1 & Hro1 & Htr1 & Hns);
      [by simplify_map_eq |].
    destruct res as [err | ns1]; [done |].
    destruct (Hns ns1 eq_refl) as (Hdom & Hroot & asked & Hnew1).
    rewrite lookup_insert_ne, lookup_insert_eq by done. simpl.
    unfold Checkpoint.Init.
    destruct (os_MkdirAll (tr ++ new1) (Checkpoint.root cs1)) as [err |]; [done |].
    simpl. intros [= <- <-].
    exists ns1, (Checkpoint.set_router cs1
                   ({[Checkpoint.MethodGetCheckpoint]} ∪ Checkpoint.router cs1)),
           (new1 ++ [EvMkdirAll (Checkpoint.root cs1) None]).
    simpl. rewrite app_assoc. split_and!.
    + apply map_eq. intros [| | raw]; by simplify_map_eq.
    + done.
    + apply Forall_app. split; [done | by repeat constructor].
    + rewrite Hr1. set_solver.
    + rewrite Hnew1. eapply Forall_impl; [apply (Hbuilt asked) |]. set_solver.
    + rewrite Ht1, preparedTargets_app. simpl. by rewrite app_nil_r.
    + done.
    + by rewrite Hro1.
    + intros Htracked. apply tracked_snoc; [done |]. by apply Htr1.
    + done.
    + done.
  - rewrite lookup_insert_ne, lookup_insert_eq by done. simpl.
    unfold Checkpoint.Init.
    destruct (os_MkdirAll tr (Checkpoint.root cs)) as [err |]; [done |]. simpl.
    rewrite lookup_insert_ne, lookup_insert_eq by done. simpl.
    set (cs0 := Checkpoint.set_router cs
                  ({[Checkpoint.MethodGetCheckpoint]} ∪ Checkpoint.router cs)).
    destruct (namespace_Init_asks_the_supplier ns
                (<[CheckpointService := Cermanager.CheckpointSvc cs0]>
                   (<[NamespaceService := Cermanager.NamespaceSvc ns]>
                      (<[CheckpointService := Cermanager.CheckpointSvc cs]> ∅)))
                (tr ++ [EvMkdirAll (Checkpoint.root cs) None]) cs0)
      as (res & cs1 & new1 & -> & Hs1 & Ht1 & Hr1 & Hro1 & Htr1 & Hns);
      [by simplify_map_eq |].
    destruct res as [err | ns1]; [done |].
    destruct (Hns ns1 eq_refl) as (Hdom & Hroot & asked & Hnew1).
    intros [= <- <-].
    exists ns1, cs1, (EvMkdirAll (Checkpoint.root cs) None :: new1).
    split_and!.
    + apply map_eq. intros [| | raw]; by simplify_map_eq.
    + by rewrite <- app_assoc.
    + constructor; done.
    + set_solver.
    + rewrite Hnew1. eapply Forall_impl; [apply (Hbuilt asked) |]. set_solver.
    + done.
    + done.
    + done.
    + intros Htracked. apply Htr1. by apply (tracked_snoc cs).
    + done.
    + done.
Qed.

(** What a successful [NewServer] went through. *)
Lemma NewServer_inr (order : list ServiceType) (fs : gmap string Node) (httpPort : Z)
    (tr tr' : list Event) (svr : Cermanager.Server M) :
  order ≡ₚ [NamespaceService; CheckpointService] ->
  srv_NewServer order fs httpPort tr = (inr svr, tr') ->
  exists cs ns ns' cs' new,
    cpt_New (delete "/var/lib/cermanager/daemon.socket" fs) Cermanager.DefaultRootPath
    = inr cs
    /\ ns_New (delete "/var/lib/cermanager/daemon.socket" fs) Cermanager.DefaultRootPath
       = inr ns
    /\ (httpPort = 0 <-> Cermanager.httpServer svr = None)
    /\ svr = Cermanager.newServer ns' cs' (Cermanager.httpServer svr)
    /\ tr' = (tr ++ [EvMkdirAll Cermanager.DefaultRootPath None]) ++ new
    /\ Forall servingEvent new
    /\ EvMkdirAll (Checkpoint.root cs) None ∈ new
    /\ Forall (fun e => e ∈ new)
         [EvNewManager UTS None; EvNewManager IPC None; EvNewRootfsProvider None;
          EvNewManager MNT None]
    /\ Checkpoint.targets cs' = Checkpoint.targets cs ∪ list_to_set (preparedTargets new)
    /\ Checkpoint.root cs' = Checkpoint.root cs
    /\ Checkpoint.router cs' = {[Checkpoint.MethodGetCheckpoint]} ∪ Checkpoint.router cs
    /\ (tracked cs (tr ++ [EvMkdirAll Cermanager.DefaultRootPath None]) -> tracked cs' tr')
    /\ dom (Namespace.managers ns') = {[UTS; IPC; MNT]} ∪ dom (Namespace.managers ns)
    /\ Namespace.root ns' = Namespace.root ns.
Proof.
  intros Hperm. unfold Cermanager.NewServer. rewrite socketPath_eq.
  destruct (os_MkdirAll tr Cermanager.DefaultRootPath) as [err |]; [done |].
  destruct (net_ResolveUnixAddr _) as [err |]; [done |].
  destruct (net_ListenUnix _) as [err |]; [done |].
  destruct (Checkpoint.New _ _ _ _ _ _ _ _ _) as [err | cs]; [done |].
  destruct (Namespace.New _ _ _) as [err | ns]; [done |].
  set (http := if (httpPort =? 0)%Z then inr None
               else match http_NewServer Cermanager.DefaultRootPath httpPort with
                    | inl err => inl (errors_Wrap err "failed to create http server")
                    | inr server => inr (Some server)
                    end).
  assert (Hhttp : forall h, http = inr h -> (httpPort = 0 <-> h = None)).
  { intros h. subst http. destruct (Z.eqb_spec httpPort 0) as [-> | Hne].
    - by intros [= <-].
    - destruct (http_NewServer _ _) as [err | server]; [done |]. by intros [= <-]. }
  destruct http as [err | h] eqn:Eh; [done |].
  pose proof (Init_loop_newServer order ns cs h
                (tr ++ [EvMkdirAll Cermanager.DefaultRootPath None])) as Hloop.
  destruct (Cermanager.Init_loop _ _ _ _ _ _ order _ _) as [[[err |] svcs] tr1]; [done |].
  intros [= <- <-].
  destruct (Hloop tr1 svcs Hperm eq_refl)
    as (ns' & cs' & new & -> & -> & Hrest).
  exists cs, ns, ns', cs', new. simpl. split_and!; try done; [by apply Hhttp | apply Hrest ..].
Qed.

(** X24. In either order of initialisation, a server that [NewServer]
    returns holds the namespace service, with a manager for UTS, IPC and MNT
    and for nothing else, and the checkpoint service, rooted at
    [/var/lib/cermanager/checkpoint], with the handler of [GetCheckpoint]
    registered; it has an HTTP server exactly when the port is not 0. The
    root directory was made first; after it the directory of the checkpoints
    was made and the constructors of the three managers and of the root file
    system provider were called, all with success; the targets of the
    checkpoint service are those that were prepared meanwhile, for the
    questions that the mount manager put to the supplier; and nothing was
    removed, cleaned up or shut down. *)
Theorem NewServer_returns_an_initialised_server
    (order : list ServiceType) (fs : gmap string Node) (httpPort : Z)
    (tr tr' : list Event) (svr : Cermanager.Server M) :
  order ≡ₚ [NamespaceService; CheckpointService] ->
  srv_NewServer order fs httpPort tr = (inr svr, tr') ->
  exists ns cs new,
    svr = Cermanager.newServer ns cs (Cermanager.httpServer svr)
    /\ dom (Namespace.managers ns) = {[UTS; IPC; MNT]}
    /\ Namespace.root ns = Cermanager.DefaultRootPath
    /\ Checkpoint.root cs = "/var/lib/cermanager/checkpoint"
    /\ Checkpoint.router cs = {[Checkpoint.MethodGetCheckpoint]}
    /\ (httpPort = 0 <-> Cermanager.httpServer svr = None)
    /\ tr' = tr ++ EvMkdirAll Cermanager.DefaultRootPath None :: new
    /\ EvMkdirAll "/var/lib/cermanager/checkpoint" None ∈ new
    /\ Forall (fun e => e ∈ new)
         [EvNewManager UTS None; EvNewManager IPC None; EvNewRootfsProvider None;
          EvNewManager MNT None]
    /\ Checkpoint.targets cs = list_to_set (preparedTargets new)
    /\ Forall servingEvent new.
Proof.
  intros Hperm Hnew.
  apply (NewServer_inr order fs httpPort tr tr' svr Hperm) in Hnew
    as (cs & ns & ns' & cs' & new & Hcs & Hns & Hhttp & Hsvr & -> & Hserving & Hmk & Hbuilt
        & Htargets & Hroot' & Hrouter' & _ & Hdom & Hnsroot').
  apply New_fresh in Hcs as (Hroot & Hempty & Hrouter).
  rewrite checkpointRoot_eq in Hroot.
  destruct (namespace_New_inr M json_Unmarshal_serviceConfig _ _ ns UTS Hns)
    as (Hms & Hnsroot & _); [unfold mergedTypes; set_solver |].
  exists ns', cs', new. split_and!; try done.
  - rewrite Hdom, Hms, dom_empty_L. set_solver.
  - congruence.
  - congruence.
  - rewrite Hrouter', Hrouter. set_solver.
  - by rewrite <- app_assoc.
  - by rewrite <- Hroot.
  - rewrite Htargets, Hempty. set_solver.
Qed.

(** X26. Without the file [checkpoint_service.json] the server is not built,
    whatever the rest of the file system, the port and the order: once the
    root directory is made and the socket bound, [NewServer] returns the error
    of the checkpoint service, wrapped twice, and initialises nothing. *)
Theorem NewServer_needs_the_checkpoint_configuration
    (order : list ServiceType) (fs : gmap string Node) (httpPort : Z) (tr : list Event) :
  os_MkdirAll tr Cermanager.DefaultRootPath = None ->
  net_ResolveUnixAddr "/var/lib/cermanager/daemon.socket" = None ->
  net_ListenUnix "/var/lib/cermanager/daemon.socket" = None ->
  fs !! "/var/lib/cermanager/checkpoint_service.json" = None ->
  srv_NewServer order fs httpPort tr =
    (inl (errors_New "failed to create checkpoint service: failed to read config file: open /var/lib/cermanager/checkpoint_service.json: no such file or directory"),
     tr ++ [EvMkdirAll Cermanager.DefaultRootPath None]).
Proof.
  intros Hmk Hresolve Hlisten Hmissing.
  unfold Cermanager.NewServer. rewrite socketPath_eq, Hmk, Hresolve, Hlisten.
  unfold Checkpoint.New, ioutil_ReadFile. rewrite checkpointConfig_eq.
  rewrite lookup_delete_ne by done. rewrite Hmissing. reflexivity.
Qed.

End Startup.

(** X27. The socket that the default client dials is the one on which
    [NewServer] listens: [Default] is [New] on the path joined from the
    server's root and the name of its socket, whatever [Dial] answers. *)
Theorem client_Default_dials_the_server_socket
    (net_Dial : string -> string -> error + Wire.Conn) :
  Client.Default net_Dial
  = Client.New net_Dial
      {| Client.SocketPath :=
           GoPath.Join [Cermanager.DefaultRootPath; Cermanager.DefaultSocketName] |}
  /\ match Client.Default net_Dial with
     | inl err => net_Dial "unix" "/var/lib/cermanager/daemon.socket" = inl err
     | inr client =>
         net_Dial "unix" "/var/lib/cermanager/daemon.socket" = inr (Client.c client)
     end.
Proof.
  rewrite socketPath_eq. unfold Client.Default, Client.New, Client.defaultSocketPath. simpl.
  split; [done |]. by destruct (net_Dial _ _).
Qed.

(** ** The life of the daemon *)

Section Lifecycle.

Context {M : Type} `{Namespace.Manager M}.

Variable os_Getpid : Z.
Variable os_MkdirAll : list Event -> string -> option error.
Variable Sprint_ServiceType : ServiceType -> string.
Variable Type2Services : ServiceType -> string.









End Lifecycle.

Section DaemonLife.

Context {M : Type} `{Namespace.Manager M}.

Variable os_Getpid : Z.
Variable os_MkdirAll : list Event -> string -> option error.
Variable Sprint_ServiceType : ServiceType -> string.
Variable Type2Services : ServiceType -> string.
Variable net_ResolveUnixAddr : string -> option error.
Variable net_ListenUnix : string -> option error.
Variables CcfsConfig ContainerdConfig RootfsProvider : Type.
Variable json_Unmarshal_config : string -> Checkpoint.config -> Checkpoint.config * option error.
Variable json_Unmarshal_ccfs : Checkpoint.RawMessage -> error + CcfsConfig.
Variable json_Unmarshal_containerd : Checkpoint.RawMessage -> error + ContainerdConfig.
Variable ccfs_NewProvider : CcfsConfig -> error + Provider.
Variable containerd_NewProvider : ContainerdConfig -> error + Provider.
Variable json_Unmarshal_serviceConfig :
  string -> Namespace.serviceConfig -> Namespace.serviceConfig * option error.
Variable ns_NewUTSManager : list Event -> string -> Z -> error + M.
Variable ns_NewIPCManager : list Event -> string -> Z -> error + M.
Variable rootfs_NewProvider : list Event -> error + RootfsProvider.
Variable ns_NewMountManager :
  list Event -> string -> Z -> list string -> RootfsProvider -> Namespace.Filling M.
Variable http_NewServer : string -> Z -> error + (list Event -> option error).
Variable rangeServices : gset ServiceType -> list ServiceType.
Variable rangeNamespaces : gset NamespaceType -> list NamespaceType.
Variable rangeTargets : gset string -> list string.

Abbreviation the_NewServer :=
  (Cermanager.NewServer os_MkdirAll net_ResolveUnixAddr net_ListenUnix
     CcfsConfig ContainerdConfig RootfsProvider json_Unmarshal_config
     json_Unmarshal_ccfs json_Unmarshal_containerd ccfs_NewProvider
     containerd_NewProvider json_Unmarshal_serviceConfig ns_NewUTSManager
     ns_NewIPCManager rootfs_NewProvider ns_NewMountManager http_NewServer).

Abbreviation the_Action :=
  (Cmd.Action os_Getpid os_MkdirAll Type2Services net_ResolveUnixAddr net_ListenUnix
     CcfsConfig ContainerdConfig RootfsProvider json_Unmarshal_config
     json_Unmarshal_ccfs json_Unmarshal_containerd ccfs_NewProvider
     containerd_NewProvider json_Unmarshal_serviceConfig ns_NewUTSManager
     ns_NewIPCManager rootfs_NewProvider ns_NewMountManager http_NewServer
     Sprint_ServiceType rangeServices rangeNamespaces rangeTargets).



End DaemonLife.

(** ** [Init] of the checkpoint service, and a start-up that fails *)

Section CheckpointInit.

Variable os_MkdirAll : list Event -> string -> option error.

(** X29. [Init] is what makes the checkpoint service answer: once it has
    succeeded, at any later time a [GetCheckpoint] request on a connection
    that can be written is read in full and answered with the path that [Get]
    returns for its ref, the connection stays open, and the service is as
    [Get] left it. [Init] itself changes neither the root nor the targets. *)
Theorem Init_then_Handle_answers_GetCheckpoint
    (s s' : Checkpoint.service) (tr tr' later : list Event) (conn : Wire.Conn)
    (r : GetCheckpointRequest) (rest : list Wire.Frame) :
  Checkpoint.Init os_MkdirAll s tr = (None, s', tr') ->
  Wire.closed conn = false -> Wire.peer_gone conn = false ->
  Wire.inbox conn
    = Wire.FrameString Checkpoint.MethodGetCheckpoint
        :: Wire.FrameGetCheckpointRequest r :: rest ->
  let get := Checkpoint.Get os_MkdirAll (Ref r) s' later in
  let res := Checkpoint.Handle os_MkdirAll s' later conn in
  Checkpoint.root s' = Checkpoint.root s
  /\ Checkpoint.targets s' = Checkpoint.targets s
  /\ res.1.1 = get.1.2
  /\ res.2 = {| Wire.inbox := rest;
                Wire.outbox := Wire.outbox conn
                               ++ [Wire.MsgGetCheckpointResponse {| Path := get.1.1.1 |}];
                Wire.closed := false; Wire.peer_gone := false |}
  /\ exists logged, res.1.2 = get.2 ++ logged
                    /\ removedTargets logged = [] /\ preparedTargets logged = [].
Proof.
  intros Hinit Hopen Hpeer Hin get res. subst get res.
  unfold Checkpoint.Init in Hinit.
  destruct (os_MkdirAll tr (Checkpoint.root s)) as [err |]; [done |].
  injection Hinit as <- <-.
  split_and!; [done | done | | |];
    unfold Checkpoint.Handle, Checkpoint.router_Handle, Wire.receive;
    rewrite Hopen, Hin; simpl;
    (rewrite decide_True by set_solver);
    unfold Checkpoint.handleGetCheckpoint, Wire.receive; simpl;
    destruct (Checkpoint.Get os_MkdirAll (Ref r) _ later) as [[[path err] s1] tr1];
    unfold Wire.send; simpl; rewrite Hpeer; simpl.
  - done.
  - done.
  - destruct err as [e |], (Checkpoint.referenceMgr s1); simpl.
    + exists [EvLogError (Error e); EvAdd (Ref r)]. by rewrite <- app_assoc.
    + by exists [EvLogError (Error e)].
    + by exists [EvAdd (Ref r)].
    + exists []. by rewrite app_nil_r.
Qed.

End CheckpointInit.

Section StartupFailure.

Context {M : Type} `{Namespace.Manager M}.

Variable os_MkdirAll : list Event -> string -> option error.
Variable net_ResolveUnixAddr : string -> option error.
Variable net_ListenUnix : string -> option error.
Variables CcfsConfig ContainerdConfig RootfsProvider : Type.
Variable json_Unmarshal_config : string -> Checkpoint.config -> Checkpoint.config * option error.
Variable json_Unmarshal_ccfs : Checkpoint.RawMessage -> error + CcfsConfig.
Variable json_Unmarshal_containerd : Checkpoint.RawMessage -> error + ContainerdConfig.
Variable ccfs_NewProvider : CcfsConfig -> error + Provider.
Variable containerd_NewProvider : ContainerdConfig -> error + Provider.
Variable json_Unmarshal_serviceConfig :
  string -> Namespace.serviceConfig -> Namespace.serviceConfig * option error.
Variable ns_NewUTSManager : list Event -> string -> Z -> error + M.
Variable ns_NewIPCManager : list Event -> string -> Z -> error + M.
Variable rootfs_NewProvider : list Event -> error + RootfsProvider.
Variable ns_NewMountManager :
  list Event -> string -> Z -> list string -> RootfsProvider -> Namespace.Filling M.
Variable http_NewServer : string -> Z -> error + (list Event -> option error).

(** X30. When the two services are built but [Init] of the namespace service
    fails, [NewServer] returns that error as it is, not wrapped, and the trace
    is the one that this [Init] leaves; and here the order of the iteration
    over the services shows: when the checkpoint service comes first, its
    directory has been made by then and its handler is registered when the
    namespace service is initialised; when the namespace service comes first,
    [Init] of the checkpoint service is not called at all, and the namespace
    service is initialised right after the root directory was made. *)
Theorem NewServer_failure_shows_the_order
    (fs : gmap string Node) (httpPort : Z) (tr : list Event)
    (cs : Checkpoint.service) (ns : Namespace.namespaceService M) :
  os_MkdirAll tr Cermanager.DefaultRootPath = None ->
  net_ResolveUnixAddr "/var/lib/cermanager/daemon.socket" = None ->
  net_ListenUnix "/var/lib/cermanager/daemon.socket" = None ->
  Checkpoint.New CcfsConfig ContainerdConfig json_Unmarshal_config json_Unmarshal_ccfs
    json_Unmarshal_containerd ccfs_NewProvider containerd_NewProvider
    (delete "/var/lib/cermanager/daemon.socket" fs) Cermanager.DefaultRootPath = inr cs ->
  Namespace.New json_Unmarshal_serviceConfig
    (delete "/var/lib/cermanager/daemon.socket" fs) Cermanager.DefaultRootPath = inr ns ->
  (httpPort = 0
   \/ exists server, http_NewServer Cermanager.DefaultRootPath httpPort = inr server) ->
  os_MkdirAll (tr ++ [EvMkdirAll Cermanager.DefaultRootPath None])
    "/var/lib/cermanager/checkpoint" = None ->
  let NewServer :=
    Cermanager.NewServer os_MkdirAll net_ResolveUnixAddr net_ListenUnix
      CcfsConfig ContainerdConfig RootfsProvider json_Unmarshal_config
      json_Unmarshal_ccfs json_Unmarshal_containerd ccfs_NewProvider
      containerd_NewProvider json_Unmarshal_serviceConfig ns_NewUTSManager
      ns_NewIPCManager rootfs_NewProvider ns_NewMountManager http_NewServer in
  let Init :=
    Namespace.Init RootfsProvider ns_NewUTSManager ns_NewIPCManager rootfs_NewProvider
      ns_NewMountManager (gmap ServiceType (Cermanager.Service M))
      (Cermanager.supplier_Get os_MkdirAll) ns in
  let http :=
    if (httpPort =? 0)%Z then None
    else match http_NewServer Cermanager.DefaultRootPath httpPort with
         | inl _ => None
         | inr server => Some server
         end in
  let first :=
    Init (Cermanager.services (Cermanager.newServer ns cs http))
      (tr ++ [EvMkdirAll Cermanager.DefaultRootPath None]) in
  let second :=
    Init (Cermanager.services
            (Cermanager.newServer ns
               (Checkpoint.set_router cs
                  ({[Checkpoint.MethodGetCheckpoint]} ∪ Checkpoint.router cs)) http))
      (tr ++ [EvMkdirAll Cermanager.DefaultRootPath None;
              EvMkdirAll "/var/lib/cermanager/checkpoint" None]) in
  (forall err, first.1.1 = inl err ->
     NewServer [NamespaceService; CheckpointService] fs httpPort tr = (inl err, first.2))
  /\ (forall err, second.1.1 = inl err ->
        NewServer [CheckpointService; NamespaceService] fs httpPort tr = (inl err, second.2))
  /\ (exists new, first.2 = tr ++ EvMkdirAll Cermanager.DefaultRootPath None :: new)
  /\ (exists new, second.2
                  = tr ++ EvMkdirAll Cermanager.DefaultRootPath None
                       :: EvMkdirAll "/var/lib/cermanager/checkpoint" None :: new).
Proof.
  intros Hmk Hresolve Hlisten Hcs Hns Hhttp Hmk2 NewServer Init http first second.
  assert (Hroot : Checkpoint.root cs = "/var/lib/cermanager/checkpoint").
  { apply New_fresh in Hcs as (-> & _). apply checkpointRoot_eq. }
  assert (Hh : (if (httpPort =? 0)%Z then inr None
                else match http_NewServer Cermanager.DefaultRootPath httpPort with
                     | inl err => inl (errors_Wrap err "failed to create http server")
                     | inr server => inr (Some server)
                     end) = inr http).
  { subst http. destruct (httpPort =? 0)%Z eqn:E; [done |].
    destruct Hhttp as [-> | (server & ->)]; done. }
  assert (Hsecond : <[CheckpointService :=
                        Cermanager.CheckpointSvc
                          (Checkpoint.set_router cs
                             ({[Checkpoint.MethodGetCheckpoint]} ∪ Checkpoint.router cs))]>
                      (Cermanager.services (Cermanager.newServer ns cs http))
                    = Cermanager.services
                        (Cermanager.newServer ns
                           (Checkpoint.set_router cs
                              ({[Checkpoint.MethodGetCheckpoint]} ∪ Checkpoint.router cs))
                           http)).
  { apply map_eq. intros [| | raw]; by simplify_map_eq. }
  split_and!.
  - intros err Hfirst. subst NewServer. unfold Cermanager.NewServer.
    rewrite socketPath_eq, Hmk, Hresolve, Hlisten, Hcs, Hns, Hh.
    cbn [Cermanager.Init_loop].
    assert (Hlook : Cermanager.services (Cermanager.newServer ns cs http) !! NamespaceService
                    = Some (Cermanager.NamespaceSvc ns)) by (by simplify_map_eq).
    rewrite Hlook. unfold Cermanager.Service_Init. fold Init. fold first.
    destruct first as [[res svcs1] tr1]. simpl in Hfirst. by subst res.
  - intros err Hsecond'. subst NewServer. unfold Cermanager.NewServer.
    rewrite socketPath_eq, Hmk, Hresolve, Hlisten, Hcs, Hns, Hh.
    cbn [Cermanager.Init_loop].
    assert (Hlook : Cermanager.services (Cermanager.newServer ns cs http) !! CheckpointService
                    = Some (Cermanager.CheckpointSvc cs)) by (by simplify_map_eq).
    rewrite Hlook. unfold Cermanager.Service_Init at 1. unfold Checkpoint.Init.
    rewrite Hroot, Hmk2. rewrite Hsecond.
    assert (Hlook2 : Cermanager.services
                       (Cermanager.newServer ns
                          (Checkpoint.set_router cs
                             ({[Checkpoint.MethodGetCheckpoint]} ∪ Checkpoint.router cs))
                          http) !! NamespaceService
                     = Some (Cermanager.NamespaceSvc ns)) by (by simplify_map_eq).
    rewrite Hlook2. unfold Cermanager.Service_Init. rewrite <- app_assoc.
    change ([EvMkdirAll Cermanager.DefaultRootPath None]
              ++ [EvMkdirAll "/var/lib/cermanager/checkpoint" None])
      with [EvMkdirAll Cermanager.DefaultRootPath None;
            EvMkdirAll "/var/lib/cermanager/checkpoint" None].
    fold Init. fold second.
    destruct second as [[res svcs1] tr1]. simpl in Hsecond'. by subst res.
  - destruct (namespace_Init_asks_the_supplier os_MkdirAll RootfsProvider ns_NewUTSManager
                ns_NewIPCManager rootfs_NewProvider ns_NewMountManager ns
                (Cermanager.services (Cermanager.newServer ns cs http))
                (tr ++ [EvMkdirAll Cermanager.DefaultRootPath None]) cs)
      as (res & cs1 & new & E & _); [by simplify_map_eq |].
    exists new. subst first Init. rewrite E. simpl. by rewrite <- app_assoc.
  - destruct (namespace_Init_asks_the_supplier os_MkdirAll RootfsProvider ns_NewUTSManager
                ns_NewIPCManager rootfs_NewProvider ns_NewMountManager ns
                (Cermanager.services
                   (Cermanager.newServer ns
                      (Checkpoint.set_router cs
                         ({[Checkpoint.MethodGetCheckpoint]} ∪ Checkpoint.router cs)) http))
                (tr ++ [EvMkdirAll Cermanager.DefaultRootPath None;
                        EvMkdirAll "/var/lib/cermanager/checkpoint" None])
                (Checkpoint.set_router cs
                   ({[Checkpoint.MethodGetCheckpoint]} ∪ Checkpoint.router cs)))
      as (res & cs1 & new & E & _); [by simplify_map_eq |].
    exists new. subst second Init. rewrite E. simpl. by rewrite <- app_assoc.
Qed.

End StartupFailure.

(** ** Concrete runs *)

(** The file with the capacities [{UTS:2, IPC:1, MNT:0}] is read; the file
    that gives IPC the capacity [-1] is refused. *)
Lemma namespace_New_reads_the_file_witness :
  (exists svr,
     SampleDaemon.namespaceNew SampleDaemon.fs Sample.rootPath = inr svr
     /\ Namespace.managers svr = ∅
     /\ Namespace.root svr = Sample.rootPath
     /\ (forall t, Namespace.Capacity (Namespace.config svr) !! t
                   = if bool_decide (t ∈ mergedTypes)
                     then Some (default 5 (Namespace.Capacity
                                             (Namespace.config SampleDaemon.newNamespaceSvc) !! t))
                     else None)
     /\ (forall t, Namespace.ExtraArgs (Namespace.config svr) !! t
                   = if bool_decide (t ∈ mergedTypes)
                     then Namespace.ExtraArgs (Namespace.config SampleDaemon.newNamespaceSvc) !! t
                     else None))
  /\ SampleDaemon.namespaceNew (SampleDaemon.namespaceFsWith (File SampleDaemon.negativePool))
       Sample.rootPath
     = inl (errors_New "negative namespace capacity").
Proof.
  assert (Hfile : SampleDaemon.fs !! GoPath.Join [Sample.rootPath; "namespace_service.json"]
                  = Some (File SampleDaemon.smallPools)) by (vm_compute; reflexivity).
  assert (Hjson : SampleDaemon.unmarshalServiceConfig SampleDaemon.smallPools
                    {| Namespace.Capacity := ∅; Namespace.ExtraArgs := ∅ |}
                  = (Namespace.config SampleDaemon.newNamespaceSvc, None))
    by (vm_compute; reflexivity).
  assert (Hfile' : SampleDaemon.namespaceFsWith (File SampleDaemon.negativePool)
                     !! GoPath.Join [Sample.rootPath; "namespace_service.json"]
                   = Some (File SampleDaemon.negativePool)) by (vm_compute; reflexivity).
  assert (Hjson' : SampleDaemon.unmarshalServiceConfig SampleDaemon.negativePool
                     {| Namespace.Capacity := ∅; Namespace.ExtraArgs := ∅ |}
                   = ({| Namespace.Capacity := <[IPC := -1]> ∅; Namespace.ExtraArgs := ∅ |},
                      None))
    by (vm_compute; reflexivity).
  split.
  - exact (namespace_New_reads_the_file GenericPool.Pool SampleDaemon.unmarshalServiceConfig
             SampleDaemon.fs Sample.rootPath SampleDaemon.smallPools
             (Namespace.config SampleDaemon.newNamespaceSvc) Hfile Hjson).
  - exact (namespace_New_reads_the_file GenericPool.Pool SampleDaemon.unmarshalServiceConfig
             (SampleDaemon.namespaceFsWith (File SampleDaemon.negativePool)) Sample.rootPath
             SampleDaemon.negativePool
             {| Namespace.Capacity := <[IPC := -1]> ∅; Namespace.ExtraArgs := ∅ |}
             Hfile' Hjson').
Defined.

(** The service built from the file with the capacities [{UTS:2, IPC:1, MNT:0}]. *)
Lemma namespace_New_capacities_not_negative_witness :
  Namespace.managers SampleDaemon.newNamespaceSvc = ∅
  /\ Namespace.root SampleDaemon.newNamespaceSvc = Sample.rootPath
  /\ exists u i m,
       Namespace.Capacity (Namespace.config SampleDaemon.newNamespaceSvc) !! UTS = Some u
       /\ Namespace.Capacity (Namespace.config SampleDaemon.newNamespaceSvc) !! IPC = Some i
       /\ Namespace.Capacity (Namespace.config SampleDaemon.newNamespaceSvc) !! MNT = Some m
       /\ 0 <= u /\ 0 <= i /\ 0 <= m.
Proof.
  apply (namespace_New_capacities_not_negative GenericPool.Pool
           SampleDaemon.unmarshalServiceConfig SampleDaemon.fs Sample.rootPath
           SampleDaemon.newNamespaceSvc).
  vm_compute. reflexivity.
Defined.

(** A file that is not JSON. *)
Lemma namespace_New_fails_on_a_bad_file_witness :
  SampleDaemon.namespaceNew (SampleDaemon.namespaceFsWith (File Sample.notJson)) Sample.rootPath
  = inl (errors_New "unexpected end of JSON input").
Proof.
  apply (namespace_New_fails_on_a_bad_file GenericPool.Pool SampleDaemon.unmarshalServiceConfig
           (SampleDaemon.namespaceFsWith (File Sample.notJson)) Sample.rootPath
           (File Sample.notJson))
    with (c := {| Namespace.Capacity := ∅; Namespace.ExtraArgs := ∅ |});
    vm_compute; reflexivity.
Defined.

(** A [Get] for UTS from a peer that has gone: the namespace 0 is taken from
    the pool all the same. *)
Lemma namespace_Get_is_done_even_if_unanswered_witness :
  let r := {| gnT := UTS; Arg := Nil |} in
  let conn := {| Wire.inbox := frames (GetRequest r); Wire.outbox := [];
                 Wire.closed := false; Wire.peer_gone := true |} in
  Namespace.Handle Sample.daemonPid Sample.namespaceSvc [] conn =
    ((Namespace.getNamespaceResponse Sample.daemonPid Sample.namespaceSvc r).2,
     [] ++ [EvLogError (Error Wire.errBrokenPipe)],
     {| Wire.inbox := []; Wire.outbox := Wire.outbox conn;
        Wire.closed := true; Wire.peer_gone := true |}).
Proof.
  intros r conn.
  apply (namespace_Get_is_done_even_if_unanswered Sample.daemonPid Sample.namespaceSvc []
           conn r []); reflexivity.
Defined.


(** After [Get] of [img-A], a [Get] of a ref that names the same path. *)
Lemma Get_again_returns_at_once_witness :
  let first := Checkpoint.Get Sample.mkdirOk "img-A"
                 (Sample.checkpointOn Sample.okProvider None) [] in
  Checkpoint.Get Sample.mkdirOk "tmp/../img-A" first.1.2 first.2
  = (("/var/lib/cermanager/checkpoint/img-A", None), first.1.2, first.2).
Proof.
  intros first.
  apply (Get_again_returns_at_once Sample.mkdirOk "img-A" "tmp/../img-A"
           "/var/lib/cermanager/checkpoint/img-A"
           (Sample.checkpointOn Sample.okProvider None) first.1.2 [] first.2).
  - vm_compute. reflexivity.
  - discriminate.
  - vm_compute. reflexivity.
Defined.

(** The first [Prepare] of two [Get] calls. *)
Lemma Prepare_follows_MkdirAll_of_its_target_witness :
  "img-A" <> ""
  /\ "/var/lib/cermanager/checkpoint/img-A"
     = GoPath.Join [Checkpoint.root (Sample.newService Sample.okProvider None); "img-A"]
  /\ exists tr0, [EvMkdirAll "/var/lib/cermanager/checkpoint/img-A" None]
                 = tr0 ++ [EvMkdirAll "/var/lib/cermanager/checkpoint/img-A" None].
Proof.
  apply (Prepare_follows_MkdirAll_of_its_target Sample.mkdirOk ["img-A"; "img-B"]
           (Sample.newService Sample.okProvider None)
           [EvMkdirAll "/var/lib/cermanager/checkpoint/img-A" None]
           [EvMkdirAll "/var/lib/cermanager/checkpoint/img-B" None;
            EvPrepare "img-B" "/var/lib/cermanager/checkpoint/img-B" None]
           "img-A" "/var/lib/cermanager/checkpoint/img-A" None).
  vm_compute. reflexivity.
Defined.

(** A request for [img-A], with a provider whose first [Prepare] fails: the
    path of the response is empty. *)
Lemma GetCheckpoint_path_is_empty_exactly_on_failure_witness :
  let s := Sample.checkpointOn Sample.flakyProvider None in
  let c := Sample.connWith [Wire.FrameGetCheckpointRequest {| Ref := "img-A" |}] in
  let get := Checkpoint.Get Sample.mkdirOk "img-A" s [] in
  let res := Checkpoint.handleGetCheckpoint Sample.mkdirOk s [] c in
  res.1.1.1 = None
  /\ Wire.outbox res.2
     = Wire.outbox c ++ [Wire.MsgGetCheckpointResponse {| Path := get.1.1.1 |}]
  /\ Wire.closed res.2 = false
  /\ (get.1.1.1 = "" <-> get.1.1.2 <> None).
Proof.
  intros s c.
  apply (GetCheckpoint_path_is_empty_exactly_on_failure Sample.mkdirOk s [] c
           (Sample.connWith []) {| Ref := "img-A" |}); reflexivity.
Defined.

(** A request for [img-A] from a peer that has gone. *)
Lemma GetCheckpoint_keeps_the_target_when_unanswered_witness :
  let s := Sample.checkpointOn Sample.okProvider None in
  let c := {| Wire.inbox := [Wire.FrameGetCheckpointRequest {| Ref := "img-A" |}];
              Wire.outbox := []; Wire.closed := false; Wire.peer_gone := true |} in
  let res := Checkpoint.handleGetCheckpoint Sample.mkdirOk s [] c in
  res.1.1.1 = Some Wire.errBrokenPipe
  /\ Wire.outbox res.2 = Wire.outbox c
  /\ "/var/lib/cermanager/checkpoint/img-A" ∈ Checkpoint.targets res.1.1.2
  /\ Checkpoint.Get Sample.mkdirOk "img-A" res.1.1.2 res.1.2
     = (("/var/lib/cermanager/checkpoint/img-A", None), res.1.1.2, res.1.2).
Proof.
  intros s c.
  apply (GetCheckpoint_keeps_the_target_when_unanswered Sample.mkdirOk s [] c
           {| Wire.inbox := []; Wire.outbox := []; Wire.closed := false;
              Wire.peer_gone := true |}
           {| Ref := "img-A" |} "/var/lib/cermanager/checkpoint/img-A");
    vm_compute; reflexivity.
Defined.

(** A file that is not JSON: the decoder stores no type. *)
Lemma checkpoint_New_rejects_other_types_witness :
  Sample.New Sample.okProvider (Sample.fsWith Sample.notJson) Sample.rootPath
  = inl (errors_New "failed to create provider: invalid provider type").
Proof.
  apply (checkpoint_New_rejects_other_types unit unit Sample.unmarshalConfig
           Sample.unmarshalProviderConfig Sample.unmarshalProviderConfig
           (fun _ => inr Sample.okProvider) (fun _ => inr Sample.okProvider)
           (Sample.fsWith Sample.notJson) Sample.rootPath Sample.notJson
           {| Checkpoint.Type_ := ""; Checkpoint.Config := None |}
           (Some (errors_New "unexpected end of JSON input")));
    try (vm_compute; reflexivity); discriminate.
Defined.

(** The first client is served until the end of its stream. *)
Lemma serve_returns_closed_or_cancelled_witness :
  let s := SampleDaemon.server Sample.okProvider None in
  let run := default (s, [], SampleDaemon.client1)
               (Cermanager.serve Sample.daemonPid Sample.mkdirOk SampleDaemon.Sprint 5 SampleDaemon.never 0
                  s [] SampleDaemon.client1) in
  Wire.closed run.2 = true \/ exists m, (0 <= m)%nat /\ SampleDaemon.never m = true.
Proof.
  intros s run.
  apply (serve_returns_closed_or_cancelled Sample.daemonPid Sample.mkdirOk
           SampleDaemon.Sprint 5
           SampleDaemon.never 0 s run.1.1 [] run.1.2 SampleDaemon.client1 run.2).
  vm_compute. reflexivity.
Defined.

(** The second client is served until the unknown service type. *)
Lemma serve_keeps_the_services_and_only_adds_witness :
  let s := SampleDaemon.server Sample.okProvider None in
  let run := default (s, [], SampleDaemon.client2)
               (Cermanager.serve Sample.daemonPid Sample.mkdirOk SampleDaemon.Sprint 5 SampleDaemon.never 0
                  s [EvLogError "before"] SampleDaemon.client2) in
  dom (Cermanager.services run.1.1) = dom (Cermanager.services s)
  /\ Cermanager.httpServer run.1.1 = Cermanager.httpServer s
  /\ (exists new, run.1.2 = [EvLogError "before"] ++ new)
  /\ (exists ms, Wire.outbox run.2 = Wire.outbox SampleDaemon.client2 ++ ms).
Proof.
  intros s run.
  apply (serve_keeps_the_services_and_only_adds Sample.daemonPid Sample.mkdirOk
           SampleDaemon.Sprint 5
           SampleDaemon.never 0 s run.1.1 [EvLogError "before"] run.1.2
           SampleDaemon.client2 run.2).
  vm_compute. reflexivity.
Defined.

(** Two connections are served at the same time. The first client takes a
    UTS namespace, gives it back and takes one again; the second takes one in
    between, and it is given the namespace that the first had put back: the
    first is then given the other one. *)
Example Put_then_Get_with_another_connection_in_between :
  let get := inl {| gnT := UTS; Arg := Nil |} in
  let put := inr {| pnT := UTS; ID := 0 |} in
  let receiving conn :=
    {| Cermanager.g_conn := conn; Cermanager.g_stage := Cermanager.Receiving |} in
  let d := {| Cermanager.st_server := SampleDaemon.server Sample.okProvider None;
              Cermanager.st_trace := []; Cermanager.st_done := false;
              Cermanager.st_errorC := []; Cermanager.st_listener := [];
              Cermanager.st_accept := Cermanager.Accepting;
              Cermanager.st_group := [receiving (Sample.connWith (session [get; put; get]));
                                      receiving (Sample.connWith (session [get]))] |} in
  option_map (fun d' => (Cermanager.st_group d', Cermanager.st_trace d'))
    (SampleDaemon.run
       [Cermanager.ServeTurn 0; Cermanager.ServeSelect 0; Cermanager.ServeTurn 0;
        Cermanager.ServeTurn 1; Cermanager.ServeSelect 0; Cermanager.ServeTurn 0] d)
  = Some ([ {| Cermanager.g_conn :=
                 {| Wire.inbox := [];
                    Wire.outbox :=
                      [Wire.MsgGetNamespaceResponse
                         {| NSId := 0; Pid := 4242; Fd := 10; Info := Nil |};
                       Wire.MsgPutNamespaceResponse {| perror := "" |};
                       Wire.MsgGetNamespaceResponse
                         {| NSId := 1; Pid := 4242; Fd := 11; Info := Nil |}];
                    Wire.closed := false; Wire.peer_gone := false |};
               Cermanager.g_stage := Cermanager.Selecting |};
            {| Cermanager.g_conn :=
                 {| Wire.inbox := [];
                    Wire.outbox :=
                      [Wire.MsgGetNamespaceResponse
                         {| NSId := 0; Pid := 4242; Fd := 10; Info := Nil |}];
                    Wire.closed := false; Wire.peer_gone := false |};
               Cermanager.g_stage := Cermanager.Selecting |} ], []).
Proof. vm_compute. reflexivity. Qed.

(** The same two connections, after the first client's [Get] and [Put] and
    the second client's [Get]. *)
Lemma serve_answers_in_request_order_witness :
  let get := inl {| gnT := UTS; Arg := Nil |} in
  let put := inr {| pnT := UTS; ID := 0 |} in
  let qs := [get; put; get] in
  let conn := Sample.connWith (session qs) in
  let receiving conn :=
    {| Cermanager.g_conn := conn; Cermanager.g_stage := Cermanager.Receiving |} in
  let d := {| Cermanager.st_server := SampleDaemon.server Sample.okProvider None;
              Cermanager.st_trace := []; Cermanager.st_done := false;
              Cermanager.st_errorC := []; Cermanager.st_listener := [];
              Cermanager.st_accept := Cermanager.Accepting;
              Cermanager.st_group := [receiving conn;
                                      receiving (Sample.connWith (session [get]))] |} in
  let d' := default d
              (SampleDaemon.run
                 [Cermanager.ServeTurn 0; Cermanager.ServeSelect 0; Cermanager.ServeTurn 0;
                  Cermanager.ServeTurn 1; Cermanager.ServeSelect 0] d) in
  exists answered todo ms c stage svr',
    qs = answered ++ todo
    /\ Cermanager.st_group d' !! 0%nat
       = Some {| Cermanager.g_conn := c; Cermanager.g_stage := stage |}
    /\ Wire.outbox c = Wire.outbox conn ++ ms
    /\ answeredInOrder Sample.daemonPid answered ms
    /\ Wire.peer_gone c = false
    /\ (Wire.closed c = false /\ Wire.inbox c = session todo
        \/ Wire.closed c = true /\ todo = [] /\ stage = Cermanager.Returned)
    /\ Cermanager.services (Cermanager.st_server d') !! NamespaceService
       = Some (Cermanager.NamespaceSvc svr')
    /\ (Wire.closed c = false -> stage = Cermanager.Receiving ->
        SampleDaemon.step (Cermanager.ServeTurn 0) d'
        = Some match todo with
               | [] =>
                   Cermanager.set_goroutine d' (Cermanager.st_server d')
                     (Cermanager.st_trace d') 0
                     {| Cermanager.g_conn := Wire.Close c;
                        Cermanager.g_stage := Cermanager.Returned |}
               | q :: todo =>
                   Cermanager.set_goroutine d'
                     (Cermanager.set_services (Cermanager.st_server d')
                        (<[NamespaceService :=
                             Cermanager.NamespaceSvc (answer Sample.daemonPid svr' q).2]>
                           (Cermanager.services (Cermanager.st_server d'))))
                     (Cermanager.st_trace d') 0
                     {| Cermanager.g_conn :=
                          {| Wire.inbox := session todo;
                             Wire.outbox := Wire.outbox c
                                            ++ [(answer Sample.daemonPid svr' q).1];
                             Wire.closed := false; Wire.peer_gone := false |};
                        Cermanager.g_stage := Cermanager.Selecting |}
               end).
Proof.
  intros get put qs conn receiving d d'.
  apply (serve_answers_in_request_order Sample.daemonPid Sample.mkdirOk SampleDaemon.Sprint
           qs d d' 0 conn SampleDaemon.initNamespaceSvc
           [Cermanager.ServeTurn 0; Cermanager.ServeSelect 0; Cermanager.ServeTurn 0;
            Cermanager.ServeTurn 1; Cermanager.ServeSelect 0]).
  - reflexivity.
  - reflexivity.
  - reflexivity.
  - reflexivity.
  - vm_compute. reflexivity.
  - vm_compute. reflexivity.
Defined.

(** The listener gives the first client, then an error. *)
Lemma Start_loop_sends_one_error_at_most_witness :
  let s := SampleDaemon.server Sample.okProvider None in
  let accepts := [inr SampleDaemon.client1; inl Sample.boom; inr SampleDaemon.client2] in
  let run := default (s, [], [], [])
               (Cermanager.Start_loop Sample.daemonPid Sample.mkdirOk SampleDaemon.Sprint 5 SampleDaemon.never
                  (fun _ => SampleDaemon.never) 0 accepts s [] [] []) in
  (run.1.2 = [] \/ exists err, inl err ∈ accepts /\ run.1.2 = [] ++ [err])
  /\ exists more, run.2 = [] ++ more /\ (length more <= length accepts)%nat.
Proof.
  intros s accepts run.
  apply (Start_loop_sends_one_error_at_most Sample.daemonPid Sample.mkdirOk
           SampleDaemon.Sprint 5
           SampleDaemon.never (fun _ => SampleDaemon.never) 0 accepts s run.1.1.1
           [] run.1.1.2 [] run.1.2 [] run.2).
  vm_compute. reflexivity.
Defined.

(** The first client is being served when [Accept] fails; the second client,
    which the listener would have given next, is never accepted. *)
Lemma Accept_error_ends_the_accept_loop_witness :
  let d := {| Cermanager.st_server := SampleDaemon.server Sample.okProvider None;
              Cermanager.st_trace := []; Cermanager.st_done := false;
              Cermanager.st_errorC := [];
              Cermanager.st_listener := [inl Sample.boom; inr SampleDaemon.client2];
              Cermanager.st_accept := Cermanager.Accepting;
              Cermanager.st_group :=
                [ {| Cermanager.g_conn := SampleDaemon.client1;
                     Cermanager.g_stage := Cermanager.Receiving |} ] |} in
  let ended d0 := Cermanager.set_accept d0 ([] ++ [Sample.boom]) [inr SampleDaemon.client2]
                    Cermanager.AcceptReturned (Cermanager.st_group d0) in
  SampleDaemon.step Cermanager.DoAccept d = Some (ended d)
  /\ (forall ls,
        Forall (fun l => match l with
                         | Cermanager.ServeTurn _ | Cermanager.ServeSelect _ => True
                         | _ => False
                         end) ls ->
        SampleDaemon.run ls (ended d) = ended <$> SampleDaemon.run ls d)
  /\ (forall ls d2, SampleDaemon.run ls (ended d) = Some d2 ->
        Cermanager.st_accept d2 = Cermanager.AcceptReturned
        /\ Cermanager.st_errorC d2 = [] ++ [Sample.boom]
        /\ Cermanager.st_listener d2 = [inr SampleDaemon.client2]
        /\ length (Cermanager.st_group d2) = length (Cermanager.st_group d)
        /\ SampleDaemon.step Cermanager.DoAccept d2 = None
        /\ SampleDaemon.step Cermanager.AcceptSelect d2 = None).
Proof.
  intros d.
  apply (Accept_error_ends_the_accept_loop Sample.daemonPid Sample.mkdirOk SampleDaemon.Sprint
           d Sample.boom [inr SampleDaemon.client2]); reflexivity.
Defined.

(** [Init] on the service built from the file with a mount namespace for the
    checkpoint [img-base]: the supplier prepares it. *)
Lemma namespace_Init_builds_the_three_managers_witness :
  let svr := SampleDaemon.newMountSvc in
  let svr' := SampleDaemon.initMountSvc in
  let sup := Sample.newService Sample.okProvider None in
  let sup' := Checkpoint.set_targets sup {["/var/lib/cermanager/checkpoint/img-base"]} in
  let built := [EvNewManager UTS None; EvNewManager IPC None; EvNewRootfsProvider None] in
  let asked := [EvMkdirAll "/var/lib/cermanager/checkpoint/img-base" None;
                EvPrepare "img-base" "/var/lib/cermanager/checkpoint/img-base" None] in
  Namespace.config svr' = Namespace.config svr
  /\ Namespace.root svr' = Sample.rootPath
  /\ dom (Namespace.managers svr') = {[UTS; IPC; MNT]}
  /\ exists u i m mU mI mM p trM,
       Namespace.Capacity (Namespace.config svr) !! UTS = Some u
       /\ Namespace.Capacity (Namespace.config svr) !! IPC = Some i
       /\ Namespace.Capacity (Namespace.config svr) !! MNT = Some m
       /\ 0 <= u /\ 0 <= i /\ 0 <= m
       /\ SampleDaemon.newUTSManager [] Sample.rootPath u = inr mU
       /\ Namespace.managers svr' !! UTS = Some mU
       /\ SampleDaemon.newIPCManager ([] ++ [EvNewManager UTS None]) Sample.rootPath i = inr mI
       /\ Namespace.managers svr' !! IPC = Some mI
       /\ SampleDaemon.newRootfsProvider ([] ++ [EvNewManager UTS None; EvNewManager IPC None])
          = inr p
       /\ Namespace.fill Checkpoint.service (Checkpoint.Get Sample.mkdirOk)
            (SampleDaemon.newMountManager ([] ++ built) Sample.rootPath m
               (default [] (Namespace.ExtraArgs (Namespace.config svr) !! MNT)) p)
            sup ([] ++ built)
          = (inr mM, sup', trM)
       /\ Namespace.managers svr' !! MNT = Some mM
       /\ built ++ asked ++ [EvNewManager MNT None] = trM ++ [EvNewManager MNT None].
Proof.
  intros svr svr' sup sup' built asked.
  apply (namespace_Init_builds_the_three_managers SampleDaemon.unmarshalServiceConfig unit
           SampleDaemon.newUTSManager SampleDaemon.newIPCManager SampleDaemon.newRootfsProvider
           SampleDaemon.newMountManager Checkpoint.service (Checkpoint.Get Sample.mkdirOk)
           SampleDaemon.fsWithMount Sample.rootPath svr svr' sup sup' []
           (built ++ asked ++ [EvNewManager MNT None]));
    vm_compute; reflexivity.
Defined.

(** The server built from the two files, with a mount namespace for the
    checkpoint [img-base] and an HTTP server on the port 8080; the checkpoint
    service is initialised first. *)
Lemma NewServer_returns_an_initialised_server_witness :
  let svr := SampleDaemon.mountServer Sample.okProvider (Some (fun _ => None)) in
  let tr' := [EvMkdirAll "/var/lib/cermanager" None;
              EvMkdirAll "/var/lib/cermanager/checkpoint" None;
              EvNewManager UTS None; EvNewManager IPC None; EvNewRootfsProvider None;
              EvMkdirAll "/var/lib/cermanager/checkpoint/img-base" None;
              EvPrepare "img-base" "/var/lib/cermanager/checkpoint/img-base" None;
              EvNewManager MNT None] in
  exists ns cs new,
    svr = Cermanager.newServer ns cs (Cermanager.httpServer svr)
    /\ dom (Namespace.managers ns) = {[UTS; IPC; MNT]}
    /\ Namespace.root ns = Cermanager.DefaultRootPath
    /\ Checkpoint.root cs = "/var/lib/cermanager/checkpoint"
    /\ Checkpoint.router cs = {[Checkpoint.MethodGetCheckpoint]}
    /\ (8080 = 0 <-> Cermanager.httpServer svr = None)
    /\ tr' = [] ++ EvMkdirAll Cermanager.DefaultRootPath None :: new
    /\ EvMkdirAll "/var/lib/cermanager/checkpoint" None ∈ new
    /\ Forall (fun e => e ∈ new)
         [EvNewManager UTS None; EvNewManager IPC None; EvNewRootfsProvider None;
          EvNewManager MNT None]
    /\ Checkpoint.targets cs = list_to_set (preparedTargets new)
    /\ Forall servingEvent new.
Proof.
  intros svr tr'.
  apply (NewServer_returns_an_initialised_server Sample.mkdirOk SampleDaemon.bindOk
           SampleDaemon.bindOk unit unit unit Sample.unmarshalConfig
           Sample.unmarshalProviderConfig Sample.unmarshalProviderConfig
           (fun _ => inr Sample.okProvider) (fun _ => inr Sample.okProvider)
           SampleDaemon.unmarshalServiceConfig SampleDaemon.newUTSManager
           SampleDaemon.newIPCManager SampleDaemon.newRootfsProvider
           SampleDaemon.newMountManager SampleDaemon.newHttpServer
           [CheckpointService; NamespaceService] SampleDaemon.fsWithMount 8080 [] tr' svr).
  - apply perm_swap.
  - vm_compute. reflexivity.
Defined.

(** A file system with the file of the namespace service only. *)
Lemma NewServer_needs_the_checkpoint_configuration_witness :
  SampleDaemon.NewServer Sample.okProvider [NamespaceService; CheckpointService]
    (SampleDaemon.namespaceFsWith (File SampleDaemon.smallPools)) 0 []
  = (inl (errors_New "failed to create checkpoint service: failed to read config file: open /var/lib/cermanager/checkpoint_service.json: no such file or directory"),
     [] ++ [EvMkdirAll Cermanager.DefaultRootPath None]).
Proof.
  apply (NewServer_needs_the_checkpoint_configuration Sample.mkdirOk SampleDaemon.bindOk
           SampleDaemon.bindOk unit unit unit Sample.unmarshalConfig
           Sample.unmarshalProviderConfig Sample.unmarshalProviderConfig
           (fun _ => inr Sample.okProvider) (fun _ => inr Sample.okProvider)
           SampleDaemon.unmarshalServiceConfig SampleDaemon.newUTSManager
           SampleDaemon.newIPCManager SampleDaemon.newRootfsProvider
           SampleDaemon.newMountManager SampleDaemon.newHttpServer
           [NamespaceService; CheckpointService]
           (SampleDaemon.namespaceFsWith (File SampleDaemon.smallPools)) 0 []);
    reflexivity.
Defined.


(** After [Init], a request for [img-A]. *)
Lemma Init_then_Handle_answers_GetCheckpoint_witness :
  let s := Sample.newService Sample.okProvider None in
  let s' := Sample.checkpointOn Sample.okProvider None in
  let later := [EvMkdirAll "/var/lib/cermanager/checkpoint" None] in
  let conn := Sample.connWith [Wire.FrameString "GetCheckpoint";
                               Wire.FrameGetCheckpointRequest {| Ref := "img-A" |}] in
  let get := Checkpoint.Get Sample.mkdirOk "img-A" s' later in
  let res := Checkpoint.Handle Sample.mkdirOk s' later conn in
  Checkpoint.root s' = Checkpoint.root s
  /\ Checkpoint.targets s' = Checkpoint.targets s
  /\ res.1.1 = get.1.2
  /\ res.2 = {| Wire.inbox := [];
                Wire.outbox := Wire.outbox conn
                               ++ [Wire.MsgGetCheckpointResponse {| Path := get.1.1.1 |}];
                Wire.closed := false; Wire.peer_gone := false |}
  /\ exists logged, res.1.2 = get.2 ++ logged
                    /\ removedTargets logged = [] /\ preparedTargets logged = [].
Proof.
  intros s s' later conn.
  apply (Init_then_Handle_answers_GetCheckpoint Sample.mkdirOk s s' [] later later conn
           {| Ref := "img-A" |} []).
  - vm_compute. reflexivity.
  - reflexivity.
  - reflexivity.
  - reflexivity.
Defined.

(** The rootfs provider cannot be built: [Init] of the namespace service
    fails after the two pools were made. *)
Lemma NewServer_failure_shows_the_order_witness :
  let NewServer :=
    Cermanager.NewServer Sample.mkdirOk SampleDaemon.bindOk SampleDaemon.bindOk unit unit unit
      Sample.unmarshalConfig Sample.unmarshalProviderConfig Sample.unmarshalProviderConfig
      (fun _ => inr Sample.okProvider) (fun _ => inr Sample.okProvider)
      SampleDaemon.unmarshalServiceConfig SampleDaemon.newUTSManager
      SampleDaemon.newIPCManager (fun _ => inl Sample.boom) SampleDaemon.newMountManager
      SampleDaemon.newHttpServer in
  NewServer [NamespaceService; CheckpointService] SampleDaemon.fs 0 []
  = (inl Sample.boom,
     [EvMkdirAll "/var/lib/cermanager" None;
      EvNewManager UTS None; EvNewManager IPC None; EvNewRootfsProvider (Some Sample.boom)])
  /\ NewServer [CheckpointService; NamespaceService] SampleDaemon.fs 0 []
     = (inl Sample.boom,
        [EvMkdirAll "/var/lib/cermanager" None;
         EvMkdirAll "/var/lib/cermanager/checkpoint" None;
         EvNewManager UTS None; EvNewManager IPC None;
         EvNewRootfsProvider (Some Sample.boom)]).
Proof.
  assert (Hcs : Checkpoint.New unit unit Sample.unmarshalConfig Sample.unmarshalProviderConfig
                  Sample.unmarshalProviderConfig
                  (fun _ => inr Sample.okProvider) (fun _ => inr Sample.okProvider)
                  (delete "/var/lib/cermanager/daemon.socket" SampleDaemon.fs)
                  Cermanager.DefaultRootPath
                = inr (Sample.newService Sample.okProvider None))
    by (vm_compute; reflexivity).
  assert (Hns : Namespace.New SampleDaemon.unmarshalServiceConfig
                  (delete "/var/lib/cermanager/daemon.socket" SampleDaemon.fs)
                  Cermanager.DefaultRootPath
                = inr SampleDaemon.newNamespaceSvc)
    by (vm_compute; reflexivity).
  destruct (NewServer_failure_shows_the_order Sample.mkdirOk SampleDaemon.bindOk
              SampleDaemon.bindOk unit unit unit Sample.unmarshalConfig
              Sample.unmarshalProviderConfig Sample.unmarshalProviderConfig
              (fun _ => inr Sample.okProvider) (fun _ => inr Sample.okProvider)
              SampleDaemon.unmarshalServiceConfig SampleDaemon.newUTSManager
              SampleDaemon.newIPCManager (fun _ => inl Sample.boom)
              SampleDaemon.newMountManager SampleDaemon.newHttpServer SampleDaemon.fs 0 []
              (Sample.newService Sample.okProvider None) SampleDaemon.newNamespaceSvc
              eq_refl eq_refl eq_refl Hcs Hns (or_introl eq_refl) eq_refl)
    as (Hfirst & Hsecond & _ & _).
  split.
  - rewrite (Hfirst Sample.boom) by (vm_compute; reflexivity). vm_compute. reflexivity.
  - rewrite (Hsecond Sample.boom) by (vm_compute; reflexivity). vm_compute. reflexivity.
Defined.
